(** * Planicorn task board: lane ordering, fan-out and client reconciliation

    A shallow embedding of the parts of the Planicorn sources that decide the
    rank, completion-timestamp, ownership, fan-out, pagination, optimistic
    rollback and debounce properties of the specification, followed by the
    properties themselves (C1 to C10) and by further properties of the same
    code and of its neighbours (X1 to X26): listing and paging, what a write
    stores, the boards and lists of the clients, the debounced calls, the
    task form, credentials, error answers, reconnection and migrations.

    Sources embedded (paths relative to the repository):
    - [backend/src/models/Task.js]                  -> [Module TaskModel]
    - [backend/src/middleware/validation.js], and the outcome of
      [middleware/auth.js] and [middleware/errorHandler.js]
                                                    -> [Module Middleware]
    - [backend/src/socket/socketHandlers.js], and the outcome of
      [socket/socketAuth.js]                        -> [Module Socket]
    - [backend/src/controllers/taskController.js],
      [backend/src/routes/tasks.js]                 -> [Module Api]
    - [frontend/src/services/taskService.js]        -> [Module TaskService]
    - [frontend/src/components/Dashboard.jsx]       -> [Module Dashboard]
    - [frontend/src/components/tasks/TaskBoard.jsx] -> [Module TaskBoard]
    - [frontend/src/components/tasks/TaskModal.jsx] -> [Module TaskModal]
    - [backend/src/middleware/auth.js],
      [backend/src/socket/socketAuth.js], from the header or the token to
      the credential                                -> [Module Auth]
    - [backend/src/middleware/errorHandler.js], from the error object to
      the answer                                    -> [Module ErrorHandler]
    - [frontend/src/services/socketService.js]      -> [Module SocketService]
    - the other handlers of [Dashboard.jsx]         -> [Module DashboardHandlers]
    - [backend/scripts/migrate.js]                  -> [Module Migrate]

    Conventions.
    - ObjectIds are natural numbers handed out by a counter; [toString]
      renders them injectively.  Timestamps are integers ([Z]); the clock
      reading of an operation is an explicit argument [now].
    - A rank ([position]) is a JavaScript Number that holds an integer.  It
      is written as that integer, and [Infinity] as 2^1024, which lies above
      every finite Number, so that Numbers compare as integers do; what a
      literal or a sum becomes as a Number is [Js.to_double], the nearest
      double.  Page numbers and page sizes are integers (they are taken
      within [Number.MAX_SAFE_INTEGER]).
    - A string is the UTF-8 encoding of the JavaScript string.  [Js.length]
      counts its UTF-16 code units, as [.length] and the schema's
      [maxlength] do; the [isLength] validator has a count of its own.
    - A [Request] is the request as it leaves [sanitizeInput]: its string
      fields are already purified and trimmed, so the [.trim()] sanitizers of
      the validation chains are the identity on it.  The keys of a body or a
      query carry scalar values.  Where a body is followed from the form to
      the router, [Middleware.sanitizeInput] is applied to it.
    - The server handles one request at a time; a handler runs to its end
      before the next request is looked at.
    - On the client, time passes in [Tick] events; a timeout may run at any
      time from its due time on, and the answer to a request may arrive at
      any time after the request was sent.
    - [jwt.verify], the accounts, the effect of a migration on the database
      and [DOMPurify.sanitize] are parameters. *)

From stdpp Require Import gmap strings list pretty sorting.
From Stdlib Require Import ZArith Lia Ascii.

(** ** Result of a middleware or handler that may stop the chain *)

Inductive Flow (R A : Type) : Type :=
  | Next (a : A)
  | Reply (r : R).
Arguments Next {R A} a.
Arguments Reply {R A} r.

#[global] Instance Flow_bind {R} : MBind (Flow R) := fun A B k m =>
  match m with
  | Next a => k a
  | Reply r => Reply r
  end.

#[global] Instance Flow_ret {R} : MRet (Flow R) := fun A a => Next a.

(** ** JavaScript Numbers and strings *)

Module Js.

(** [Number.MAX_SAFE_INTEGER]: up to it, in absolute value, every integer
    is a Number. *)
Definition MAX_SAFE_INTEGER : Z := 2 ^ 53 - 1.

(** [Infinity] is written as the integer 2^1024; the largest finite Number
    is 2^1024 - 2^971. *)
Definition Infinity : Z := 2 ^ 1024.

(** The Number nearest to the integer [z]: 53 significant bits are kept,
    rounding to the nearest, and to the even one of two that are equally
    near; what reaches 2^1024 is [Infinity]. *)
Definition to_double (z : Z) : Z :=
  let a := Z.abs z in
  if (a <=? MAX_SAFE_INTEGER)%Z then z
  else
    let e := (Z.log2 a - 52)%Z in
    let q := (a / 2 ^ e)%Z in
    let r := (a mod 2 ^ e)%Z in
    let half := (2 ^ (e - 1))%Z in
    let m := if (r <? half)%Z then q
             else if (half <? r)%Z then (q + 1)%Z
             else if Z.even q then q else (q + 1)%Z in
    let v := (m * 2 ^ e)%Z in
    (Z.sgn z * (if (Infinity <=? v)%Z then Infinity else v))%Z.

(** [a + b] on Numbers. *)
Definition add (a b : Z) : Z := to_double (a + b).

(** The bytes 10xxxxxx continue a character. *)
Definition is_continuation (c : Ascii.ascii) : bool :=
  let n := Ascii.nat_of_ascii c in (128 <=? n)%nat && (n <? 192)%nat.

(** The number of code points: the bytes that start a character. *)
Fixpoint codePoints (s : string) : nat :=
  match s with
  | EmptyString => 0%nat
  | String c s' => ((if is_continuation c then 0 else 1) + codePoints s')%nat
  end.

(** [s.length]: the number of UTF-16 code units.  A character of four bytes
    (first byte 11110xxx) lies outside the basic plane and takes two. *)
Fixpoint length (s : string) : nat :=
  match s with
  | EmptyString => 0%nat
  | String c s' =>
      ((if is_continuation c then 0
        else if (240 <=? Ascii.nat_of_ascii c)%nat then 2 else 1) + length s')%nat
  end.

(** White space and line terminators, by the number of their bytes: U+0009
    to U+000D and U+0020; U+00A0; U+1680, U+2000 to U+200A, U+2028, U+2029,
    U+202F, U+205F, U+3000 and U+FEFF. *)
Definition is_space1 (a : Ascii.ascii) : bool :=
  let x := Ascii.nat_of_ascii a in
  ((9 <=? x) && (x <=? 13) || (x =? 32))%nat.

Definition is_space2 (a b : Ascii.ascii) : bool :=
  ((Ascii.nat_of_ascii a =? 194) && (Ascii.nat_of_ascii b =? 160))%nat.

Definition is_space3 (a b c : Ascii.ascii) : bool :=
  let x := Ascii.nat_of_ascii a in
  let y := Ascii.nat_of_ascii b in
  let z := Ascii.nat_of_ascii c in
  ((x =? 225) && (y =? 154) && (z =? 128)
   || (x =? 226) && (y =? 128)
      && ((128 <=? z) && (z <=? 138) || (z =? 168) || (z =? 169) || (z =? 175))
   || (x =? 226) && (y =? 129) && (z =? 159)
   || (x =? 227) && (y =? 128) && (z =? 128)
   || (x =? 239) && (y =? 187) && (z =? 191))%nat.

(** [String.prototype.trimStart], [trimEnd] and [trim]. *)
Fixpoint trimStart (s : string) : string :=
  match s with
  | EmptyString => EmptyString
  | String a s1 =>
      if is_space1 a then trimStart s1
      else match s1 with
           | EmptyString => s
           | String b s2 =>
               if is_space2 a b then trimStart s2
               else match s2 with
                    | EmptyString => s
                    | String c s3 => if is_space3 a b c then trimStart s3 else s
                    end
           end
  end.

(** Nothing but white space. *)
Definition blank (s : string) : bool :=
  match trimStart s with
  | EmptyString => true
  | String _ _ => false
  end.

Fixpoint trimEnd (s : string) : string :=
  match s with
  | EmptyString => EmptyString
  | String c s' => if blank s then EmptyString else String c (trimEnd s')
  end.

Definition trim (s : string) : string := trimEnd (trimStart s).

(** [s.repeat(n)] *)
Fixpoint repeat (s : string) (n : nat) : string :=
  match n with
  | O => EmptyString
  | S n' => s +:+ repeat s n'
  end.

End Js.

(** ** models/Task.js *)

Module TaskModel.

Abbreviation ObjectId := nat.
Abbreviation Time := Z.

Definition toString (o : ObjectId) : string := pretty o.

Inductive Status := todo | inprogress | done.

#[global] Instance Status_eq_dec : EqDecision Status.
Proof. solve_decision. Defined.

(** The schema's [enum] of lane names. *)
Definition status_name (s : Status) : string :=
  match s with
  | todo => "todo"
  | inprogress => "inprogress"
  | done => "done"
  end.

Definition parse_status (raw : string) : option Status :=
  if String.eqb raw "todo" then Some todo
  else if String.eqb raw "inprogress" then Some inprogress
  else if String.eqb raw "done" then Some done
  else None.

Record Task := mkTask {
  _id : ObjectId;
  userId : ObjectId;
  title : string;
  description : string;
  status : Status;
  position : Z;
  completedAt : option Time;
  createdAt : Time;
  updatedAt : Time
}.

#[global] Instance Task_eq_dec : EqDecision Task.
Proof. solve_decision. Defined.

Definition with_title (v : string) (t : Task) : Task :=
  mkTask (_id t) (userId t) v (description t) (status t) (position t)
         (completedAt t) (createdAt t) (updatedAt t).
Definition with_description (v : string) (t : Task) : Task :=
  mkTask (_id t) (userId t) (title t) v (status t) (position t)
         (completedAt t) (createdAt t) (updatedAt t).
Definition with_status (v : Status) (t : Task) : Task :=
  mkTask (_id t) (userId t) (title t) (description t) v (position t)
         (completedAt t) (createdAt t) (updatedAt t).
Definition with_position (v : Z) (t : Task) : Task :=
  mkTask (_id t) (userId t) (title t) (description t) (status t) v
         (completedAt t) (createdAt t) (updatedAt t).
Definition with_completedAt (v : option Time) (t : Task) : Task :=
  mkTask (_id t) (userId t) (title t) (description t) (status t) (position t)
         v (createdAt t) (updatedAt t).
Definition with_updatedAt (v : Time) (t : Task) : Task :=
  mkTask (_id t) (userId t) (title t) (description t) (status t) (position t)
         (completedAt t) (createdAt t) v.

(** A Mongoose document: the field values, whether it was built with [new]
    and not saved yet, and the paths whose value was changed since it was
    loaded.  A setter marks its path only when the value really changes. *)

Inductive Path := p_title | p_description | p_status | p_position | p_completedAt.

#[global] Instance Path_eq_dec : EqDecision Path.
Proof. solve_decision. Defined.

Record Document := mkDocument {
  fields : Task;
  isNew : bool;
  modifiedPaths : list Path
}.

Definition isModified (p : Path) (d : Document) : bool :=
  bool_decide (p ∈ modifiedPaths d).

(** A document read from the collection ([findOne]). *)
Definition hydrate (t : Task) : Document := mkDocument t false [].

Definition assign {A} `{EqDecision A} (p : Path) (get : Task -> A)
    (set : A -> Task -> Task) (v : A) (d : Document) : Document :=
  if decide (get (fields d) = v) then d
  else mkDocument (set v (fields d)) (isNew d) (p :: modifiedPaths d).

Definition set_title := assign p_title title with_title.
Definition set_description := assign p_description description with_description.
Definition set_status := assign p_status status with_status.
Definition set_position := assign p_position position with_position.

(** [new Task({ title, description, status, userId, position })]: every
    field handed to the constructor counts as modified; [description:
    undefined] takes the schema default [''], [completedAt] the default
    [null].  The timestamps are written by [save]. *)
Definition new_Task (oid : ObjectId) (ttl : string) (descr : option string)
    (st : Status) (uid : ObjectId) (pos : Z) : Document :=
  mkDocument
    (mkTask oid uid ttl (default "" descr) st pos None 0 0)
    true
    ([p_title; p_status; p_position]
       ++ match descr with Some _ => [p_description] | None => [] end).

(** [taskSchema.pre('save', ...)].  [!this.completedAt] is true exactly when
    the field is [null]: a [Date] object is always truthy. *)
Definition pre_save (now : Time) (d : Document) : Document :=
  if isModified p_status d then
    if bool_decide (status (fields d) = done)
       && bool_decide (completedAt (fields d) = None)
    then mkDocument (with_completedAt (Some now) (fields d)) (isNew d)
                    (p_completedAt :: modifiedPaths d)
    else if bool_decide (status (fields d) ≠ done)
    then mkDocument (with_completedAt None (fields d)) (isNew d)
                    (modifiedPaths d)
    else d
  else d.

(** The schema's validators, run by [save] on the paths it writes:
    [required], [minlength] and [maxlength] test [value.length], [min] tests
    the Number. *)
Definition path_valid (t : Task) (p : Path) : bool :=
  match p with
  | p_title =>
      bool_decide (1 <= Js.length (title t) <= 200)%nat
  | p_description => bool_decide (Js.length (description t) <= 1000)%nat
  | p_position => bool_decide (0 <= position t)%Z
  | p_status | p_completedAt => true
  end.

Definition validateSync (d : Document) : bool :=
  forallb (path_valid (fields d))
          (if isNew d then [p_title; p_description; p_status; p_position]
           else modifiedPaths d).

(** The collection, in insertion order. *)
Abbreviation Collection := (list Task).

Definition replace_doc (t : Task) (c : Collection) : Collection :=
  (fun t' => if decide (_id t' = _id t) then t else t') <$> c.

(** [doc.save()]: validation, the pre-save hook, the [timestamps] plugin,
    then the insert or the update of the one document with this [_id].
    [None] is a Mongoose [ValidationError]. *)
Definition save (now : Time) (d : Document) (c : Collection)
    : option (Task * Collection) :=
  if validateSync d then
    let d' := pre_save now d in
    if isNew d' then
      let t := mkTask (_id (fields d')) (userId (fields d')) (title (fields d'))
                 (description (fields d')) (status (fields d'))
                 (position (fields d')) (completedAt (fields d')) now now in
      Some (t, c ++ [t])
    else
      let t := match modifiedPaths d' with
               | [] => fields d'
               | _ :: _ => with_updatedAt now (fields d')
               end in
      Some (t, replace_doc t c)
  else None.

(** [Task.findOne({ _id: id, userId })]. *)
Definition findOne_by_id_user (oid uid : ObjectId) (c : Collection) : option Task :=
  List.find (fun t => bool_decide (_id t = oid) && bool_decide (userId t = uid)) c.

(** [Task.findByIdAndDelete(id)]. *)
Definition findByIdAndDelete (oid : ObjectId) (c : Collection) : Collection :=
  filter (fun t => _id t ≠ oid) c.

(** Stable insertion sort by a "comes before or ties" test, for [.sort]. *)
Fixpoint insert_by (le : Task -> Task -> bool) (x : Task) (l : list Task) : list Task :=
  match l with
  | [] => [x]
  | y :: l' => if le x y then x :: y :: l' else y :: insert_by le x l'
  end.

Fixpoint sort_by (le : Task -> Task -> bool) (l : list Task) : list Task :=
  match l with
  | [] => []
  | x :: l' => insert_by le x (sort_by le l')
  end.

(** [Task.findOne({ userId, status }).sort({ position: -1 })]: the first
    document of the matching ones in descending rank. *)
Definition matches_user_status (uid : ObjectId) (st : Status) (t : Task) : Prop :=
  userId t = uid ∧ status t = st.

#[global] Instance matches_user_status_dec uid st t :
  Decision (matches_user_status uid st t).
Proof. unfold matches_user_status. apply _. Defined.

Definition position_desc (a b : Task) : bool := (position b <=? position a)%Z.

Definition findOne_last_in_lane (uid : ObjectId) (st : Status) (c : Collection)
    : option Task :=
  head (sort_by position_desc (filter (matches_user_status uid st) c)).

End TaskModel.

(** ** middleware/auth.js, middleware/validation.js, middleware/errorHandler.js *)

Module Middleware.
Import TaskModel.

Record User := mkUser { user_id : ObjectId; username : string }.

#[global] Instance User_eq_dec : EqDecision User.
Proof. solve_decision. Defined.

(** A value that a validator tests with [isInt].  [IntLit z] is a value
    whose text is a string of decimal digits, with or without a sign, that
    reads as the integer [z]: such a string, of any length, or a JSON
    number that is printed as one.  Everything else is [NotInt]. *)
Inductive RawInt := IntLit (z : Z) | NotInt (raw : string).

(** The [:id] path parameter: text that [ObjectId.isValid] accepts, written
    as the ObjectId it casts to, or any other text. *)
Inductive IdParam := ValidId (oid : ObjectId) | MalformedId (raw : string).

#[global] Instance RawInt_eq_dec : EqDecision RawInt.
Proof. solve_decision. Defined.
#[global] Instance IdParam_eq_dec : EqDecision IdParam.
Proof. solve_decision. Defined.

(** [req.body] of a task route: the four keys the controllers read, each
    present or [undefined], and every other key the client sent. *)
Record Body := mkBody {
  b_title : option string;
  b_description : option string;
  b_status : option string;
  b_position : option RawInt;
  b_extra : list (string * string)
}.

#[global] Instance Body_eq_dec : EqDecision Body.
Proof. solve_decision. Defined.

Record Query := mkQuery {
  q_status : option string;
  q_page : option RawInt;
  q_limit : option RawInt;
  q_extra : list (string * string)
}.

Inductive Route :=
  | GET_tasks
  | POST_tasks
  | PUT_task (id : IdParam)
  | DELETE_task (id : IdParam)
  | PATCH_task_status (id : IdParam).

#[global] Instance Route_eq_dec : EqDecision Route.
Proof. solve_decision. Defined.

(** [credential] is what the bearer token resolves to in [authenticate]: the
    account, or the error code of the 401 answer. *)
Record Request := mkRequest {
  route : Route;
  credential : User + string;
  contentLength : Z;
  body : Body;
  query : Query
}.

Inductive Payload :=
  | ErrorData (code : string)
  | TaskData (t : Task)
  | DeletedData (message : string) (t : Task)
  | ListData (tasks : list Task) (page limit total pages : Z).

Record Response := mkResponse {
  statusCode : nat;
  success : bool;
  data : Payload
}.

(** [next(new AppError(message, statusCode, code))] as answered by
    [globalErrorHandler], and the direct [res.status(..).json(..)] errors. *)
Definition error_response (sc : nat) (code : string) : Response :=
  mkResponse sc false (ErrorData code).

Definition opt_key {A} (k : string) (v : option A) : list string :=
  match v with Some _ => [k] | None => [] end.

Definition body_keys (b : Body) : list string :=
  opt_key "title" (b_title b) ++ opt_key "description" (b_description b)
    ++ opt_key "status" (b_status b) ++ opt_key "position" (b_position b)
    ++ (b_extra b).*1.

Definition query_keys (q : Query) : list string :=
  opt_key "status" (q_status q) ++ opt_key "page" (q_page q)
    ++ opt_key "limit" (q_limit q) ++ (q_extra q).*1.

Fixpoint includes (c : Ascii.ascii) (s : string) : bool :=
  match s with
  | EmptyString => false
  | String a s' => Ascii.eqb a c || includes c s'
  end.

(** [sanitizeInput] on the body: every string value is replaced by
    [DOMPurify.sanitize(value, ...).trim()]; [purify] is
    [DOMPurify.sanitize] with the options of the source.  [b_position] is
    the rank as it is after this step. *)
Definition sanitize (purify : string -> string) (s : string) : string :=
  Js.trim (purify s).

Definition sanitizeInput (purify : string -> string) (b : Body) : Body :=
  mkBody (sanitize purify <$> b_title b) (sanitize purify <$> b_description b)
         (sanitize purify <$> b_status b) (b_position b)
         (prod_map id (sanitize purify) <$> b_extra b).

(** [validateRequestSize] *)
Definition maxSize : Z := 1024 * 1024.

Definition validateRequestSize (req : Request) : Flow Response unit :=
  if (maxSize <? contentLength req)%Z
  then Reply (error_response 413 "PAYLOAD_TOO_LARGE")
  else Next ().

(** [validateNoSqlInjection]: [checkForInjection] over the keys of the body
    and of the query (the values of this model are scalars). *)
Definition checkForInjection (keys : list string) : bool :=
  existsb (fun key => String.prefix "$" key || includes "."%char key) keys.

Definition validateNoSqlInjection (req : Request) : Flow Response unit :=
  if checkForInjection (body_keys (body req))
     || checkForInjection (query_keys (query req))
  then Reply (error_response 400 "INVALID_INPUT")
  else Next ().

(** [authenticate] *)
Definition authenticate (req : Request) : Flow Response User :=
  match credential req with
  | inl u => Next u
  | inr code => Reply (error_response 401 code)
  end.

(** express-validator chains: each returns the messages it records. *)

(** The [len] of validator.js's [isLength]: [str.length] less the number of
    surrogate pairs and less the number of variation selectors U+FE0E and
    U+FE0F (bytes EF B8 8E and EF B8 8F); that is the number of characters
    that are not such a selector. *)
Definition starts_with_selector (s : string) : bool :=
  match s with
  | String a (String b (String c _)) =>
      ((Ascii.nat_of_ascii a =? 239) && (Ascii.nat_of_ascii b =? 184)
       && ((Ascii.nat_of_ascii c =? 142) || (Ascii.nat_of_ascii c =? 143)))%nat
  | _ => false
  end.

Fixpoint len (s : string) : nat :=
  match s with
  | EmptyString => 0%nat
  | String c s' =>
      ((if Js.is_continuation c || starts_with_selector s then 0 else 1)
       + len s')%nat
  end.

Definition isLength (min max : nat) (s : string) : bool :=
  bool_decide (min <= len s <= max)%nat.

Definition isIn_lanes (s : string) : bool :=
  bool_decide (is_Some (parse_status s)).

(** [isInt({ min, max })]: the text is compared as a Number with the
    bounds; for the bounds used here, 0, 1 and 100, the Number lies on the
    same side as the integer it is nearest to. *)
Definition isInt (min : Z) (max : option Z) (v : RawInt) : bool :=
  match v with
  | IntLit z => (min <=? z)%Z && from_option (fun m => (z <=? m)%Z) true max
  | NotInt _ => false
  end.

Definition check {A} (ok : A -> bool) (msg : string) (v : A) : list string :=
  if ok v then [] else [msg].

Definition optional {A} (ok : A -> bool) (msg : string) (v : option A) : list string :=
  from_option (check ok msg) [] v.

Definition validateObjectId (id : IdParam) : list string :=
  match id with
  | ValidId _ => []
  | MalformedId _ => ["Invalid id format"]
  end.

Definition validateTaskQuery (q : Query) : list string :=
  optional isIn_lanes "Status must be one of: todo, inprogress, done" (q_status q)
  ++ optional (isInt 1 None) "Page must be a positive integer" (q_page q)
  ++ optional (isInt 1 (Some 100%Z)) "Limit must be between 1 and 100" (q_limit q).

Definition validateCreateTask (b : Body) : list string :=
  check (isLength 1 200) "Task title must be between 1 and 200 characters"
        (default "" (b_title b))
  ++ optional (isLength 0 1000) "Task description cannot exceed 1000 characters"
        (b_description b)
  ++ optional isIn_lanes "Status must be one of: todo, inprogress, done" (b_status b)
  ++ optional (isInt 0 None) "Position must be a non-negative integer" (b_position b).

Definition validateUpdateTask (b : Body) : list string :=
  optional (isLength 1 200) "Task title must be between 1 and 200 characters"
        (b_title b)
  ++ optional (isLength 0 1000) "Task description cannot exceed 1000 characters"
        (b_description b)
  ++ optional isIn_lanes "Status must be one of: todo, inprogress, done" (b_status b)
  ++ optional (isInt 0 None) "Position must be a non-negative integer" (b_position b).

Definition validateUpdateTaskStatus (b : Body) : list string :=
  check isIn_lanes "Status must be one of: todo, inprogress, done"
        (default "" (b_status b))
  ++ optional (isInt 0 None) "Position must be a non-negative integer" (b_position b).

(** [handleValidationErrors] *)
Definition handleValidationErrors (errors : list string) : Flow Response unit :=
  match errors with
  | [] => Next ()
  | _ :: _ => Reply (error_response 400 "VALIDATION_ERROR")
  end.

(** [validateTaskOwnership]: the task of this id that belongs to the caller,
    attached to the request as [req.task]. *)
Definition validateTaskOwnership (id : IdParam) (u : User) (c : Collection)
    : Flow Response Task :=
  match id with
  | MalformedId _ => Reply (error_response 400 "INVALID_ID")
  | ValidId oid =>
      match findOne_by_id_user oid (user_id u) c with
      | None => Reply (error_response 404 "TASK_NOT_FOUND")
      | Some t => Next t
      end
  end.

End Middleware.

(** ** socket/socketAuth.js, socket/socketHandlers.js *)

Module Socket.
Import TaskModel Middleware.

(** A connected socket: its id, the account [socketAuth] attached to it and
    the rooms it joined with [socket.join]. *)
Record Conn := mkConn {
  socket_id : nat;
  socket_user : User;
  rooms : list string
}.

(** The [io] server: its connected sockets. *)
Abbreviation Io := (list Conn).

Record Event := mkEvent {
  ev_name : string;
  ev_taskId : option ObjectId;
  ev_task : Task;
  ev_timestamp : Time
}.

#[global] Instance Event_eq_dec : EqDecision Event.
Proof. solve_decision. Defined.

(** One delivery: the receiving socket and what it receives. *)
Abbreviation Delivery := (nat * Event)%type.

(** [socketAuth]: a handshake whose token does not resolve to an account
    is refused. *)
Definition socketAuth (cred : User + string) : Flow string User :=
  match cred with
  | inl u => Next u
  | inr msg => Reply ("Authentication error: " +:+ msg)
  end.

Definition user_room (userId : string) : string := "user:" +:+ userId.

(** [handleConnection(io)(socket)]: join the account's room. *)
Definition handleConnection (sid : nat) (u : User) (io : Io) : Io :=
  io ++ [mkConn sid u [user_room (toString (user_id u))]].

(** A handshake: authentication, then the connection handler. *)
Definition connect (sid : nat) (cred : User + string) (io : Io) : Io :=
  match socketAuth cred with
  | Next u => handleConnection sid u io
  | Reply _ => io
  end.

(** A disconnected socket leaves the server and all its rooms. *)
Definition disconnect (sid : nat) (io : Io) : Io :=
  filter (fun s => socket_id s ≠ sid) io.

(** [io.to(room).emit(name, payload)] *)
Definition to_room_emit (io : Io) (room : string) (ev : Event) : list Delivery :=
  (fun s => (socket_id s, ev)) <$> filter (fun s => room ∈ rooms s) io.

(** [emitTaskEvent(io, userId, eventType, taskData)] *)
Definition emitTaskEvent (io : Io) (userId : string) (eventType : string)
    (taskData : Task) (now : Time) : list Delivery :=
  let room := user_room userId in
  if String.eqb eventType "task-created" then
    to_room_emit io room (mkEvent "task-created" None taskData now)
  else if String.eqb eventType "task-updated" then
    to_room_emit io room (mkEvent "task-updated" None taskData now)
  else if String.eqb eventType "task-deleted" then
    to_room_emit io room (mkEvent "task-deleted" (Some (_id taskData)) taskData now)
  else if String.eqb eventType "task-status-updated" then
    to_room_emit io room (mkEvent "task-status-updated" None taskData now)
  else [].

End Socket.

(** ** controllers/taskController.js and routes/tasks.js *)

Module Api.
Import TaskModel Middleware Socket.

(** The server: the task collection, the ObjectId generator and the [io]
    object that [server.js] stores with [app.set('io', io)]. *)
Record Server := mkServer {
  tasks : Collection;
  next_oid : ObjectId;
  io : option Io
}.

(** What handling one request produces: the answer, the server afterwards
    and the socket deliveries. *)
Abbreviation Handled := (Response * Server * list Delivery)%type.

Definition with_tasks (c : Collection) (srv : Server) : Server :=
  mkServer c (next_oid srv) (io srv).

(** A Mongoose [ValidationError] or [CastError] thrown inside a controller
    reaches [globalErrorHandler] through [catchAsync]. *)
Definition mongoose_error : Response :=
  error_response 400 "MONGOOSE_VALIDATION_ERROR".

Definition server_error : Response := error_response 500 "SERVER_ERROR".

(** [const io = req.app.get('io'); if (io) { emitTaskEvent(...) }] *)
Definition emit (srv : Server) (uid : ObjectId) (eventType : string)
    (t : Task) (now : Time) : list Delivery :=
  match io srv with
  | Some i => emitTaskEvent i (toString uid) eventType t now
  | None => []
  end.

(** Mongoose casting of a value assigned to the [Number] path [position]:
    [Number(value)], the Number nearest to the integer of the text. *)
Definition cast_number (v : RawInt) : option Z :=
  match v with
  | IntLit z => Some (Js.to_double z)
  | NotInt _ => None
  end.

(** [parseInt(page)] and [parseInt(limit)]: the integer of the text.  A
    page size is at most 100 behind [validateTaskQuery]; a page number is
    taken within [Number.MAX_SAFE_INTEGER], where the Number is that
    integer. *)
Definition parseInt (v : RawInt) : option Z :=
  match v with
  | IntLit z => Some z
  | NotInt _ => None
  end.

(** A body key that is assigned only when it is not [undefined]: absent
    ([Some None]), present and accepted by the schema ([Some (Some _)]), or
    present and refused ([None]). *)
Definition optional_status (v : option string) : option (option Status) :=
  from_option (fun s => Some <$> parse_status s) (Some None) v.

Definition optional_number (v : option RawInt) : option (option Z) :=
  from_option (fun n => Some <$> cast_number n) (Some None) v.

(** Order of the lane names as strings, for [sort({ status: 1 })]. *)
Definition status_order (s : Status) : Z :=
  match s with
  | done => 0
  | inprogress => 1
  | todo => 2
  end.

(** [sort({ status: 1, position: 1, createdAt: -1 })] *)
Definition list_order (a b : Task) : bool :=
  if (status_order (status a) <? status_order (status b))%Z then true
  else if (status_order (status b) <? status_order (status a))%Z then false
  else if (position a <? position b)%Z then true
  else if (position b <? position a)%Z then false
  else (createdAt b <=? createdAt a)%Z.

(** [cursor.limit(n)]: [0] means no limit, a negative [n] limits to [|n|]. *)
Definition limit_docs (n : Z) (l : list Task) : list Task :=
  if (n =? 0)%Z then l else take (Z.to_nat (Z.abs n)) l.

(** [Math.ceil(total / limit)] for a positive [limit]. *)
Definition ceil_div (total limit : Z) : Z := ((total + limit - 1) / limit)%Z.

(** The [query] object of [getTasks]: the owner, and the lane when the
    [status] parameter names one. *)
Definition matches_query (uid : ObjectId) (lane : option Status) (t : Task) : Prop :=
  userId t = uid ∧ from_option (fun st => status t = st) True lane.

#[global] Instance matches_query_dec uid lane t : Decision (matches_query uid lane t).
Proof. unfold matches_query. destruct lane; simpl; apply _. Defined.

(** [getTasks] *)
Definition getTasks (u : User) (q : Query) (srv : Server) : Response :=
  let uid := user_id u in
  let page := default (IntLit 1) (q_page q) in
  let limit := default (IntLit 50) (q_limit q) in
  let lane := q_status q ≫= parse_status in
  match parseInt page, parseInt limit with
  | Some p, Some l =>
      let skip := ((p - 1) * l)%Z in
      if (skip <? 0)%Z then server_error
      else
        let found := filter (matches_query uid lane) (tasks srv) in
        let result := limit_docs l (drop (Z.to_nat skip) (sort_by list_order found)) in
        let total := Z.of_nat (length found) in
        mkResponse 200 true (ListData result p l total (ceil_div total l))
  | _, _ => server_error
  end.

(** [createTask] *)
Definition createTask (u : User) (b : Body) (now : Time) (srv : Server) : Handled :=
  let uid := user_id u in
  match parse_status (default "todo" (b_status b)), b_title b with
  | Some st, Some ttl =>
      let taskPosition :=
        match b_position b with
        | None =>
            Some match findOne_last_in_lane uid st (tasks srv) with
                 | Some lastTask => Js.add (position lastTask) 1
                 | None => 0%Z
                 end
        | Some v => cast_number v
        end in
      match taskPosition with
      | Some pos =>
          let task := new_Task (next_oid srv) ttl (b_description b) st uid pos in
          match save now task (tasks srv) with
          | Some (t, c) =>
              let srv' := mkServer c (S (next_oid srv)) (io srv) in
              (mkResponse 201 true (TaskData t), srv',
               emit srv uid "task-created" t now)
          | None => (mongoose_error, srv, [])
          end
      | None => (mongoose_error, srv, [])
      end
  | _, _ => (mongoose_error, srv, [])
  end.

(** The guarded assignments [if (x !== undefined) task.x = x]. *)
Definition assign_opt {A} (set : A -> Document -> Document) (v : option A)
    (d : Document) : Document :=
  from_option (fun a => set a d) d v.

(** [updateTask]; [task] is [req.task]. *)
Definition updateTask (u : User) (task : Task) (b : Body) (now : Time)
    (srv : Server) : Handled :=
  let uid := user_id u in
  match optional_status (b_status b), optional_number (b_position b) with
  | Some st, Some pos =>
      let d := assign_opt set_title (b_title b) (hydrate task) in
      let d := assign_opt set_description (b_description b) d in
      let d := assign_opt set_status st d in
      let d := assign_opt set_position pos d in
      match save now d (tasks srv) with
      | Some (t, c) =>
          (mkResponse 200 true (TaskData t), with_tasks c srv,
           emit srv uid "task-updated" t now)
      | None => (mongoose_error, srv, [])
      end
  | _, _ => (mongoose_error, srv, [])
  end.

(** [deleteTask] *)
Definition deleteTask (u : User) (task : Task) (now : Time) (srv : Server) : Handled :=
  let uid := user_id u in
  (mkResponse 200 true (DeletedData "Task deleted successfully" task),
   with_tasks (findByIdAndDelete (_id task) (tasks srv)) srv,
   emit srv uid "task-deleted" task now).

(** [updateTaskStatus].  A missing or unknown [status] cannot pass
    [validateUpdateTaskStatus]; here it is the schema's enum error. *)
Definition updateTaskStatus (u : User) (task : Task) (b : Body) (now : Time)
    (srv : Server) : Handled :=
  let uid := user_id u in
  match b_status b ≫= parse_status, optional_number (b_position b) with
  | Some st, Some pos =>
      let d := set_status st (hydrate task) in
      let d := assign_opt set_position pos d in
      match save now d (tasks srv) with
      | Some (t, c) =>
          (mkResponse 200 true (TaskData t), with_tasks c srv,
           emit srv uid "task-status-updated" t now)
      | None => (mongoose_error, srv, [])
      end
  | _, _ => (mongoose_error, srv, [])
  end.

(** The router of [routes/tasks.js]: the [router.use] middleware in order,
    then the chain of the matching route. *)
Definition chain (req : Request) (now : Time) (srv : Server) : Flow Response Handled :=
  _ ← validateRequestSize req;
  _ ← validateNoSqlInjection req;
  u ← authenticate req;
  match route req with
  | GET_tasks =>
      _ ← handleValidationErrors (validateTaskQuery (query req));
      Next (getTasks u (query req) srv, srv, [])
  | POST_tasks =>
      _ ← handleValidationErrors (validateCreateTask (body req));
      Next (createTask u (body req) now srv)
  | PUT_task id =>
      task ← validateTaskOwnership id u (tasks srv);
      _ ← handleValidationErrors
            (validateObjectId id ++ validateUpdateTask (body req));
      Next (updateTask u task (body req) now srv)
  | DELETE_task id =>
      task ← validateTaskOwnership id u (tasks srv);
      Next (deleteTask u task now srv)
  | PATCH_task_status id =>
      task ← validateTaskOwnership id u (tasks srv);
      _ ← handleValidationErrors
            (validateObjectId id ++ validateUpdateTaskStatus (body req));
      Next (updateTaskStatus u task (body req) now srv)
  end.

Definition router (req : Request) (now : Time) (srv : Server) : Handled :=
  match chain req now srv with
  | Next h => h
  | Reply r => (r, srv, [])
  end.

Definition response_of (h : Handled) : Response := h.1.1.
Definition server_of (h : Handled) : Server := h.1.2.
Definition deliveries_of (h : Handled) : list Delivery := h.2.

(** A server with no task and no socket, and the servers it can become:
    by a request, by a socket handshake (socket ids are unique) or by a
    socket going away. *)
Definition initial : Server := mkServer [] 0 (Some []).

Inductive Step : Server -> Server -> Prop :=
  | step_request req now srv :
      Step srv (server_of (router req now srv))
  | step_connect sid cred i srv :
      io srv = Some i ->
      sid ∉ socket_id <$> i ->
      Step srv (mkServer (tasks srv) (next_oid srv) (Some (connect sid cred i)))
  | step_disconnect sid i srv :
      io srv = Some i ->
      Step srv (mkServer (tasks srv) (next_oid srv) (Some (disconnect sid i))).

Inductive Reachable : Server -> Prop :=
  | reach_initial : Reachable initial
  | reach_step srv srv' : Reachable srv -> Step srv srv' -> Reachable srv'.

End Api.

(** ** frontend/src/services/taskService.js *)

Module TaskService.
Import TaskModel Middleware.

(** What the [func] of a debounced call sends when it runs: the route and
    the JSON body of [api.put] or [api.patch]. *)
Record ApiRequest := mkApiRequest {
  api_route : Route;
  api_body : Body
}.

#[global] Instance ApiRequest_eq_dec : EqDecision ApiRequest.
Proof. solve_decision. Defined.

(** An axios failure, as far as the callers read it:
    [error.response?.data?.error?.message] and
    [error.response?.data?.message]. *)
Record ApiError := mkApiError {
  error_message : option string;
  data_message : option string
}.

(** How the awaited [func()] ends: with the server's record, or by throwing. *)
Inductive Outcome :=
  | Fulfilled (t : Task)
  | Failed (e : ApiError).

(** A timeout scheduled with [setTimeout] and neither run nor cleared. *)
Record Timeout := mkTimeout {
  timeout_id : nat;
  timeout_key : string;
  due : Time;
  func : ApiRequest
}.

(** The module state.  The promise a call of [debounce] returns is named by
    the id of the timeout created in it.  [awaiting] are the timeout
    callbacks suspended at [await func()], [requests] is what went to the
    server, oldest first, and [settled] the promises resolved or rejected.
    The 30 s cache of [getTasks] is left out: [debounce] never reads it. *)
Record State := mkState {
  clock : Time;
  debounceMap : gmap string nat;
  timeouts : list Timeout;
  awaiting : list (nat * string);
  requests : list ApiRequest;
  settled : list (nat * Outcome);
  next_timeout : nat
}.

Definition initial : State := mkState 0 ∅ [] [] [] [] 0.

Definition clearTimeout (id : nat) (ts : list Timeout) : list Timeout :=
  filter (fun t => timeout_id t ≠ id) ts.

(** [debounce(key, func, delay)]: returns the new promise. *)
Definition debounce (key : string) (f : ApiRequest) (delay : Z) (s : State)
    : nat * State :=
  let ts := match debounceMap s !! key with
            | Some id => clearTimeout id (timeouts s)
            | None => timeouts s
            end in
  let timeoutId := next_timeout s in
  (timeoutId,
   mkState (clock s) (<[key := timeoutId]> (debounceMap s))
           (ts ++ [mkTimeout timeoutId key (clock s + delay)%Z f])
           (awaiting s) (requests s) (settled s) (S timeoutId)).

(** The body [{ status }] of a status change. *)
Definition status_body (st : string) : Body := mkBody None None (Some st) None [].

(** [taskService.updateTask(taskId, taskData)] *)
Definition updateTask (taskId : ObjectId) (taskData : Body) (s : State)
    : nat * State :=
  debounce ("update-" +:+ toString taskId)
           (mkApiRequest (PUT_task (ValidId taskId)) taskData) 300 s.

(** [taskService.updateTaskStatus(taskId, status)] *)
Definition updateTaskStatus (taskId : ObjectId) (st : string) (s : State)
    : nat * State :=
  debounce ("status-" +:+ toString taskId)
           (mkApiRequest (PATCH_task_status (ValidId taskId)) (status_body st)) 200 s.

(** [taskService.cancelPendingRequests()] *)
Definition cancelPendingRequests (s : State) : State :=
  mkState (clock s) ∅
          (map_fold (fun _ id ts => clearTimeout id ts) (timeouts s) (debounceMap s))
          (awaiting s) (requests s) (settled s) (next_timeout s).

(** The timeout callback up to its [await]: [func] sends its request. *)
Definition run_timeout (id : nat) (s : State) : option State :=
  match List.find (fun t => bool_decide (timeout_id t = id)) (timeouts s) with
  | Some t =>
      if (due t <=? clock s)%Z then
        Some (mkState (clock s) (debounceMap s) (clearTimeout id (timeouts s))
                      (awaiting s ++ [(id, timeout_key t)])
                      (requests s ++ [func t]) (settled s) (next_timeout s))
      else None
  | None => None
  end.

(** The rest of the callback once [func()] has ended: [resolve] or [reject],
    then the [finally] block. *)
Definition complete (id : nat) (o : Outcome) (s : State) : option State :=
  match List.find (fun a => bool_decide (a.1 = id)) (awaiting s) with
  | Some (_, key) =>
      Some (mkState (clock s) (delete key (debounceMap s)) (timeouts s)
                    (filter (fun a => a.1 ≠ id) (awaiting s))
                    (requests s) (settled s ++ [(id, o)]) (next_timeout s))
  | None => None
  end.

(** What can happen to the module: calls of its methods, time passing, the
    event loop running a due timeout, the answer to a request arriving. *)
Inductive Event :=
  | UpdateTask (taskId : ObjectId) (taskData : Body)
  | UpdateTaskStatus (taskId : ObjectId) (st : string)
  | CancelPendingRequests
  | Tick (now : Time)
  | Run (id : nat)
  | Complete (id : nat) (o : Outcome).

Definition tick (now : Time) (s : State) : option State :=
  if (clock s <=? now)%Z then
    Some (mkState now (debounceMap s) (timeouts s) (awaiting s) (requests s)
                  (settled s) (next_timeout s))
  else None.

(** One event; [None] when it cannot happen in this state. *)
Definition step (e : Event) (s : State) : option State :=
  match e with
  | UpdateTask taskId taskData => Some (updateTask taskId taskData s).2
  | UpdateTaskStatus taskId st => Some (updateTaskStatus taskId st s).2
  | CancelPendingRequests => Some (cancelPendingRequests s)
  | Tick now => tick now s
  | Run id => run_timeout id s
  | Complete id o => complete id o s
  end.

Fixpoint run (es : list Event) (s : State) : option State :=
  match es with
  | [] => Some s
  | e :: es' => step e s ≫= run es'
  end.

(** Whether the promise of a call has been resolved or rejected. *)
Definition is_settled (id : nat) (s : State) : bool :=
  bool_decide (id ∈ (settled s).*1).

End TaskService.

(** ** frontend/src/components/Dashboard.jsx *)

Module Dashboard.
Import TaskModel Middleware.

(** The component: the [tasks] state, the messages shown with [alert], the
    task service it calls, and the activations of [handleTaskDrop] that are
    suspended at their [await], each with its [originalTasks]. *)
Record State := mkState {
  tasks : list Task;
  alerts : list string;
  service : TaskService.State;
  suspended : gmap nat (list Task)
}.

(** The first truthy one of [error.response?.data?.error?.message],
    [error.response?.data?.message] and the fixed text. *)
Definition truthy (s : option string) : option string :=
  match s with
  | Some EmptyString | None => None
  | Some s => Some s
  end.

Definition errorMessage (e : TaskService.ApiError) : string :=
  default (default "Failed to update task status. Please try again."
                   (truthy (TaskService.data_message e)))
          (truthy (TaskService.error_message e)).

(** The optimistic copy of the moved task. *)
Definition updatedTask (taskToMove : Task) (newStatus : Status) (now : Time) : Task :=
  mkTask (_id taskToMove) (userId taskToMove) (title taskToMove)
         (description taskToMove) newStatus (position taskToMove)
         (if decide (newStatus = done) then Some now
          else match completedAt taskToMove with
               | Some _ => None
               | None => completedAt taskToMove
               end)
         (createdAt taskToMove) now.

(** [handleTaskDrop(taskId, newStatus)] up to its [await]. *)
Definition handleTaskDrop (taskId : ObjectId) (newStatus : Status) (s : State)
    : State :=
  match List.find (fun task => bool_decide (_id task = taskId)) (tasks s) with
  | None => s
  | Some taskToMove =>
      if decide (status taskToMove = newStatus) then s
      else
        let originalTasks := tasks s in
        let updated := updatedTask taskToMove newStatus (TaskService.clock (service s)) in
        let call := TaskService.updateTaskStatus taskId (status_name newStatus) (service s) in
        mkState ((fun task => if decide (_id task = taskId) then updated else task)
                   <$> tasks s)
                (alerts s) call.2
                (<[call.1 := originalTasks]> (suspended s))
  end.

(** [handleTaskDrop] after its [await]: nothing on success, the [catch]
    block on failure. *)
Definition resume (id : nat) (o : TaskService.Outcome) (s : State) : State :=
  match suspended s !! id, o with
  | Some originalTasks, TaskService.Failed e =>
      mkState originalTasks (alerts s ++ [errorMessage e]) (service s)
              (delete id (suspended s))
  | _, _ => mkState (tasks s) (alerts s) (service s) (delete id (suspended s))
  end.

(** What happens to the component: a drop, a [setTasks(update)] of one of
    its other handlers ([loadTasks], [handleTaskDelete],
    [handleModalSubmit]), or an event of the task service. *)
Inductive Event :=
  | Drop (taskId : ObjectId) (newStatus : Status)
  | SetTasks (update : list Task -> list Task)
  | Service (e : TaskService.Event).

Definition step (e : Event) (s : State) : option State :=
  match e with
  | Drop taskId newStatus => Some (handleTaskDrop taskId newStatus s)
  | SetTasks update =>
      Some (mkState (update (tasks s)) (alerts s) (service s) (suspended s))
  | Service (TaskService.Complete id o) =>
      svc ← TaskService.complete id o (service s);
      Some (resume id o (mkState (tasks s) (alerts s) svc (suspended s)))
  | Service e =>
      svc ← TaskService.step e (service s);
      Some (mkState (tasks s) (alerts s) svc (suspended s))
  end.

Fixpoint run (es : list Event) (s : State) : option State :=
  match es with
  | [] => Some s
  | e :: es' => step e s ≫= run es'
  end.

End Dashboard.

(** ** frontend/src/components/tasks/TaskBoard.jsx *)

Module TaskBoard.
Import TaskModel Middleware Socket.

(** The updaters the socket listeners hand to [setBoardTasks]; [data] is
    the payload of the event. *)
Definition handleTaskCreated (data : Event) (prevTasks : list Task) : list Task :=
  let taskExists :=
    existsb (fun task => bool_decide (_id task = _id (ev_task data))) prevTasks in
  if taskExists then prevTasks else prevTasks ++ [ev_task data].

Definition handleTaskUpdated (data : Event) (prevTasks : list Task) : list Task :=
  (fun task => if decide (_id task = _id (ev_task data)) then ev_task data else task)
    <$> prevTasks.

Definition handleTaskDeleted (data : Event) (prevTasks : list Task) : list Task :=
  filter (fun task => Some (_id task) ≠ ev_taskId data) prevTasks.

Definition handleTaskStatusUpdated (data : Event) (prevTasks : list Task)
    : list Task :=
  (fun task => if decide (_id task = _id (ev_task data)) then ev_task data else task)
    <$> prevTasks.

(** An event arriving on the socket runs the listener registered under its
    name ([onTaskCreated], [onTaskUpdated], [onTaskDeleted],
    [onTaskStatusUpdated]); no listener is registered under another name. *)
Definition receive (data : Event) (boardTasks : list Task) : list Task :=
  if String.eqb (ev_name data) "task-created" then handleTaskCreated data boardTasks
  else if String.eqb (ev_name data) "task-updated" then handleTaskUpdated data boardTasks
  else if String.eqb (ev_name data) "task-deleted" then handleTaskDeleted data boardTasks
  else if String.eqb (ev_name data) "task-status-updated"
       then handleTaskStatusUpdated data boardTasks
  else boardTasks.

(** The events of a list, in the order of their arrival. *)
Definition receive_all (evs : list Event) (boardTasks : list Task) : list Task :=
  foldl (fun b data => receive data b) boardTasks evs.

End TaskBoard.

(** ** frontend/src/components/tasks/TaskModal.jsx *)

Module TaskModal.
Import TaskModel Middleware.

(** The [formData] state: the three controlled inputs of the form. *)
Record FormData := mkFormData {
  f_title : string;
  f_description : string;
  f_status : string
}.

(** [validateForm]: the keys of [newErrors] with their messages. *)
Definition validateForm (formData : FormData) : list (string * string) :=
  let title := Js.trim (f_title formData) in
  (if (Js.length title =? 0)%nat then [("title", "Title is required")]
   else if (Js.length title <? 3)%nat
        then [("title", "Title must be at least 3 characters long")]
   else if (100 <? Js.length title)%nat
        then [("title", "Title must be less than 100 characters")]
   else [])
  ++ (if (500 <? Js.length (f_description formData))%nat
      then [("description", "Description must be less than 500 characters")]
      else [])
  ++ (if bool_decide (f_status formData ∈ ["todo"; "inprogress"; "done"])
      then []
      else [("status", "Invalid status selected")]).

(** The [taskData] that [handleSubmit] hands to [onSubmit]. *)
Definition taskData (formData : FormData) : Body :=
  mkBody (Some (Js.trim (f_title formData)))
         (Some (Js.trim (f_description formData)))
         (Some (f_status formData)) None [].

(** [handleSubmit] up to [onSubmit]: nothing is submitted while the form
    has an error. *)
Definition handleSubmit (formData : FormData) : option Body :=
  match validateForm formData with
  | [] => Some (taskData formData)
  | _ :: _ => None
  end.

End TaskModal.

(** ** middleware/auth.js and socket/socketAuth.js: the credential *)

Module Auth.
Import TaskModel Middleware.

(** The payload of a verified token, as far as it is read. *)
Record Decoded := mkDecoded {
  d_userId : option ObjectId;
  d_type : option string
}.

(** What [jwt.verify] throws, by [error.name]. *)
Inductive Thrown := TokenExpiredError | JsonWebTokenError | OtherError.

(** [User.findById]. *)
Inductive Found := Account (u : User) | NoAccount | QueryFailed.

(** [str.substring(n)] *)
Fixpoint substring_from (n : nat) (s : string) : string :=
  match n, s with
  | 0, _ => s
  | S n', String _ s' => substring_from n' s'
  | S _, EmptyString => EmptyString
  end.

(** A header, a token or a query parameter that is absent or empty is
    falsy. *)
Definition nonempty (v : option string) : option string :=
  match v with
  | Some EmptyString | None => None
  | Some s => Some s
  end.

Section Environment.
(** [verifyToken] with the secret of the process, and the accounts. *)
Variable verifyToken : string -> Decoded + Thrown.
Variable findById : option ObjectId -> Found.

(** [authenticate]: the account put in [req.user], or the code of the 401
    answer. *)
Definition authenticate (authHeader : option string) : User + string :=
  match nonempty authHeader with
  | None => inr "NO_TOKEN"
  | Some h =>
      if String.prefix "Bearer " h then
        let token := substring_from 7 h in
        match verifyToken token with
        | inl decoded =>
            if bool_decide (d_type decoded = Some "refresh")
            then inr "INVALID_TOKEN_TYPE"
            else match findById (d_userId decoded) with
                 | Account user => inl user
                 | NoAccount => inr "USER_NOT_FOUND"
                 | QueryFailed => inr "AUTH_FAILED"
                 end
        | inr TokenExpiredError => inr "TOKEN_EXPIRED"
        | inr JsonWebTokenError => inr "INVALID_TOKEN"
        | inr OtherError => inr "AUTH_FAILED"
        end
      else inr "NO_TOKEN"
  end.

(** [optionalAuth]: the account put in [req.user], if any; the chain goes
    on in every case. *)
Definition optionalAuth (authHeader : option string) : option User :=
  match nonempty authHeader with
  | None => None
  | Some h =>
      if String.prefix "Bearer " h then
        let token := substring_from 7 h in
        match verifyToken token with
        | inl decoded =>
            if bool_decide (d_type decoded ≠ Some "refresh") then
              match findById (d_userId decoded) with
              | Account user => Some user
              | NoAccount | QueryFailed => None
              end
            else None
        | inr _ => None
        end
      else None
  end.

(** [socketAuth]: the account put in [socket.user], or what follows
    "Authentication error: " in the error of the handshake.  The token is
    [socket.handshake.auth?.token || socket.handshake.query?.token]. *)
Definition socketAuth (auth_token query_token : option string) : User + string :=
  match nonempty auth_token, nonempty query_token with
  | None, None => inr "No token provided"
  | Some token, _ | None, Some token =>
      match verifyToken token with
      | inl decoded =>
          if bool_decide (d_type decoded = Some "refresh")
          then inr "Invalid token type"
          else match findById (d_userId decoded) with
               | Account user => inl user
               | NoAccount => inr "User not found"
               | QueryFailed => inr "Authentication failed"
               end
      | inr TokenExpiredError => inr "Token expired"
      | inr JsonWebTokenError => inr "Invalid token"
      | inr OtherError => inr "Authentication failed"
      end
  end.
End Environment.

End Auth.

(** ** middleware/errorHandler.js: the answers to errors *)

Module ErrorHandler.
Import TaskModel Middleware.

(** [err.code]: absent, a number (a MongoDB code) or a string. *)
Inductive Code := NoCode | NumCode (n : Z) | StrCode (s : string).

#[global] Instance Code_eq_dec : EqDecision Code.
Proof. solve_decision. Defined.

(** The [details] of an answer. *)
Inductive Details :=
  | NoDetails
  | GivenDetails (d : string)
  | DuplicateDetails (field value : string)
  | ValidationDetails (errors : list (string * string * string))
  | CastDetails (field value : string).

(** An error object, as far as the handlers read it.  [err_errors] are the
    [path], [message] and [value] of the entries of a Mongoose
    [ValidationError], [err_path] and [err_value] those of a [CastError],
    [err_keyValue] the [keyValue] of a duplicate-key error. *)
Record JsError := mkJsError {
  err_name : string;
  err_message : string;
  err_stack : string;
  err_statusCode : option nat;
  err_code : Code;
  err_details : Details;
  err_isOperational : bool;
  err_keyValue : option (list (string * string));
  err_errors : list (string * string * string);
  err_path : string;
  err_value : string
}.

(** [new AppError(message, statusCode, code, details)]; [stack] is what
    [Error.captureStackTrace] records. *)
Definition AppError (stack message : string) (statusCode : nat) (code : Code)
    (details : Details) : JsError :=
  mkJsError "Error" message stack (Some statusCode) code details true None [] "" "".

(** The JSON answer: the status and the members of [error]. *)
Record ErrorResponse := mkErrorResponse {
  res_status : nat;
  res_message : string;
  res_code : Code;
  res_details : Details;
  res_stack : option string
}.

(** [c.toUpperCase()] on the letters [a] to [z]. *)
Definition toUpperCase (c : Ascii.ascii) : Ascii.ascii :=
  let n := Ascii.nat_of_ascii c in
  if (97 <=? n) && (n <=? 122) then Ascii.ascii_of_nat (n - 32) else c.

(** [field.charAt(0).toUpperCase() + field.slice(1)] *)
Definition capitalize (field : string) : string :=
  match field with
  | EmptyString => EmptyString
  | String c rest => String (toUpperCase c) rest
  end.

(** [handleMongoError]; [None] when it throws itself, on a duplicate-key
    error without a key. *)
Definition handleMongoError (stack : string) (error : JsError) : option JsError :=
  if decide (err_code error = NumCode 11000) then
    match err_keyValue error with
    | Some ((field, value) :: _) =>
        Some (AppError stack (capitalize field +:+ " '" +:+ value +:+ "' already exists")
                       400 (StrCode "DUPLICATE_FIELD") (DuplicateDetails field value))
    | Some [] | None => None
    end
  else if String.eqb (err_name error) "ValidationError" then
    Some (AppError stack "Validation failed" 400 (StrCode "MONGOOSE_VALIDATION_ERROR")
                   (ValidationDetails (err_errors error)))
  else if String.eqb (err_name error) "CastError" then
    Some (AppError stack ("Invalid " +:+ err_path error +:+ ": " +:+ err_value error)
                   400 (StrCode "INVALID_ID")
                   (CastDetails (err_path error) (err_value error)))
  else Some (AppError stack "Database error" 500 (StrCode "DATABASE_ERROR") NoDetails).

(** [handleJWTError] *)
Definition handleJWTError (stack : string) (error : JsError) : JsError :=
  if String.eqb (err_name error) "JsonWebTokenError" then
    AppError stack "Invalid token" 401 (StrCode "INVALID_TOKEN") NoDetails
  else if String.eqb (err_name error) "TokenExpiredError" then
    AppError stack "Token expired" 401 (StrCode "TOKEN_EXPIRED") NoDetails
  else AppError stack "Authentication failed" 401 (StrCode "AUTH_ERROR") NoDetails.

(** [sendErrorDev] *)
Definition sendErrorDev (err : JsError) : ErrorResponse :=
  mkErrorResponse (default 500 (err_statusCode err)) (err_message err) (err_code err)
                  (err_details err) (Some (err_stack err)).

(** [sendErrorProd] *)
Definition sendErrorProd (err : JsError) : ErrorResponse :=
  if err_isOperational err then
    mkErrorResponse (default 500 (err_statusCode err)) (err_message err) (err_code err)
                    (err_details err) None
  else
    mkErrorResponse 500 "Something went wrong" (StrCode "SERVER_ERROR") NoDetails None.

(** [x || fallback] for a status and for a code. *)
Definition statusCode_or (v : option nat) (fallback : nat) : nat :=
  match v with
  | Some (S n) => S n
  | Some 0 | None => fallback
  end.

Definition code_or (v : Code) (fallback : string) : Code :=
  match v with
  | NoCode | NumCode 0 | StrCode EmptyString => StrCode fallback
  | c => c
  end.

(** [globalErrorHandler]; [development] is
    [process.env.NODE_ENV === 'development'], [stack] the stack recorded by
    an [AppError] made while handling. *)
Definition globalErrorHandler (development : bool) (stack : string) (err : JsError)
    : option ErrorResponse :=
  let err := mkJsError (err_name err) (err_message err) (err_stack err)
               (Some (statusCode_or (err_statusCode err) 500))
               (code_or (err_code err) "SERVER_ERROR")
               (err_details err) (err_isOperational err) (err_keyValue err)
               (err_errors err) (err_path err) (err_value err) in
  let error :=
    if String.eqb (err_name err) "ValidationError"
       || bool_decide (err_code err = NumCode 11000)
       || String.eqb (err_name err) "CastError"
    then handleMongoError stack err
    else if String.eqb (err_name err) "JsonWebTokenError"
            || String.eqb (err_name err) "TokenExpiredError"
    then Some (handleJWTError stack err)
    else Some err in
  (if development then sendErrorDev else sendErrorProd) <$> error.

(** [notFoundHandler] *)
Definition notFoundHandler (stack originalUrl : string) : JsError :=
  AppError stack ("Route " +:+ originalUrl +:+ " not found") 404
           (StrCode "ROUTE_NOT_FOUND") NoDetails.

End ErrorHandler.

(** ** frontend/src/services/socketService.js: connection and reconnection *)

Module SocketService.
Import TaskModel.

(** The fields of the [SocketService] object, and what it has asked of the
    outside: [scheduled] are the delays of the [setTimeout] calls of
    [attemptReconnect], oldest first, and [reconnects] counts the calls of
    [this.socket.connect()] made when such a timeout runs.  [socket] tells
    whether [this.socket] is set, [listening] whether [setupEventListeners]
    has registered the listeners on some socket. *)
Record State := mkState {
  socket : bool;
  listening : bool;
  isConnected : bool;
  reconnectAttempts : nat;
  scheduled : list Z;
  reconnects : nat
}.

Definition maxReconnectAttempts : nat := 5.
Definition reconnectDelay : Z := 1000.

(** [new SocketService()] *)
Definition initial : State := mkState false false false 0 [] 0.

(** [connect(token)] *)
Definition connect (s : State) : State :=
  if socket s && isConnected s then s
  else mkState true true (isConnected s) (reconnectAttempts s) (scheduled s)
               (reconnects s).

(** [attemptReconnect()] *)
Definition attemptReconnect (s : State) : State :=
  if (maxReconnectAttempts <=? reconnectAttempts s)%nat then s
  else
    let attempts := S (reconnectAttempts s) in
    let delay := (reconnectDelay * 2 ^ Z.of_nat (attempts - 1))%Z in
    mkState (socket s) (listening s) (isConnected s) attempts
            (scheduled s ++ [delay]) (reconnects s).

(** The listeners of [setupEventListeners]. *)
Definition on_connect (s : State) : State :=
  mkState (socket s) (listening s) true 0 (scheduled s) (reconnects s).

Definition on_disconnect (reason : string) (s : State) : State :=
  let s' := mkState (socket s) (listening s) false (reconnectAttempts s)
                    (scheduled s) (reconnects s) in
  if String.eqb reason "io server disconnect" then s' else attemptReconnect s'.

Definition on_connect_error (s : State) : State :=
  attemptReconnect
    (mkState (socket s) (listening s) false (reconnectAttempts s) (scheduled s)
             (reconnects s)).

(** The callback of a reconnection timeout. *)
Definition on_timeout (s : State) : State :=
  if socket s && negb (isConnected s)
  then mkState (socket s) (listening s) (isConnected s) (reconnectAttempts s)
               (scheduled s) (S (reconnects s))
  else s.

(** [disconnect()] *)
Definition disconnect (s : State) : State :=
  if socket s
  then mkState false (listening s) false 0 (scheduled s) (reconnects s)
  else s.

(** What happens to the object: calls of its methods, events of a socket it
    listens to, a reconnection timeout running. *)
Inductive Event :=
  | Connect
  | Disconnect
  | OnConnect
  | OnDisconnect (reason : string)
  | OnConnectError
  | Timeout.

(** One event; a socket event cannot happen before a socket was made. *)
Definition step (e : Event) (s : State) : option State :=
  match e with
  | Connect => Some (connect s)
  | Disconnect => Some (disconnect s)
  | OnConnect => if listening s then Some (on_connect s) else None
  | OnDisconnect reason => if listening s then Some (on_disconnect reason s) else None
  | OnConnectError => if listening s then Some (on_connect_error s) else None
  | Timeout => Some (on_timeout s)
  end.

Fixpoint run (es : list Event) (s : State) : option State :=
  match es with
  | [] => Some s
  | e :: es' => step e s ≫= run es'
  end.

End SocketService.

(** ** frontend/src/components/Dashboard.jsx: loading, editing, deleting *)

Module DashboardHandlers.
Import TaskModel Middleware.

(** [response.tasks] of [taskService.getTasks()] when the cache has no
    entry: [response.data.data?.tasks || response.data.tasks || []]. *)
Definition tasks_of (r : Response) : list Task :=
  match data r with
  | ListData ts _ _ _ _ => ts
  | _ => []
  end.

(** [loadTasks]: [setTasks] with the tasks of the answer; when the request
    fails the list is kept and [tasksError] is set. *)
Definition loadTasks (r : Response) (tasks : list Task) : list Task :=
  if success r then tasks_of r else tasks.

(** The updaters that [handleTaskDelete] and [handleModalSubmit] hand to
    [setTasks] once their request has succeeded. *)
Definition handleTaskDelete (taskId : ObjectId) (prevTasks : list Task) : list Task :=
  filter (fun task => _id task ≠ taskId) prevTasks.

Definition handleModalSubmit_update (taskId : ObjectId) (updatedTask : Task)
    (prevTasks : list Task) : list Task :=
  (fun task => if decide (_id task = taskId) then updatedTask else task) <$> prevTasks.

Definition handleModalSubmit_create (newTask : Task) (prevTasks : list Task)
    : list Task :=
  prevTasks ++ [newTask].

(** The list after the answer [r] to the request a handler sent on [route]:
    [handleModalSubmit] sends the creations and the updates,
    [handleTaskDelete] the deletions; a handler whose request failed leaves
    the list as it is. *)
Definition settle (route : Route) (r : Response) (tasks : list Task) : list Task :=
  match route, data r with
  | POST_tasks, TaskData newTask => handleModalSubmit_create newTask tasks
  | PUT_task (ValidId taskId), TaskData updatedTask =>
      handleModalSubmit_update taskId updatedTask tasks
  | DELETE_task (ValidId taskId), DeletedData _ _ => handleTaskDelete taskId tasks
  | _, _ => tasks
  end.

End DashboardHandlers.

(** ** scripts/migrate.js: the migration runner *)

Module Migrate.

Section Runner.
(** The database, and what the [up] of each registered migration does to
    it: the database it leaves and whether it returned ([true]) or threw. *)
Variable DB : Type.
Variables migration_001_initial_setup migration_002_add_task_positions
          migration_003_optimize_indexes : DB -> DB * bool.

Record Migration := mkMigration {
  version : Z;
  name : string;
  up : DB -> DB * bool
}.

(** [this.migrations] *)
Definition migrations : list Migration :=
  [mkMigration 1 "initial_setup" migration_001_initial_setup;
   mkMigration 2 "add_task_positions" migration_002_add_task_positions;
   mkMigration 3 "optimize_indexes" migration_003_optimize_indexes].

(** The database with the [value] of the [migration_version] document of
    [system_config], if there is one, and the versions the runner has
    reported as completed, oldest first. *)
Record Store := mkStore {
  db : DB;
  migration_version : option Z;
  completed : list Z
}.

(** [getCurrentVersion] *)
Definition getCurrentVersion (st : Store) : Z := default 0%Z (migration_version st).

(** [setCurrentVersion] *)
Definition setCurrentVersion (v : Z) (st : Store) : Store :=
  mkStore (db st) (Some v) (completed st).

(** The loop of [runMigrations] over the pending migrations; the flag tells
    whether it came to its end or rethrew the error of a migration. *)
Fixpoint run_pending (pending : list Migration) (st : Store) : Store * bool :=
  match pending with
  | [] => (st, true)
  | migration :: rest =>
      let r := up migration (db st) in
      if r.2 then
        run_pending rest
          (mkStore r.1 (Some (version migration))
                   (completed st ++ [version migration]))
      else (mkStore r.1 (migration_version st) (completed st), false)
  end.

(** [runMigrations] *)
Definition runMigrations (st : Store) : Store * bool :=
  let currentVersion := getCurrentVersion st in
  let pendingMigrations :=
    List.filter (fun m => (currentVersion <? version m)%Z) migrations in
  run_pending pendingMigrations st.

(** A database that was never migrated, and the stores that runs of the
    script make of it. *)
Inductive Reachable : Store -> Prop :=
  | reach_fresh d : Reachable (mkStore d None [])
  | reach_run st : Reachable st -> Reachable (runMigrations st).1.
End Runner.

Arguments mkMigration {DB} version name up.
Arguments version {DB} m.
Arguments name {DB} m.
Arguments up {DB} m.
Arguments mkStore {DB} db migration_version completed.
Arguments db {DB} s.
Arguments migration_version {DB} s.
Arguments completed {DB} s.
Arguments getCurrentVersion {DB} st.
Arguments setCurrentVersion {DB} v st.
Arguments run_pending {DB} pending st.
Arguments migrations {DB} _ _ _.
Arguments runMigrations {DB} _ _ _ st.
Arguments Reachable {DB} _ _ _ _.
Arguments reach_fresh {DB} _ _ _ d.
Arguments reach_run {DB} _ _ _ st _.

End Migrate.

(** ** The scenario of the specification

    Account [alice] creates "Write spec" on the initial server at time 10
    and then marks it done; [bob] is another account. *)

Module Scenario.
Import TaskModel Middleware Socket Api.

Definition alice : User := mkUser 1 "alice".
Definition bob : User := mkUser 2 "bob".

Definition no_query : Query := mkQuery None None None [].
Definition no_body : Body := mkBody None None None None [].
Definition write_spec : Body := mkBody (Some "Write spec") None None None [].

Definition request (r : Route) (u : User) (b : Body) (q : Query) : Request :=
  mkRequest r (inl u) 64 b q.

Definition srv1 : Server :=
  server_of (router (request POST_tasks alice write_spec no_query) 10 initial).

Definition mark_done : Request :=
  request (PATCH_task_status (ValidId 0)) alice (TaskService.status_body "done")
          no_query.

(** A task that [alice] creates at the rank 2^53. *)
Definition write_last : Body :=
  mkBody (Some "Write last") None None (Some (IntLit (2 ^ 53))) [].

Definition srv_last : Server :=
  server_of (router (request POST_tasks alice write_last no_query) 10 initial).

(** A second task of [alice], and the first one moved to [inprogress]. *)
Definition srv2 : Server :=
  server_of (router (request POST_tasks alice write_spec no_query) 11 srv1).

Definition start_first : Request :=
  request (PATCH_task_status (ValidId 0)) alice
          (TaskService.status_body "inprogress") no_query.

End Scenario.

(** ** Numbers and strings *)

Module JsFacts.
Import Middleware.

Lemma to_double_exact z :
  (Z.abs z <= Js.MAX_SAFE_INTEGER + 1)%Z -> Js.to_double z = z.
Proof.
  intros H. unfold Js.to_double, Js.MAX_SAFE_INTEGER in *.
  destruct (Z.leb_spec (Z.abs z) (2 ^ 53 - 1)); [done|].
  assert (Z.abs z = 2 ^ 53)%Z as Ha by lia.
  destruct (Z.abs_spec z) as [[_ E]|[_ E]]; rewrite E in Ha.
  - by subst z.
  - assert (z = - 2 ^ 53)%Z as -> by lia. done.
Qed.

Lemma to_double_nonneg z : (0 <= z)%Z -> (0 <= Js.to_double z)%Z.
Proof.
  intros H. unfold Js.to_double.
  destruct (Z.leb_spec (Z.abs z) Js.MAX_SAFE_INTEGER); [done|].
  apply Z.mul_nonneg_nonneg; [lia|].
  set (e := (Z.log2 (Z.abs z) - 52)%Z).
  assert (0 <= 2 ^ e)%Z by (apply Z.pow_nonneg; lia).
  assert (0 <= Z.abs z / 2 ^ e)%Z by (apply Z_div_nonneg_nonneg; lia).
  match goal with
  | |- context [(Js.Infinity <=? ?v)%Z] => destruct (Js.Infinity <=? v)%Z
  end; [done|].
  apply Z.mul_nonneg_nonneg; [|done].
  repeat match goal with |- context [if ?b then _ else _] => destruct b end; lia.
Qed.

Lemma codePoints_length s : (Js.codePoints s <= Js.length s)%nat.
Proof.
  induction s as [|c s IH]; [done|]. cbn [Js.codePoints Js.length].
  destruct (Js.is_continuation c); [done|].
  destruct (240 <=? Ascii.nat_of_ascii c)%nat; lia.
Qed.

Lemma len_codePoints s : (len s <= Js.codePoints s)%nat.
Proof.
  induction s as [|c s IH]; [done|]. cbn [len Js.codePoints].
  destruct (Js.is_continuation c); [done|].
  destruct (starts_with_selector (String c s)); simpl; lia.
Qed.

Lemma len_length s : (len s <= Js.length s)%nat.
Proof. pose proof (len_codePoints s). pose proof (codePoints_length s). lia. Qed.

Lemma length_app s t : Js.length (s +:+ t) = (Js.length s + Js.length t)%nat.
Proof.
  induction s as [|c s IH]; [done|].
  change (Js.length (String c (s +:+ t))
          = (Js.length (String c s) + Js.length t)%nat).
  cbn [Js.length]. rewrite IH. lia.
Qed.

Lemma trimEnd_prefix s : exists q, s = Js.trimEnd s +:+ q.
Proof.
  induction s as [|c s [q IH]]; [by exists ""|].
  cbn [Js.trimEnd]. destruct (Js.blank _).
  - by eexists.
  - exists q. change (String c s = String c (Js.trimEnd s +:+ q)). by rewrite <- IH.
Qed.

Lemma trimStart_suffix s : exists p, s = p +:+ Js.trimStart s.
Proof.
  assert (H : forall n s, (String.length s <= n)%nat ->
                          exists p, s = p +:+ Js.trimStart s).
  { clear s. induction n as [|n IH]; intros s Hn.
    - destruct s; [by exists ""|simpl in Hn; lia].
    - destruct s as [|a s1]; [by exists ""|]. simpl in Hn.
      cbn [Js.trimStart]. destruct (Js.is_space1 a).
      { destruct (IH s1 ltac:(lia)) as [p Hp]. exists (String a p).
        change (String a s1 = String a (p +:+ Js.trimStart s1)). by rewrite <- Hp. }
      destruct s1 as [|b s2]; [by exists ""|]. simpl in Hn.
      destruct (Js.is_space2 a b).
      { destruct (IH s2 ltac:(lia)) as [p Hp]. exists (String a (String b p)).
        change (String a (String b s2)
                = String a (String b (p +:+ Js.trimStart s2))).
        by rewrite <- Hp. }
      destruct s2 as [|c s3]; [by exists ""|]. simpl in Hn.
      destruct (Js.is_space3 a b c); [|by exists ""].
      destruct (IH s3 ltac:(lia)) as [p Hp]. exists (String a (String b (String c p))).
      change (String a (String b (String c s3))
              = String a (String b (String c (p +:+ Js.trimStart s3)))).
      by rewrite <- Hp. }
  by apply (H (String.length s)).
Qed.

Lemma trim_length s : (Js.length (Js.trim s) <= Js.length s)%nat.
Proof.
  unfold Js.trim. destruct (trimStart_suffix s) as [p Hp].
  destruct (trimEnd_prefix (Js.trimStart s)) as [q Hq].
  rewrite Hp at 2. rewrite Hq at 2. rewrite !length_app. lia.
Qed.

End JsFacts.

(** ** Properties of the task store *)

Module StoreFacts.
Import TaskModel Middleware Socket Api.

(** The largest element of a list of ranks. *)
Fixpoint maximum (l : list Z) : option Z :=
  match l with
  | [] => None
  | x :: l' => Some (from_option (Z.max x) x (maximum l'))
  end.

(** The ranks of an owner's tasks in a lane, and the rank that follows them. *)
Definition lane_ranks (uid : ObjectId) (st : Status) (c : Collection) : list Z :=
  position <$> filter (matches_user_status uid st) c.

Definition next_rank (ranks : list Z) : Z :=
  match maximum ranks with
  | Some m => Js.add m 1
  | None => 0%Z
  end.

Lemma head_insert_by le x l :
  head (insert_by le x l)
  = Some (match head l with
          | Some y => if le x y then x else y
          | None => x
          end).
Proof. destruct l as [|y l]; simpl; [done|]. by destruct (le x y). Qed.

Lemma head_sort_position_desc l :
  position <$> head (sort_by position_desc l) = maximum (position <$> l).
Proof.
  induction l as [|x l IH]; [done|].
  change (position <$> head (insert_by position_desc x (sort_by position_desc l))
          = Some (from_option (Z.max (position x)) (position x)
                              (maximum (position <$> l)))).
  rewrite head_insert_by, <- IH.
  destruct (head (sort_by position_desc l)) as [y|]; simpl; [|done].
  f_equal. unfold position_desc.
  destruct (Z.leb_spec (position y) (position x)); lia.
Qed.

Lemma findOne_last_in_lane_rank uid st c :
  match findOne_last_in_lane uid st c with
  | Some lastTask => Js.add (position lastTask) 1
  | None => 0%Z
  end = next_rank (lane_ranks uid st c).
Proof.
  unfold next_rank, lane_ranks, findOne_last_in_lane.
  rewrite <- head_sort_position_desc.
  by destruct (head _).
Qed.

Lemma maximum_app_singleton l x :
  maximum (l ++ [x]) = Some (from_option (Z.max x) x (maximum l)).
Proof.
  induction l as [|y l IH]; simpl; [done|].
  rewrite IH. simpl. f_equal. destruct (maximum l); simpl; lia.
Qed.

Lemma maximum_lower_bound b l :
  Forall (fun x => (b <= x)%Z) l -> from_option (fun m => (b <= m)%Z) True (maximum l).
Proof.
  induction 1 as [|x l Hx _ IH]; simpl; [done|].
  destruct (maximum l); simpl in *; lia.
Qed.

(** Up to [Number.MAX_SAFE_INTEGER] the next rank is the largest plus one. *)
Lemma next_rank_safe l :
  Forall (fun x => (0 <= x <= Js.MAX_SAFE_INTEGER)%Z) l ->
  next_rank l = from_option (fun m => (m + 1)%Z) 0%Z (maximum l).
Proof.
  intros H. unfold next_rank. destruct (maximum l) as [m|] eqn:Hm; [|done].
  simpl. apply JsFacts.to_double_exact.
  assert (0 <= m <= Js.MAX_SAFE_INTEGER)%Z; [|lia].
  revert m Hm. induction H as [|x l Hx _ IH]; [done|].
  simpl. intros m [= <-]. destruct (maximum l) as [m'|]; simpl; [|done].
  specialize (IH m' eq_refl). lia.
Qed.

Lemma next_rank_snoc l :
  Forall (fun x => (0 <= x)%Z) l ->
  (next_rank l <= Js.MAX_SAFE_INTEGER)%Z ->
  next_rank l = from_option (fun m => (m + 1)%Z) 0%Z (maximum l) ->
  next_rank (l ++ [next_rank l]) = (next_rank l + 1)%Z.
Proof.
  intros Hl Hle Hn. unfold next_rank at 1. rewrite maximum_app_singleton.
  apply maximum_lower_bound in Hl.
  assert (from_option (Z.max (next_rank l)) (next_rank l) (maximum l) = next_rank l)
    as ->.
  { rewrite Hn at 1 2 3. destruct (maximum l); simpl in *; lia. }
  apply JsFacts.to_double_exact. rewrite Hn in *.
  destruct (maximum l); simpl in *; lia.
Qed.

Lemma next_rank_nonneg l : Forall (fun x => (0 <= x)%Z) l -> (0 <= next_rank l)%Z.
Proof.
  intros H. apply maximum_lower_bound in H. unfold next_rank.
  destruct (maximum l); simpl in *; [|lia].
  apply JsFacts.to_double_nonneg. lia.
Qed.

(** The schema's constraint on ranks, as a property of a collection. *)
Definition ranks_valid (c : Collection) : Prop :=
  Forall (fun t => (0 <= position t)%Z) c.

Lemma lane_ranks_nonneg uid st c :
  ranks_valid c -> Forall (fun x => (0 <= x)%Z) (lane_ranks uid st c).
Proof.
  unfold ranks_valid, lane_ranks.
  induction 1 as [|t c Ht _ IH]; [constructor|].
  rewrite filter_cons. destruct (decide _); [constructor|]; done.
Qed.

End StoreFacts.

(** ** Documents, [save] and the controllers *)

Module ControllerFacts.
Import TaskModel Middleware Socket Api StoreFacts.

(** The completion rule for one task. *)
Definition completion_ok (t : Task) : Prop :=
  completedAt t ≠ None ↔ status t = done.

(** The document [updateTask] and [updateTaskStatus] build from [req.task]. *)
Definition edited (task : Task) (ttl descr : option string) (st : option Status)
    (pos : option Z) : Document :=
  assign_opt set_position pos
    (assign_opt set_status st
       (assign_opt set_description descr
          (assign_opt set_title ttl (hydrate task)))).

Section Assign.
Context {A : Type} `{EqDecision A}.
Variables (p : Path) (get : Task -> A) (set : A -> Task -> Task).
Hypothesis set_get : forall t, set (get t) t = t.

Lemma assign_fields v d : fields (assign p get set v d) = set v (fields d).
Proof. unfold assign. destruct (decide _) as [<-|]; simpl; by rewrite ?set_get. Qed.

Lemma assign_isNew v d : isNew (assign p get set v d) = isNew d.
Proof. unfold assign. by destruct (decide _). Qed.

Lemma assign_modifiedPaths v d :
  modifiedPaths (assign p get set v d)
  = if decide (get (fields d) = v) then modifiedPaths d
    else p :: modifiedPaths d.
Proof. unfold assign. by destruct (decide _). Qed.
End Assign.

Lemma with_title_id t : with_title (title t) t = t.
Proof. by destruct t. Qed.
Lemma with_description_id t : with_description (description t) t = t.
Proof. by destruct t. Qed.
Lemma with_status_id t : with_status (status t) t = t.
Proof. by destruct t. Qed.
Lemma with_position_id t : with_position (position t) t = t.
Proof. by destruct t. Qed.

Lemma edited_fields task ttl descr st pos :
  fields (edited task ttl descr st pos)
  = from_option with_position id pos
      (from_option with_status id st
         (from_option with_description id descr
            (from_option with_title id ttl task))).
Proof.
  unfold edited, set_title, set_description, set_status, set_position.
  destruct ttl, descr, st, pos; simpl;
    rewrite ?(assign_fields _ _ _ with_position_id),
            ?(assign_fields _ _ _ with_status_id),
            ?(assign_fields _ _ _ with_description_id),
            ?(assign_fields _ _ _ with_title_id); done.
Qed.

Lemma edited_isNew task ttl descr st pos :
  isNew (edited task ttl descr st pos) = false.
Proof.
  unfold edited, set_title, set_description, set_status, set_position.
  destruct ttl, descr, st, pos; simpl; by rewrite ?assign_isNew.
Qed.

Lemma edited_frame task ttl descr st pos :
  let d := edited task ttl descr st pos in
  _id (fields d) = _id task
  ∧ userId (fields d) = userId task
  ∧ completedAt (fields d) = completedAt task
  ∧ createdAt (fields d) = createdAt task
  ∧ status (fields d) = default (status task) st
  ∧ position (fields d) = default (position task) pos.
Proof.
  simpl. rewrite edited_fields. by destruct ttl, descr, st, pos.
Qed.

Lemma edited_status_modified task ttl descr st pos :
  p_status ∈ modifiedPaths (edited task ttl descr st pos)
  ↔ default (status task) st ≠ status task.
Proof.
  unfold edited, set_title, set_description, set_status, set_position.
  destruct ttl, descr, st, pos; simpl;
    rewrite ?assign_modifiedPaths,
            ?(assign_fields _ _ _ with_status_id),
            ?(assign_fields _ _ _ with_description_id),
            ?(assign_fields _ _ _ with_title_id);
    simpl;
    repeat match goal with
           | |- context [decide ?P] => destruct (decide P); simpl
           end;
    rewrite ?elem_of_cons, ?elem_of_nil; intuition congruence.
Qed.

Lemma edited_position_modified task ttl descr st z :
  position task ≠ z ->
  p_position ∈ modifiedPaths (edited task ttl descr st (Some z)).
Proof.
  intros Hne.
  unfold edited, set_title, set_description, set_status, set_position. simpl.
  rewrite assign_modifiedPaths.
  destruct (decide _) as [Heq|]; [|set_solver].
  exfalso. apply Hne. rewrite <- Heq.
  destruct ttl, descr, st; simpl;
    rewrite ?(assign_fields _ _ _ with_status_id),
            ?(assign_fields _ _ _ with_description_id),
            ?(assign_fields _ _ _ with_title_id); done.
Qed.

Lemma edited_position_valid task ttl descr st pos :
  (0 <= position task)%Z ->
  validateSync (edited task ttl descr st pos) = true ->
  (0 <= position (fields (edited task ttl descr st pos)))%Z.
Proof.
  intros Hold. unfold validateSync. rewrite edited_isNew.
  destruct (edited_frame task ttl descr st pos) as (_ & _ & _ & _ & _ & Hp).
  rewrite Hp. destruct pos as [z|]; [|done]. simpl.
  rewrite forallb_forall. intros Hall.
  destruct (decide (position task = z)) as [<-|Hne]; [done|].
  pose proof (edited_position_modified task ttl descr st z Hne) as Hin.
  apply list_elem_of_In, Hall in Hin.
  change (bool_decide (0 <= position (fields (edited task ttl descr st (Some z))))%Z
          = true) in Hin.
  apply bool_decide_eq_true in Hin. by rewrite Hp in Hin.
Qed.

(** [completedAt] after saving a document whose lane was set to
    [newStatus], as the pre-save hook computes it from the stored task. *)
Definition completedAt_after (now : Time) (old : Task) (newStatus : Status)
    : option Time :=
  if decide (newStatus = status old) then completedAt old
  else if decide (newStatus = done) then
    match completedAt old with
    | None => Some now
    | Some at_ => Some at_
    end
  else None.

Lemma pre_save_isNew now d : isNew (pre_save now d) = isNew d.
Proof.
  unfold pre_save. destruct (isModified p_status d); [|done].
  destruct (_ && _); [done|]. by destruct (bool_decide _).
Qed.

Lemma pre_save_fields now d :
  fields (pre_save now d)
  = with_completedAt
      (if isModified p_status d then
         if decide (status (fields d) = done) then
           match completedAt (fields d) with
           | None => Some now
           | Some at_ => Some at_
           end
         else None
       else completedAt (fields d))
      (fields d).
Proof.
  unfold pre_save. destruct (isModified p_status d); [|by destruct (fields d)].
  destruct (decide (status (fields d) = done)) as [Hd|Hd].
  - rewrite (bool_decide_eq_true_2 _ Hd). simpl.
    destruct (completedAt (fields d)) as [at_|] eqn:Hc.
    + rewrite bool_decide_eq_false_2 by done.
      rewrite bool_decide_eq_false_2 by (intros ?; done).
      rewrite <- Hc. by destruct (fields d).
    + by rewrite bool_decide_eq_true_2.
  - rewrite (bool_decide_eq_false_2 _ Hd). simpl.
    by rewrite bool_decide_eq_true_2.
Qed.

Lemma save_edited now task ttl descr st pos c t c' :
  save now (edited task ttl descr st pos) c = Some (t, c') ->
  c' = replace_doc t c
  ∧ _id t = _id task
  ∧ userId t = userId task
  ∧ createdAt t = createdAt task
  ∧ status t = default (status task) st
  ∧ position t = default (position task) pos
  ∧ completedAt t = completedAt_after now task (default (status task) st)
  ∧ ((0 <= position task)%Z -> (0 <= position t)%Z).
Proof.
  unfold save. destruct (validateSync _) eqn:Hv; [|done].
  rewrite pre_save_isNew, edited_isNew.
  pose proof (edited_frame task ttl descr st pos) as (Hid & Hu & Hc & Hcr & Hs & Hp).
  pose proof (edited_status_modified task ttl descr st pos) as Hm.
  pose proof (fun H => edited_position_valid task ttl descr st pos H Hv) as Hpos.
  assert (Hf : completedAt (fields (pre_save now (edited task ttl descr st pos)))
               = completedAt_after now task (default (status task) st)).
  { rewrite pre_save_fields. unfold completedAt_after, isModified.
    rewrite Hs, Hc. simpl.
    destruct (decide (default (status task) st = status task)) as [He|He].
    - rewrite bool_decide_eq_false_2; [done|]. rewrite Hm. tauto.
    - rewrite bool_decide_eq_true_2; [done|]. by rewrite Hm. }
  assert (Hrest : forall d' : Task,
             d' = fields (pre_save now (edited task ttl descr st pos)) ->
             _id d' = _id task ∧ userId d' = userId task
             ∧ createdAt d' = createdAt task
             ∧ status d' = default (status task) st
             ∧ position d' = default (position task) pos).
  { intros d' ->. rewrite pre_save_fields. simpl. by rewrite Hid, Hu, Hcr, Hs, Hp. }
  destruct (Hrest _ eq_refl) as (R1 & R2 & R3 & R4 & R5).
  intros [= <- <-].
  destruct (modifiedPaths (pre_save now (edited task ttl descr st pos)));
    simpl; rewrite ?R1, ?R2, ?R3, ?R4, ?R5, ?Hf;
    (repeat split; try done; intros H0; rewrite <- Hp; auto).
Qed.

Lemma save_new now oid ttl descr st uid pos c :
  save now (new_Task oid ttl descr st uid pos) c
  = if bool_decide (1 <= Js.length ttl <= 200)%nat
       && (bool_decide (Js.length (default "" descr) <= 1000)%nat
           && (true && (bool_decide (0 <= pos)%Z && true)))
    then
      let t := mkTask oid uid ttl (default "" descr) st pos
                      (if decide (st = done) then Some now else None) now now in
      Some (t, c ++ [t])
    else None.
Proof.
  unfold save, validateSync. simpl.
  destruct (_ && _); [|done].
  rewrite pre_save_isNew. simpl.
  by rewrite pre_save_fields.
Qed.

Lemma check_nil {A} (ok : A -> bool) msg v : check ok msg v = [] ↔ ok v = true.
Proof. unfold check. destruct (ok v); split; done. Qed.

Lemma optional_nil {A} (ok : A -> bool) msg v :
  optional ok msg v = [] ↔ from_option (fun a => ok a = true) True v.
Proof. destruct v; simpl; [apply check_nil|done]. Qed.

Lemma validateCreateTask_nil b :
  validateCreateTask b = [] ->
  (exists ttl, b_title b = Some ttl ∧ (1 <= len ttl <= 200)%nat)
  ∧ (len (default "" (b_description b)) <= 1000)%nat
  ∧ from_option (fun v => exists z, v = IntLit z ∧ (0 <= z)%Z) True (b_position b).
Proof.
  unfold validateCreateTask. intros H.
  apply app_eq_nil in H as [Ht H]. apply app_eq_nil in H as [Hd H].
  apply app_eq_nil in H as [_ Hp].
  apply check_nil in Ht. apply optional_nil in Hd. apply optional_nil in Hp.
  unfold isLength in *. apply bool_decide_eq_true in Ht.
  repeat split.
  - destruct (b_title b) as [ttl|]; simpl in Ht; [eauto|lia].
  - destruct (b_description b); simpl in *; [|lia].
    apply bool_decide_eq_true in Hd. lia.
  - destruct (b_position b) as [[z|raw]|]; simpl in *; try done.
    exists z. split; [done|]. apply andb_true_iff in Hp as [Hp _]. lia.
Qed.

(** The task [createTask] stores. *)
Definition created (srv : Server) (u : User) (ttl : string) (descr : option string)
    (st : Status) (pos : Z) (now : Time) : Task :=
  mkTask (next_oid srv) (user_id u) ttl (default "" descr) st pos
         (if decide (st = done) then Some now else None) now now.

Lemma createTask_cases u b now srv :
  createTask u b now srv = (mongoose_error, srv, [])
  ∨ exists ttl st pos,
      let t := created srv u ttl (b_description b) st pos now in
      b_title b = Some ttl
      ∧ parse_status (default "todo" (b_status b)) = Some st
      ∧ (0 <= pos)%Z
      ∧ from_option (fun v => cast_number v = Some pos)
                    (pos = next_rank (lane_ranks (user_id u) st (tasks srv)))
                    (b_position b)
      ∧ createTask u b now srv
        = (mkResponse 201 true (TaskData t),
           mkServer (tasks srv ++ [t]) (S (next_oid srv)) (io srv),
           emit srv (user_id u) "task-created" t now).
Proof.
  unfold createTask.
  destruct (parse_status _) as [st|] eqn:Hst; [|by left].
  destruct (b_title b) as [ttl|] eqn:Httl; [|by left].
  rewrite findOne_last_in_lane_rank.
  set (taskPosition := match b_position b with
                       | Some v => cast_number v
                       | None => Some _
                       end).
  destruct taskPosition as [pos|] eqn:Hpos; [|by left].
  rewrite save_new.
  destruct (_ && _) eqn:Hv; [|by left].
  right. exists ttl, st, pos. simpl. repeat split; try done.
  - apply andb_true_iff in Hv as [_ Hv]. apply andb_true_iff in Hv as [_ Hv].
    simpl in Hv. apply andb_true_iff in Hv as [Hv _].
    by apply bool_decide_eq_true in Hv.
  - subst taskPosition. destruct (b_position b) as [[z|raw]|]; simpl in *;
      congruence.
Qed.

(** The schema's bounds on the texts of a body. *)
Definition texts_fit (b : Body) : Prop :=
  from_option (fun v => (Js.length v <= 200)%nat) True (b_title b)
  ∧ from_option (fun v => (Js.length v <= 1000)%nat) True (b_description b).

#[global] Instance texts_fit_dec b : Decision (texts_fit b).
Proof.
  unfold texts_fit. destruct (b_title b), (b_description b); simpl; apply _.
Defined.

(** The texts of a task that [createTask] stored are within the schema's
    bounds. *)
Lemma createTask_texts u b now srv t srv' ds :
  createTask u b now srv = (mkResponse 201 true (TaskData t), srv', ds) ->
  (1 <= Js.length (title t) <= 200)%nat ∧ (Js.length (description t) <= 1000)%nat
  ∧ b_title b = Some (title t) ∧ description t = default "" (b_description b).
Proof.
  unfold createTask.
  destruct (parse_status _) as [st|]; [|done].
  destruct (b_title b) as [ttl|]; [|done].
  destruct (match b_position b with Some v => cast_number v | None => _ end)
    as [pos|]; [|done].
  rewrite save_new.
  destruct (bool_decide_reflect (1 <= Js.length ttl <= 200)%nat); [|done].
  destruct (bool_decide_reflect (Js.length (default "" (b_description b)) <= 1000)%nat);
    [|done].
  simpl. destruct (bool_decide _); [|done]. simpl. by intros [= <- _ _].
Qed.

Lemma createTask_rankless u b now srv lane :
  validateCreateTask b = [] ->
  b_position b = None ->
  parse_status (default "todo" (b_status b)) = Some lane ->
  ranks_valid (tasks srv) ->
  exists ttl,
    b_title b = Some ttl
    ∧ if decide (texts_fit b) then
        let t := created srv u ttl (b_description b) lane
                         (next_rank (lane_ranks (user_id u) lane (tasks srv))) now in
        createTask u b now srv
        = (mkResponse 201 true (TaskData t),
           mkServer (tasks srv ++ [t]) (S (next_oid srv)) (io srv),
           emit srv (user_id u) "task-created" t now)
      else createTask u b now srv = (mongoose_error, srv, []).
Proof.
  intros Hval Hpos Hlane Hranks.
  apply validateCreateTask_nil in Hval as ((ttl & Httl & Hlen) & Hdescr & _).
  pose proof (JsFacts.len_length ttl) as Hmin.
  exists ttl. split; [done|]. unfold createTask.
  rewrite Hlane, Httl, Hpos, findOne_last_in_lane_rank, save_new.
  rewrite (bool_decide_eq_true_2 (0 <= _)%Z)
    by by apply next_rank_nonneg, lane_ranks_nonneg.
  destruct (decide (texts_fit b)) as [[Ht Hd]|Hno].
  - rewrite Httl in Ht. simpl in Ht.
    rewrite !bool_decide_eq_true_2; [done| |lia].
    by destruct (b_description b).
  - destruct (bool_decide_reflect (1 <= Js.length ttl <= 200)%nat) as [Ht|_]; [|done].
    destruct (bool_decide_reflect (Js.length (default "" (b_description b)) <= 1000)%nat)
      as [Hd|_]; [|done].
    destruct Hno. unfold texts_fit. rewrite Httl. simpl. split; [lia|].
    by destruct (b_description b).
Qed.

(** What a successful write of the stored task [old] leaves in the
    collection, for the lane and rank the request asked for. *)
Definition updated_from (now : Time) (old t : Task) (st : option Status)
    (pos : option Z) : Prop :=
  _id t = _id old
  ∧ userId t = userId old
  ∧ createdAt t = createdAt old
  ∧ status t = default (status old) st
  ∧ position t = default (position old) pos
  ∧ completedAt t = completedAt_after now old (default (status old) st)
  ∧ ((0 <= position old)%Z -> (0 <= position t)%Z).

Lemma updateTask_cases u task b now srv :
  updateTask u task b now srv = (mongoose_error, srv, [])
  ∨ exists st pos t,
      optional_status (b_status b) = Some st
      ∧ optional_number (b_position b) = Some pos
      ∧ updated_from now task t st pos
      ∧ updateTask u task b now srv
        = (mkResponse 200 true (TaskData t),
           with_tasks (replace_doc t (tasks srv)) srv,
           emit srv (user_id u) "task-updated" t now).
Proof.
  unfold updateTask.
  destruct (optional_status _) as [st|]; [|by left].
  destruct (optional_number _) as [pos|]; [|by left].
  fold (edited task (b_title b) (b_description b) st pos).
  destruct (save _ _ _) as [[t c]|] eqn:Hsave; [|by left].
  apply save_edited in Hsave as (-> & Hrest).
  right. by exists st, pos, t.
Qed.

Lemma updateTaskStatus_cases u task b now srv :
  updateTaskStatus u task b now srv = (mongoose_error, srv, [])
  ∨ exists lane pos t,
      b_status b ≫= parse_status = Some lane
      ∧ optional_number (b_position b) = Some pos
      ∧ updated_from now task t (Some lane) pos
      ∧ updateTaskStatus u task b now srv
        = (mkResponse 200 true (TaskData t),
           with_tasks (replace_doc t (tasks srv)) srv,
           emit srv (user_id u) "task-status-updated" t now).
Proof.
  unfold updateTaskStatus.
  destruct (b_status b ≫= parse_status) as [lane|]; [|by left].
  destruct (optional_number _) as [pos|]; [|by left].
  change (assign_opt set_position pos (set_status lane (hydrate task)))
    with (edited task None None (Some lane) pos).
  destruct (save _ _ _) as [[t c]|] eqn:Hsave; [|by left].
  apply save_edited in Hsave as (-> & Hrest).
  right. by exists lane, pos, t.
Qed.

(** The requests that reach a controller, and what the router did for
    every other one. *)
Ltac rejected := left; eexists; split; reflexivity.

(** The request passes the two [router.use] guards that look at its size
    and at its keys. *)
Definition passes_guards (req : Request) : Prop :=
  (contentLength req <= maxSize)%Z
  ∧ checkForInjection (body_keys (body req)) = false
  ∧ checkForInjection (query_keys (query req)) = false.

Lemma router_cases req now srv :
  (exists r, router req now srv = (r, srv, []) ∧ success r = false)
  ∨ (exists u, credential req = inl u ∧ route req = GET_tasks
       ∧ validateTaskQuery (query req) = []
       ∧ router req now srv = (getTasks u (query req) srv, srv, []))
  ∨ (exists u, credential req = inl u ∧ route req = POST_tasks
       ∧ validateCreateTask (body req) = []
       ∧ router req now srv = createTask u (body req) now srv)
  ∨ (exists u oid task, credential req = inl u
       ∧ findOne_by_id_user oid (user_id u) (tasks srv) = Some task
       ∧ ((route req = PUT_task (ValidId oid)
           ∧ validateUpdateTask (body req) = []
           ∧ router req now srv = updateTask u task (body req) now srv)
          ∨ (route req = DELETE_task (ValidId oid)
             ∧ router req now srv = deleteTask u task now srv)
          ∨ (route req = PATCH_task_status (ValidId oid)
             ∧ validateUpdateTaskStatus (body req) = []
             ∧ router req now srv = updateTaskStatus u task (body req) now srv))).
Proof.
  unfold router, chain, validateRequestSize, validateNoSqlInjection, authenticate.
  destruct (maxSize <? contentLength req)%Z; try rejected.
  destruct (checkForInjection _ || _); try rejected.
  destruct (credential req) as [u|code]; try rejected. simpl.
  destruct (route req) as [| |id|id|id]; simpl.
  - destruct (validateTaskQuery _) eqn:Hv; simpl; try rejected.
    right; left. by exists u.
  - destruct (validateCreateTask _) eqn:Hv; simpl; try rejected.
    right; right; left. by exists u.
  - destruct id as [oid|raw]; simpl; try rejected.
    destruct (findOne_by_id_user _ _ _) as [task|] eqn:Hf; simpl; try rejected.
    destruct (validateUpdateTask _) eqn:Hv; simpl; try rejected.
    right; right; right. exists u, oid, task. do 2 (split; [done|]). by left.
  - destruct id as [oid|raw]; simpl; try rejected.
    destruct (findOne_by_id_user _ _ _) as [task|] eqn:Hf; simpl; try rejected.
    right; right; right. exists u, oid, task. do 2 (split; [done|]).
    right; by left.
  - destruct id as [oid|raw]; simpl; try rejected.
    destruct (findOne_by_id_user _ _ _) as [task|] eqn:Hf; simpl; try rejected.
    destruct (validateUpdateTaskStatus _) eqn:Hv; simpl; try rejected.
    right; right; right. exists u, oid, task. do 2 (split; [done|]).
    right; by right.
Qed.

Lemma findOne_by_id_user_Some oid uid c t :
  findOne_by_id_user oid uid c = Some t -> t ∈ c ∧ _id t = oid ∧ userId t = uid.
Proof.
  unfold findOne_by_id_user. intros H. apply find_some in H as [Hin H].
  apply andb_true_iff in H as [H1 H2].
  apply bool_decide_eq_true in H1, H2. by rewrite list_elem_of_In.
Qed.

End ControllerFacts.

(** ** Invariants of the reachable servers *)

Module Invariants.
Import TaskModel Middleware Socket Api StoreFacts ControllerFacts.

Definition joined_own_room (c : Conn) : Prop :=
  rooms c = [user_room (toString (user_id (socket_user c)))].

Record Inv (srv : Server) : Prop := mkInv {
  inv_ids : NoDup (_id <$> tasks srv);
  inv_fresh : Forall (fun t => (_id t < next_oid srv)%nat) (tasks srv);
  inv_ranks : ranks_valid (tasks srv);
  inv_completion : Forall completion_ok (tasks srv);
  inv_rooms : forall i, io srv = Some i -> Forall joined_own_room i;
  inv_sockets : forall i, io srv = Some i -> NoDup (socket_id <$> i)
}.

Lemma Forall_filter {A} (P Q : A -> Prop) `{forall x, Decision (Q x)} (l : list A) :
  Forall P l -> Forall P (filter Q l).
Proof.
  induction 1 as [|x l Hx _ IH]; [constructor|].
  rewrite filter_cons. destruct (decide (Q x)); [by constructor|done].
Qed.

Lemma replace_doc_ids t c : _id <$> replace_doc t c = _id <$> c.
Proof.
  unfold replace_doc. rewrite <- list_fmap_compose. apply list_fmap_ext.
  intros _ t' _. simpl. by destruct (decide _).
Qed.

Lemma replace_doc_Forall (P : Task -> Prop) t c :
  P t -> Forall P c -> Forall P (replace_doc t c).
Proof.
  intros Ht Hc. unfold replace_doc. apply Forall_fmap.
  eapply Forall_impl; [exact Hc|]. intros t' Ht'. simpl. by destruct (decide _).
Qed.

Lemma completion_ok_created srv u ttl descr st pos now :
  completion_ok (created srv u ttl descr st pos now).
Proof. unfold completion_ok, created. simpl. by destruct (decide (st = done)). Qed.

Lemma completion_ok_updated now old t st pos :
  completion_ok old -> updated_from now old t st pos -> completion_ok t.
Proof.
  unfold completion_ok, updated_from, completedAt_after.
  intros Hold (_ & _ & _ & Hs & _ & Hc & _). rewrite Hc, Hs.
  destruct (decide (default (status old) st = status old)) as [->|_]; [done|].
  destruct (decide (default (status old) st = done)) as [->|Hd].
  - by destruct (completedAt old).
  - tauto.
Qed.

Lemma unique_by_id c t t' :
  NoDup (_id <$> c) -> t ∈ c -> t' ∈ c -> _id t = _id t' -> t = t'.
Proof.
  induction c as [|x c IH].
  { intros _ Ht. by apply elem_of_nil in Ht. }
  rewrite fmap_cons, NoDup_cons, !elem_of_cons.
  intros [Hx Hnd] [->|Ht] [->|Ht'] Hid; auto.
  - exfalso. apply Hx. rewrite Hid. by apply list_elem_of_fmap_2.
  - exfalso. apply Hx. rewrite <- Hid. by apply list_elem_of_fmap_2.
Qed.

Lemma Inv_initial : Inv initial.
Proof.
  split; simpl; try constructor.
  - intros i [= <-]. constructor.
  - intros i [= <-]. constructor.
Qed.

Lemma Inv_request req now srv : Inv srv -> Inv (server_of (router req now srv)).
Proof.
  intros [Hids Hfresh Hranks Hcompl Hrooms Hsock].
  destruct (router_cases req now srv)
    as [(r & -> & _)|[(u & _ & _ & _ & ->)|[(u & _ & _ & _ & ->)
       |(u & oid & task & _ & Hfind & Hroute)]]];
    try (by split).
  - destruct (createTask_cases u (body req) now srv)
      as [->|(ttl & st & pos & _ & _ & Hpos & _ & ->)]; [by split|].
    unfold server_of. simpl. split; simpl; try done.
    + rewrite fmap_app. apply NoDup_app. split; [done|]. split; [|apply NoDup_singleton].
      intros x Hx Hx'. apply list_elem_of_singleton in Hx'. subst x.
      apply list_elem_of_fmap in Hx as (t & Ht & Hin). simpl in Ht.
      rewrite Forall_forall in Hfresh. apply Hfresh in Hin. lia.
    + apply Forall_app. split.
      * eapply Forall_impl; [exact Hfresh|]. simpl. lia.
      * constructor; [simpl; lia|constructor].
    + apply Forall_app. split; [done|]. by constructor.
    + apply Forall_app. split; [done|].
      constructor; [apply completion_ok_created|constructor].
  - apply findOne_by_id_user_Some in Hfind as (Hin & Hoid & Huid).
    assert (Htask : completion_ok task ∧ (0 <= position task)%Z
                    ∧ (_id task < next_oid srv)%nat).
    { repeat split.
      - rewrite Forall_forall in Hcompl. by apply Hcompl.
      - rewrite Forall_forall in Hcompl. by apply Hcompl.
      - unfold ranks_valid in Hranks. rewrite Forall_forall in Hranks. by apply Hranks.
      - rewrite Forall_forall in Hfresh. by apply Hfresh. }
    destruct Htask as (Hc & Hp & Hf).
    assert (Hwrite : forall now' t st pos,
               updated_from now' task t st pos ->
               Inv (with_tasks (replace_doc t (tasks srv)) srv)).
    { intros now' t st pos Hup.
      pose proof (completion_ok_updated _ _ _ _ _ Hc Hup) as Hc'.
      destruct Hup as (Hid & _ & _ & _ & _ & _ & Hpos).
      split; simpl; try done.
      - by rewrite replace_doc_ids.
      - apply replace_doc_Forall; [|done]. by rewrite Hid.
      - apply replace_doc_Forall; [|done]. by apply Hpos.
      - by apply replace_doc_Forall. }
    destruct Hroute as [(_ & _ & ->)|[(_ & ->)|(_ & _ & ->)]].
    + destruct (updateTask_cases u task (body req) now srv)
        as [->|(st & pos & t & _ & _ & Hup & ->)]; [by split|].
      by eapply Hwrite.
    + unfold deleteTask, server_of. simpl. split; simpl; try done.
      * unfold findByIdAndDelete. eapply sublist_NoDup; [exact Hids|apply fmap_sublist, sublist_filter].
      * by apply Forall_filter.
      * by apply Forall_filter.
      * by apply Forall_filter.
    + destruct (updateTaskStatus_cases u task (body req) now srv)
        as [->|(lane & pos & t & _ & _ & Hup & ->)]; [by split|].
      by eapply Hwrite.
Qed.

Lemma Inv_step srv srv' : Inv srv -> Step srv srv' -> Inv srv'.
Proof.
  intros HI Hstep. destruct Hstep as [req now srv|sid cred i srv Hio Hsid|sid i srv Hio].
  - by apply Inv_request.
  - destruct HI as [Hids Hfresh Hranks Hcompl Hrooms Hsock].
    specialize (Hrooms i Hio). specialize (Hsock i Hio).
    split; simpl; try done; intros i' [= <-];
      unfold connect, socketAuth; destruct cred as [u|msg]; simpl; try done.
    + unfold handleConnection. apply Forall_app. split; [done|].
      by repeat constructor.
    + unfold handleConnection. rewrite fmap_app. apply NoDup_app.
      split; [done|]. split; [|apply NoDup_singleton].
      intros x Hx Hx'. apply list_elem_of_singleton in Hx'. by subst x.
  - destruct HI as [Hids Hfresh Hranks Hcompl Hrooms Hsock].
    specialize (Hrooms i Hio). specialize (Hsock i Hio).
    split; simpl; try done; intros i' [= <-]; unfold disconnect.
    + by apply Forall_filter.
    + eapply sublist_NoDup; [exact Hsock|apply fmap_sublist, sublist_filter].
Qed.

Lemma Reachable_Inv srv : Reachable srv -> Inv srv.
Proof.
  induction 1 as [|srv srv' _ IH Hstep]; [apply Inv_initial|].
  by eapply Inv_step.
Qed.

End Invariants.

(** ** Rank assignment on creation *)

Module RankAssignment.
Import TaskModel Middleware Socket Api StoreFacts ControllerFacts Invariants Scenario.

(** A valid creation request that names no rank and lands in [lane]. *)
Definition rankless (lane : Status) (b : Body) : Prop :=
  validateCreateTask b = []
  ∧ b_position b = None
  ∧ parse_status (default "todo" (b_status b)) = Some lane.

(** One more than the largest rank of a lane, or 0 for an empty lane. *)
Definition follows (ranks : list Z) (r : Z) : Prop :=
  (ranks = [] ∧ r = 0%Z)
  ∨ (exists m, m ∈ ranks ∧ Forall (fun x => (x <= m)%Z) ranks ∧ r = (m + 1)%Z).

(** Creating one task after the other. *)
Fixpoint create_all (u : User) (reqs : list (Body * Time)) (srv : Server)
    : list Response * Server :=
  match reqs with
  | [] => ([], srv)
  | (b, now) :: reqs' =>
      let h := createTask u b now srv in
      let rest := create_all u reqs' (server_of h) in
      (response_of h :: rest.1, rest.2)
  end.

(** The rank in a 201 answer. *)
Definition created_rank (r : Response) : option Z :=
  match statusCode r, data r with
  | 201%nat, TaskData t => Some (position t)
  | _, _ => None
  end.

Lemma maximum_spec l m :
  maximum l = Some m -> m ∈ l ∧ Forall (fun x => (x <= m)%Z) l.
Proof.
  revert m. induction l as [|x l IH]; [done|]. simpl. intros m [= <-].
  destruct (maximum l) as [m'|] eqn:Hm; simpl.
  - destruct (IH m' eq_refl) as [Hin Hall].
    destruct (Z.max_spec x m') as [[Hlt ->]|[Hle ->]].
    + split; [by right|]. constructor; [lia|done].
    + split; [by left|]. constructor; [lia|].
      eapply Forall_impl; [exact Hall|]. simpl. lia.
  - destruct l; [|done]. split; [by left|]. by repeat constructor.
Qed.

Lemma next_rank_follows l :
  Forall (fun x => (0 <= x <= Js.MAX_SAFE_INTEGER)%Z) l -> follows l (next_rank l).
Proof.
  intros Hl. rewrite (next_rank_safe l Hl).
  unfold follows. destruct (maximum l) as [m|] eqn:Hm.
  - right. exists m. apply maximum_spec in Hm. tauto.
  - left. by destruct l.
Qed.

Lemma lane_ranks_created srv u ttl descr lane pos now :
  lane_ranks (user_id u) lane
             (tasks srv ++ [created srv u ttl descr lane pos now])
  = lane_ranks (user_id u) lane (tasks srv) ++ [pos].
Proof.
  unfold lane_ranks. rewrite filter_app, fmap_app. f_equal.
  rewrite filter_cons, decide_True; [done|]. by split.
Qed.

(** As long as the ranks stay within [Number.MAX_SAFE_INTEGER], creations in
    a row count upwards. *)
Lemma create_all_ranks u lane reqs srv :
  ranks_valid (tasks srv) ->
  Forall (fun r => rankless lane r.1 ∧ texts_fit r.1) reqs ->
  let ranks := lane_ranks (user_id u) lane (tasks srv) in
  next_rank ranks = from_option (fun m => (m + 1)%Z) 0%Z (maximum ranks) ->
  (next_rank ranks + Z.of_nat (length reqs) <= Js.MAX_SAFE_INTEGER + 1)%Z ->
  created_rank <$> (create_all u reqs srv).1
  = (fun i => Some (next_rank ranks + Z.of_nat i)%Z) <$> seq 0 (length reqs).
Proof.
  intros Hranks Hreqs. revert srv Hranks.
  induction Hreqs as [|[b now] reqs ((Hval & Hpos & Hlane) & Hfit) _ IH];
    intros srv Hranks ranks Hexact Hsafe; [done|].
  pose proof (lane_ranks_nonneg (user_id u) lane (tasks srv) Hranks) as Hnonneg.
  fold ranks in Hnonneg.
  pose proof (next_rank_nonneg ranks Hnonneg) as Hnext.
  simpl. destruct (createTask_rankless u b now srv lane Hval Hpos Hlane Hranks)
    as (ttl & _ & Hcreate).
  rewrite decide_True in Hcreate by done.
  simpl in Hcreate. rewrite Hcreate. unfold response_of, server_of. simpl.
  fold ranks. f_equal; [unfold created_rank; simpl; f_equal; lia|].
  simpl in Hsafe.
  assert (Hsnoc : next_rank (ranks ++ [next_rank ranks]) = (next_rank ranks + 1)%Z).
  { apply next_rank_snoc; [done|lia|done]. }
  rewrite IH.
  - simpl. rewrite lane_ranks_created. fold ranks. rewrite Hsnoc.
    rewrite <- fmap_S_seq, <- list_fmap_compose. apply list_fmap_ext.
    intros _ i _. simpl. f_equal. lia.
  - simpl. apply Forall_app. split; [done|]. by constructor; [|constructor].
  - simpl. rewrite lane_ranks_created. fold ranks. rewrite Hsnoc.
    rewrite maximum_app_singleton. simpl. f_equal.
    apply maximum_lower_bound in Hnonneg. rewrite Hexact at 1 2.
    destruct (maximum ranks); simpl in *; lia.
  - simpl. rewrite lane_ranks_created. fold ranks. rewrite Hsnoc. lia.
Qed.

(** The claim in the words of the specification: the rank of a task that is
    created without one is the largest rank of the lane plus one, or 0 for
    an empty lane, whatever the ranks of the lane are. *)
Definition always_follows : Prop :=
  forall (u : User) (lane : Status) (srv : Server) (b : Body) (now : Time)
         (t : Task),
    Reachable srv -> rankless lane b ->
    response_of (createTask u b now srv) = mkResponse 201 true (TaskData t) ->
    follows (lane_ranks (user_id u) lane (tasks srv)) (position t).

(** Above [Number.MAX_SAFE_INTEGER] adding one need not change a Number:
    after a task was created at the rank 2^53, which [validateCreateTask]
    lets through, the next task of the lane gets the rank 2^53 again. *)
Lemma C1_rank_repeats : ¬ always_follows.
Proof.
  intros H.
  assert (Hreach : Reachable srv_last).
  { eapply reach_step; [apply reach_initial|apply step_request]. }
  assert (Hr : rankless todo write_spec) by (repeat split; reflexivity).
  specialize (H alice todo srv_last write_spec 11%Z
                (mkTask 1 1 "Write spec" "" todo (2 ^ 53) None 11 11)
                Hreach Hr eq_refl).
  destruct H as [[Hnil _]|(m & Hm & _ & Heq)]; [done|].
  change (lane_ranks (user_id alice) todo (tasks srv_last)) with [(2 ^ 53)%Z] in Hm.
  apply list_elem_of_singleton in Hm. subst m. done.
Qed.

(** C1.  On every reachable server, creating a task without a rank stores
    it, when its texts are within the schema's bounds, at the end of the
    collection with the rank [next_rank] of that owner's tasks in that lane:
    0 for an empty lane, and else the Number nearest to the largest rank
    plus one.  That is the largest rank plus one as long as the ranks of the
    lane do not exceed [Number.MAX_SAFE_INTEGER].  A body whose title or
    description is longer than the schema allows is refused with nothing
    stored.  And N such creations in a row in a lane that starts empty get
    the ranks 0, 1, ..., N-1 in creation order, for N up to 2^53. *)
Theorem C1_rank_assignment (u : User) (lane : Status) (srv : Server) :
  Reachable srv ->
  (forall b now, rankless lane b ->
     if decide (texts_fit b) then
       exists t,
         createTask u b now srv
         = (mkResponse 201 true (TaskData t),
            mkServer (tasks srv ++ [t]) (S (next_oid srv)) (io srv),
            emit srv (user_id u) "task-created" t now)
         ∧ userId t = user_id u ∧ status t = lane
         ∧ position t = next_rank (lane_ranks (user_id u) lane (tasks srv))
         ∧ (Forall (fun x => (x <= Js.MAX_SAFE_INTEGER)%Z)
                   (lane_ranks (user_id u) lane (tasks srv)) ->
            follows (lane_ranks (user_id u) lane (tasks srv)) (position t))
     else createTask u b now srv = (mongoose_error, srv, []))
  ∧ (forall reqs,
       Forall (fun r => rankless lane r.1 ∧ texts_fit r.1) reqs ->
       lane_ranks (user_id u) lane (tasks srv) = [] ->
       (Z.of_nat (length reqs) <= Js.MAX_SAFE_INTEGER + 1)%Z ->
       created_rank <$> (create_all u reqs srv).1
       = (fun i => Some (Z.of_nat i)) <$> seq 0 (length reqs)).
Proof.
  intros Hreach. apply Reachable_Inv in Hreach as [_ _ Hranks _ _ _]. split.
  - intros b now (Hval & Hpos & Hlane).
    destruct (createTask_rankless u b now srv lane Hval Hpos Hlane Hranks)
      as (ttl & _ & Hcreate).
    destruct (decide (texts_fit b)); [|done].
    eexists. split; [exact Hcreate|]. simpl.
    repeat split; try done. intros Hsafe. apply next_rank_follows.
    pose proof (lane_ranks_nonneg (user_id u) lane (tasks srv) Hranks) as Hnonneg.
    rewrite Forall_forall in Hsafe, Hnonneg. apply Forall_forall.
    intros x Hx. split; [by apply Hnonneg|by apply Hsafe].
  - intros reqs Hreqs Hempty Hlen.
    rewrite (create_all_ranks u lane reqs srv Hranks Hreqs); rewrite Hempty.
    + apply list_fmap_ext. intros _ i _. by rewrite Z.add_0_l.
    + done.
    + change (next_rank []) with 0%Z. lia.
Qed.

Lemma C1_rank_assignment_witness :
  Reachable initial
  ∧ rankless todo write_spec
  ∧ (exists t,
       createTask alice write_spec 10 initial
       = (mkResponse 201 true (TaskData t),
          mkServer (tasks initial ++ [t]) (S (next_oid initial)) (io initial),
          emit initial (user_id alice) "task-created" t 10%Z)
       ∧ userId t = user_id alice ∧ status t = todo
       ∧ position t = 0%Z)
  ∧ created_rank <$>
      (create_all alice [(write_spec, 10%Z); (write_spec, 20%Z); (write_spec, 30%Z)]
                  initial).1
    = [Some 0%Z; Some 1%Z; Some 2%Z].
Proof.
  assert (Hr : rankless todo write_spec) by (repeat split; reflexivity).
  assert (Hf : texts_fit write_spec) by (vm_compute; split; [lia|done]).
  split; [apply reach_initial|]. split; [exact Hr|]. split.
  - pose proof (proj1 (C1_rank_assignment alice todo initial reach_initial)
                      write_spec 10%Z Hr) as H.
    rewrite decide_True in H by exact Hf.
    destruct H as (t & Ht & Hu & Hs & Hp & _). exists t. by repeat split.
  - apply (proj2 (C1_rank_assignment alice todo initial reach_initial)
                 [(write_spec, 10%Z); (write_spec, 20%Z); (write_spec, 30%Z)]).
    + by repeat constructor.
    + reflexivity.
    + vm_compute. discriminate.
Defined.

End RankAssignment.

(** ** The completion timestamp *)

Module Completion.
Import TaskModel Middleware Socket Api StoreFacts ControllerFacts Invariants Scenario.

(** How a write that finds [old] stored and leaves [t] treats [completedAt]. *)
Definition completion_transition (now : Time) (old t : Task) : Prop :=
  (status old ≠ done -> status t = done -> completedAt t = Some now)
  ∧ (status old = done -> status t ≠ done -> completedAt t = None)
  ∧ (status t = status old -> completedAt t = completedAt old).

(** The same request with one more key in its body. *)
Definition with_extra (k v : string) (req : Request) : Request :=
  mkRequest (route req) (credential req) (contentLength req)
            (mkBody (b_title (body req)) (b_description (body req))
                    (b_status (body req)) (b_position (body req))
                    ((k, v) :: b_extra (body req)))
            (query req).

Lemma updated_transition now old t st pos :
  completion_ok old -> updated_from now old t st pos ->
  completion_transition now old t.
Proof.
  unfold completion_ok, updated_from, completion_transition, completedAt_after.
  intros Hold (_ & _ & _ & Hs & _ & Hc & _). rewrite Hc, <- Hs.
  destruct (decide (status t = status old)) as [He|He].
  - repeat split; try done; intros; congruence.
  - destruct (decide (status t = done)) as [Hd|Hd]; repeat split; try done.
    intros Hnd _. destruct (completedAt old) eqn:Hco; [|done].
    exfalso. apply Hnd, Hold. done.
Qed.

Lemma existsb_cons_false {A} (f : A -> bool) l1 x l2 :
  f x = false -> existsb f (l1 ++ x :: l2) = existsb f (l1 ++ l2).
Proof. intros Hx. rewrite !existsb_app. simpl. by rewrite Hx. Qed.

Lemma router_ignores_completedAt req now srv v :
  router (with_extra "completedAt" v req) now srv = router req now srv.
Proof.
  unfold router, chain, validateNoSqlInjection, with_extra. simpl.
  replace (checkForInjection
             (body_keys
                (mkBody (b_title (body req)) (b_description (body req))
                   (b_status (body req)) (b_position (body req))
                   (("completedAt", v) :: b_extra (body req)))))
    with (checkForInjection (body_keys (body req))); [done|].
  unfold checkForInjection, body_keys. simpl.
  rewrite !(assoc_L (++)). symmetry. by apply existsb_cons_false.
Qed.

(** C2.  On every reachable server each stored task has [completedAt] set
    exactly when its lane is [done], and every successful write keeps it so:
    a creation stamps the clock reading for a task created in [done] and
    [null] otherwise; an update or status change of a stored task stamps the
    clock reading when the lane goes from another lane to [done], clears the
    field when the lane leaves [done], and keeps the stored value when the
    lane does not change.  A [completedAt] key sent by the client changes
    nothing in what the router does. *)
Theorem C2_completion_timestamp (srv : Server) :
  Reachable srv ->
  Forall completion_ok (tasks srv)
  ∧ (forall req now,
       let h := router req now srv in
       success (response_of h) = true ->
       Forall completion_ok (tasks (server_of h))
       ∧ match route req with
         | POST_tasks =>
             exists t, data (response_of h) = TaskData t
               ∧ tasks (server_of h) = tasks srv ++ [t]
               ∧ completedAt t = if decide (status t = done) then Some now else None
         | PUT_task id | PATCH_task_status id =>
             exists old t, id = ValidId (_id old) ∧ old ∈ tasks srv
               ∧ data (response_of h) = TaskData t
               ∧ tasks (server_of h) = replace_doc t (tasks srv)
               ∧ _id t = _id old
               ∧ completion_transition now old t
         | GET_tasks | DELETE_task _ => True
         end)
  ∧ (forall req now v,
       router (with_extra "completedAt" v req) now srv = router req now srv).
Proof.
  intros Hreach. pose proof (Reachable_Inv srv Hreach) as HI.
  split; [apply HI|]. split; [|intros; apply router_ignores_completedAt].
  intros req now h Hok.
  split; [apply (Reachable_Inv (server_of h)); eapply reach_step;
          [exact Hreach|apply step_request]|].
  subst h.
  destruct (router_cases req now srv)
    as [(r & Hr & Hfail)|[(u & _ & -> & _ & Hr)|[(u & _ & -> & _ & Hr)
       |(u & oid & task & _ & Hfind & Hroute)]]].
  - rewrite Hr in Hok. unfold response_of in Hok. simpl in Hok. congruence.
  - done.
  - rewrite Hr in *.
    destruct (createTask_cases u (body req) now srv)
      as [He|(ttl & st & pos & _ & _ & _ & _ & He)]; rewrite He in *; [done|].
    eexists. by repeat split.
  - apply findOne_by_id_user_Some in Hfind as (Hin & Hoid & _).
    assert (Hc : completion_ok task).
    { destruct HI as [_ _ _ Hcompl _ _]. rewrite Forall_forall in Hcompl. auto. }
    destruct Hroute as [(-> & _ & Hr)|[(-> & _)|(-> & _ & Hr)]]; [|done|];
      rewrite Hr in *.
    + destruct (updateTask_cases u task (body req) now srv)
        as [He|(st & pos & t & _ & _ & Hup & He)]; rewrite He in *; [done|].
      exists task, t. subst oid.
      pose proof (updated_transition _ _ _ _ _ Hc Hup) as Htr.
      destruct Hup as (Hid & _). done.
    + destruct (updateTaskStatus_cases u task (body req) now srv)
        as [He|(st & pos & t & _ & _ & Hup & He)]; rewrite He in *; [done|].
      exists task, t. subst oid.
      pose proof (updated_transition _ _ _ _ _ Hc Hup) as Htr.
      destruct Hup as (Hid & _). done.
Qed.

Lemma C2_completion_timestamp_witness :
  Reachable srv1
  ∧ success (response_of (router mark_done 20 srv1)) = true
  ∧ Forall completion_ok (tasks (server_of (router mark_done 20 srv1)))
  ∧ exists old t,
      ValidId 0 = ValidId (_id old)
      ∧ old ∈ tasks srv1
      ∧ data (response_of (router mark_done 20 srv1)) = TaskData t
      ∧ tasks (server_of (router mark_done 20 srv1)) = replace_doc t (tasks srv1)
      ∧ _id t = _id old
      ∧ completion_transition 20 old t.
Proof.
  assert (Hreach : Reachable srv1).
  { eapply reach_step; [apply reach_initial|apply step_request]. }
  split; [exact Hreach|]. split; [reflexivity|].
  apply (proj1 (proj2 (C2_completion_timestamp srv1 Hreach)) mark_done 20%Z eq_refl).
Defined.

End Completion.

(** ** Ownership isolation *)

Module Ownership.
Import TaskModel Middleware Socket Api StoreFacts ControllerFacts Invariants Scenario.

(** The request is an update, a delete or a status change of task [oid]. *)
Definition targets (req : Request) (oid : ObjectId) : Prop :=
  route req = PUT_task (ValidId oid)
  ∨ route req = DELETE_task (ValidId oid)
  ∨ route req = PATCH_task_status (ValidId oid).

(** The isolation property as the specification words it: whatever another
    account sends against the id, the answer is 404. *)
Definition always_not_found (srv : Server) : Prop :=
  forall (b : User) (task : Task) (req : Request) (now : Time),
    task ∈ tasks srv ->
    userId task ≠ user_id b ->
    credential req = inl b ->
    targets req (_id task) ->
    statusCode (response_of (router req now srv)) = 404%nat.

Lemma findOne_other_owner srv task uid :
  Inv srv -> task ∈ tasks srv -> userId task ≠ uid ->
  findOne_by_id_user (_id task) uid (tasks srv) = None.
Proof.
  intros HI Hin Hne.
  destruct (findOne_by_id_user _ _ _) as [t|] eqn:Hf; [|done].
  apply findOne_by_id_user_Some in Hf as (Hin' & Hid & Hu).
  assert (t = task) by (eapply unique_by_id; eauto; apply HI). by subst t.
Qed.

(** An attacker's request: [bob] updates [alice]'s task with a body that
    carries a key starting with a dollar sign. *)
Definition bob_injects : Request :=
  request (PUT_task (ValidId 0)) bob
          (mkBody None None (Some "done") None [("$set", "x")]) no_query.

(** C3, as stated, fails: the request [bob_injects] against [alice]'s task
    is answered 400 by [validateNoSqlInjection], before the ownership check
    can answer 404. *)
Lemma C3_not_always_404 : ¬ always_not_found srv1.
Proof.
  intros H.
  specialize (H bob (mkTask 0 1 "Write spec" "" todo 0 None 10 10) bob_injects 20%Z).
  assert (H404 : statusCode (response_of (router bob_injects 20 srv1)) = 404%nat).
  { apply H.
    - vm_compute. by left.
    - by vm_compute.
    - reflexivity.
    - by left. }
  vm_compute in H404. discriminate.
Qed.

(** C3, amended.  On every reachable server, an update, delete or status
    change that account [b] sends against the id of a task of another
    account never succeeds, never answers 403, carries no task, changes
    nothing on the server and emits nothing; its answer is the router's 413
    or 400 when the request trips the size or the key guard, and 404
    [TASK_NOT_FOUND] for every request that passes them. *)
Theorem C3_ownership_isolation (srv : Server) (b : User) (task : Task)
    (req : Request) (now : Time) :
  Reachable srv ->
  task ∈ tasks srv ->
  userId task ≠ user_id b ->
  credential req = inl b ->
  targets req (_id task) ->
  let h := router req now srv in
  server_of h = srv
  ∧ deliveries_of h = []
  ∧ (exists sc code, response_of h = error_response sc code
       ∧ (sc = 404 ∨ sc = 413 ∨ sc = 400)%nat)
  ∧ (passes_guards req ->
     response_of h = error_response 404 "TASK_NOT_FOUND").
Proof.
  intros Hreach Hin Hne Hcred Htarget. apply Reachable_Inv in Hreach.
  pose proof (findOne_other_owner srv task (user_id b) Hreach Hin Hne) as Hfind.
  unfold router, chain, validateRequestSize, validateNoSqlInjection, authenticate,
    passes_guards.
  rewrite Hcred.
  destruct (Z.ltb_spec maxSize (contentLength req)) as [Hbig|Hsmall]; simpl.
  { repeat split; [eauto 6|]. intros (Hlen & _). lia. }
  destruct (checkForInjection (body_keys (body req))) eqn:Hb; simpl.
  { repeat split; [eauto 7|]. by intros (_ & ? & _). }
  destruct (checkForInjection (query_keys (query req))) eqn:Hq; simpl.
  { repeat split; [eauto 7|]. by intros (_ & _ & ?). }
  destruct Htarget as [ -> | [ -> | -> ] ]; simpl; rewrite Hfind; simpl;
    (repeat split; eauto 6).
Qed.

Lemma C3_ownership_isolation_witness :
  Reachable srv1
  ∧ mkTask 0 1 "Write spec" "" todo 0 None 10 10 ∈ tasks srv1
  ∧ response_of
      (router (request (DELETE_task (ValidId 0)) bob no_body no_query) 20 srv1)
    = error_response 404 "TASK_NOT_FOUND".
Proof.
  assert (Hreach : Reachable srv1).
  { eapply reach_step; [apply reach_initial|apply step_request]. }
  assert (Hin : mkTask 0 1 "Write spec" "" todo 0 None 10 10 ∈ tasks srv1).
  { vm_compute. by left. }
  split; [exact Hreach|]. split; [exact Hin|].
  apply (C3_ownership_isolation srv1 bob _
           (request (DELETE_task (ValidId 0)) bob no_body no_query) 20%Z
           Hreach Hin).
  - by vm_compute.
  - reflexivity.
  - right. by left.
  - by vm_compute.
Defined.

End Ownership.

(** ** What a status change leaves alone *)

Module Frame.
Import TaskModel Middleware Socket Api StoreFacts ControllerFacts Invariants Scenario.

(** The tasks other than the one the route names. *)
Definition others (id : IdParam) (c : Collection) : list Task :=
  filter (fun t => ValidId (_id t) ≠ id) c.

Lemma others_replace_doc t c :
  others (ValidId (_id t)) (replace_doc t c) = others (ValidId (_id t)) c.
Proof.
  induction c as [|t' c IH]; [done|].
  unfold others, replace_doc in *. rewrite fmap_cons, !filter_cons, IH.
  destruct (decide (_id t' = _id t)) as [He|He]; [|done].
  rewrite He. by destruct (decide _).
Qed.

Lemma status_change_cases id req now srv :
  route req = PATCH_task_status id ->
  server_of (router req now srv) = srv
  ∨ exists task t lane pos,
      id = ValidId (_id task) ∧ task ∈ tasks srv
      ∧ optional_number (b_position (body req)) = Some pos
      ∧ updated_from now task t (Some lane) pos
      ∧ server_of (router req now srv)
        = with_tasks (replace_doc t (tasks srv)) srv.
Proof.
  intros Hroute.
  destruct (router_cases req now srv)
    as [(r & -> & _)|[(u & _ & _ & _ & ->)|[(u & _ & Hr & _)
       |(u & oid & task & _ & Hfind & Hcase)]]]; try (by left); try congruence.
  destruct Hcase as [(Hr & _)|[(Hr & _)|(Hr & _ & ->)]]; try congruence.
  rewrite Hroute in Hr. injection Hr as ->.
  apply findOne_by_id_user_Some in Hfind as (Hin & <- & _).
  destruct (updateTaskStatus_cases u task (body req) now srv)
    as [->|(lane & pos & t & _ & Hpos & Hup & ->)]; [by left|].
  right. by exists task, t, lane, pos.
Qed.

(** C7.  Whatever a status-change request does, the tasks other than the
    one it names are the same records afterwards, in the same order: in
    particular each keeps its owner, lane and rank. *)
Theorem C7_status_change_frame (req : Request) (now : Time) (srv : Server)
    (id : IdParam) :
  route req = PATCH_task_status id ->
  let srv' := server_of (router req now srv) in
  others id (tasks srv') = others id (tasks srv)
  ∧ (forall t, ValidId (_id t) ≠ id -> t ∈ tasks srv' ↔ t ∈ tasks srv)
  ∧ position <$> others id (tasks srv') = position <$> others id (tasks srv).
Proof.
  intros Hroute srv'.
  assert (Hothers : others id (tasks srv') = others id (tasks srv)).
  { subst srv'.
    destruct (status_change_cases id req now srv Hroute)
      as [->|(task & t & lane & pos & -> & _ & _ & Hup & ->)]; [done|].
    destruct Hup as (<- & _). simpl. apply others_replace_doc. }
  split; [done|]. split; [|by rewrite Hothers].
  intros t Ht.
  assert (Hmem : forall c, t ∈ c ↔ t ∈ others id c).
  { intros c. unfold others. rewrite list_elem_of_filter. tauto. }
  by rewrite (Hmem (tasks srv')), (Hmem (tasks srv)), Hothers.
Qed.

Lemma C7_status_change_frame_witness :
  route start_first = PATCH_task_status (ValidId 0)
  ∧ position <$> others (ValidId 0) (tasks (server_of (router start_first 20 srv2)))
    = [1%Z]
  ∧ status <$> tasks (server_of (router start_first 20 srv2)) = [inprogress; todo].
Proof.
  split; [reflexivity|]. split; [|reflexivity].
  rewrite (proj2 (proj2 (C7_status_change_frame start_first 20%Z srv2 (ValidId 0)
                           eq_refl))).
  reflexivity.
Defined.

(** The [(id, rank)] pairs of a collection. *)
Definition ranks_by_id (c : Collection) : list (ObjectId * Z) :=
  (fun t => (_id t, position t)) <$> c.

Lemma replace_doc_same_rank t task c :
  NoDup (_id <$> c) -> task ∈ c -> _id t = _id task -> position t = position task ->
  ranks_by_id (replace_doc t c) = ranks_by_id c.
Proof.
  intros Hnd Hin Hid Hpos. unfold ranks_by_id, replace_doc.
  rewrite <- list_fmap_compose. apply list_fmap_ext. intros i t' Ht'. simpl.
  destruct (decide (_id t' = _id t)) as [He|]; [|done].
  apply list_elem_of_lookup_2 in Ht'.
  assert (t' = task); [|subst; congruence].
  eapply unique_by_id; eauto. congruence.
Qed.

(** The HTTP request that carries what the client's [func] sends. *)
Definition to_server (f : TaskService.ApiRequest) (cred : User + string)
    (len : Z) : Request :=
  mkRequest (TaskService.api_route f) cred len (TaskService.api_body f) no_query.

Lemma rankless_status_change req now srv id :
  Inv srv ->
  route req = PATCH_task_status id ->
  b_position (body req) = None ->
  ranks_by_id (tasks (server_of (router req now srv))) = ranks_by_id (tasks srv).
Proof.
  intros HI Hroute Hpos.
  destruct (status_change_cases id req now srv Hroute)
    as [->|(task & t & lane & pos & -> & Hin & Hnum & Hup & ->)]; [done|].
  rewrite Hpos in Hnum. injection Hnum as <-.
  destruct Hup as (Hid & _ & _ & _ & Hp & _). simpl in *.
  eapply replace_doc_same_rank; eauto. apply HI.
Qed.

(** C9.  The request that [taskService.updateTaskStatus] schedules is a
    PATCH of the task's status whose body has the single key [status], so it
    names no rank; and on every reachable server a status change whose body
    has no [position] leaves the rank of every task, the moved one included,
    as it was. *)
Theorem C9_drag_keeps_rank (srv : Server) (taskId : ObjectId) (st : string)
    (s : TaskService.State) (cred : User + string) (len : Z) (now : Time) :
  Reachable srv ->
  let call := TaskService.updateTaskStatus taskId st s in
  (exists ts tm,
     TaskService.timeouts call.2 = ts ++ [tm]
     ∧ TaskService.timeout_id tm = call.1
     ∧ TaskService.api_route (TaskService.func tm)
       = PATCH_task_status (ValidId taskId)
     ∧ body_keys (TaskService.api_body (TaskService.func tm)) = ["status"]
     ∧ b_status (TaskService.api_body (TaskService.func tm)) = Some st
     ∧ ranks_by_id
         (tasks (server_of (router (to_server (TaskService.func tm) cred len)
                                   now srv)))
       = ranks_by_id (tasks srv))
  ∧ (forall req id,
       route req = PATCH_task_status id ->
       b_position (body req) = None ->
       ranks_by_id (tasks (server_of (router req now srv)))
       = ranks_by_id (tasks srv)).
Proof.
  intros Hreach call. apply Reachable_Inv in Hreach. split.
  - eexists _, _. split; [reflexivity|]. repeat split.
    by eapply rankless_status_change.
  - intros req id. by apply rankless_status_change.
Qed.

Lemma C9_drag_keeps_rank_witness :
  Reachable srv2
  ∧ ranks_by_id (tasks (server_of (router start_first 20 srv2)))
    = [(0%nat, 0%Z); (1%nat, 1%Z)].
Proof.
  assert (Hreach : Reachable srv2).
  { eapply reach_step; [|apply step_request].
    eapply reach_step; [apply reach_initial|apply step_request]. }
  split; [exact Hreach|].
  rewrite (proj2 (C9_drag_keeps_rank srv2 0 "inprogress" TaskService.initial
                    (inl alice) 64 20 Hreach)
                 start_first (ValidId 0) eq_refl eq_refl).
  reflexivity.
Defined.

End Frame.

(** ** Fan-out scoping *)

Module FanOut.
Import TaskModel Middleware Socket Api StoreFacts ControllerFacts Invariants Scenario.

(** The connected sockets of an account. *)
Definition sessions_of (uid : ObjectId) (i : Io) : list Conn :=
  filter (fun c => user_id (socket_user c) = uid) i.

(** The task a successful mutation answers with. *)
Definition canonical (r : Response) : option Task :=
  match data r with
  | TaskData t | DeletedData _ t => Some t
  | ErrorData _ | ListData _ _ _ _ _ => None
  end.

Lemma user_room_inj a b :
  user_room (toString a) = user_room (toString b) -> a = b.
Proof.
  unfold user_room, toString. intros H.
  apply (inj (String.app "user:")) in H. by apply (inj pretty) in H.
Qed.

Lemma room_members uid i :
  Forall joined_own_room i ->
  filter (fun c => user_room (toString uid) ∈ rooms c) i = sessions_of uid i.
Proof.
  unfold sessions_of. induction 1 as [|c i Hc _ IH]; [done|].
  rewrite !filter_cons, IH. unfold joined_own_room in Hc.
  destruct (decide (user_id (socket_user c) = uid)) as [He|He].
  - rewrite decide_True; [done|]. rewrite Hc, He. by left.
  - rewrite decide_False; [done|]. rewrite Hc, list_elem_of_singleton.
    intros Hr. by apply user_room_inj in Hr.
Qed.

Lemma emit_to_sessions srv i uid kind ev_kind t now :
  Forall joined_own_room i -> io srv = Some i ->
  emitTaskEvent i (toString uid) kind t now
  = to_room_emit i (user_room (toString uid)) (ev_kind t) ->
  emit srv uid kind t now
  = (fun c => (socket_id c, ev_kind t)) <$> sessions_of uid i.
Proof.
  intros Hrooms Hio Hemit. unfold emit. rewrite Hio, Hemit.
  unfold to_room_emit. by rewrite room_members.
Qed.

Lemma socket_by_id (i : Io) c c' :
  NoDup (socket_id <$> i) -> c ∈ i -> c' ∈ i -> socket_id c = socket_id c' -> c = c'.
Proof.
  induction i as [|x i IH].
  { intros _ Hc. by apply elem_of_nil in Hc. }
  rewrite fmap_cons, NoDup_cons, !elem_of_cons.
  intros [Hx Hnd] [ -> | Hc ] [ -> | Hc' ] Hid; auto.
  - exfalso. apply Hx. rewrite Hid. by apply list_elem_of_fmap_2.
  - exfalso. apply Hx. rewrite <- Hid. by apply list_elem_of_fmap_2.
Qed.

(** C4.  On every reachable server, a successful creation, update, delete
    or status change by account [a] emits one event that carries the task of
    the answer, and the sockets that receive it are exactly the connected
    sockets of account [a]: each of them, and no socket of another account.
    (The request is an HTTP request and names no socket, so the session that
    sent it receives the event on its socket like the others.) *)
Theorem C4_fanout_scoping (srv : Server) (i : Io) (req : Request) (now : Time)
    (a : User) :
  Reachable srv ->
  io srv = Some i ->
  credential req = inl a ->
  route req ≠ GET_tasks ->
  let h := router req now srv in
  success (response_of h) = true ->
  exists ev,
    canonical (response_of h) = Some (ev_task ev)
    ∧ deliveries_of h = (fun c => (socket_id c, ev)) <$> sessions_of (user_id a) i
    ∧ (forall c, c ∈ i ->
         (socket_id c, ev) ∈ deliveries_of h
         ↔ user_id (socket_user c) = user_id a)
    ∧ (forall d, d ∈ deliveries_of h -> d.2 = ev).
Proof.
  intros Hreach Hio Hcred Hroute h Hok.
  apply Reachable_Inv in Hreach as [_ _ _ _ Hrooms Hsock].
  specialize (Hrooms i Hio). specialize (Hsock i Hio).
  assert (Hshape : exists ev,
             canonical (response_of h) = Some (ev_task ev)
             ∧ deliveries_of h
               = (fun c => (socket_id c, ev)) <$> sessions_of (user_id a) i).
  { subst h.
    destruct (router_cases req now srv)
      as [(r & Hr & Hfail)|[(u & _ & Hr & _)|[(u & Hu & _ & _ & Hr)
         |(u & oid & task & Hu & _ & Hcase)]]]; [..|congruence| |].
    - rewrite Hr in Hok. unfold response_of in Hok. simpl in Hok. congruence.
    - rewrite Hr in *. assert (u = a) as -> by congruence.
      destruct (createTask_cases a (body req) now srv)
        as [He|(ttl & st & pos & _ & _ & _ & _ & He)]; rewrite He in *; [done|].
      eexists (mkEvent "task-created" None _ now). split; [reflexivity|].
      by apply (emit_to_sessions srv i (user_id a) "task-created"
                  (fun t => mkEvent "task-created" None t now)).
    - assert (u = a) as -> by congruence.
      destruct Hcase as [(_ & _ & Hr)|[(_ & Hr)|(_ & _ & Hr)]]; rewrite Hr in *.
      + destruct (updateTask_cases a task (body req) now srv)
          as [He|(st & pos & t & _ & _ & _ & He)]; rewrite He in *; [done|].
        eexists (mkEvent "task-updated" None _ now). split; [reflexivity|].
        by apply (emit_to_sessions srv i (user_id a) "task-updated"
                    (fun t => mkEvent "task-updated" None t now)).
      + eexists (mkEvent "task-deleted" (Some (_id task)) task now).
        split; [reflexivity|].
        by apply (emit_to_sessions srv i (user_id a) "task-deleted"
                    (fun t => mkEvent "task-deleted" (Some (_id t)) t now)).
      + destruct (updateTaskStatus_cases a task (body req) now srv)
          as [He|(st & pos & t & _ & _ & _ & He)]; rewrite He in *; [done|].
        eexists (mkEvent "task-status-updated" None _ now). split; [reflexivity|].
        by apply (emit_to_sessions srv i (user_id a) "task-status-updated"
                    (fun t => mkEvent "task-status-updated" None t now)). }
  destruct Hshape as (ev & Hcanon & Hdel). exists ev.
  split; [done|]. split; [done|]. rewrite Hdel. split.
  - intros c Hc. rewrite list_elem_of_fmap. unfold sessions_of. split.
    + intros (c' & [= Hid] & Hc'). apply list_elem_of_filter in Hc' as [Hu Hc'].
      by rewrite (socket_by_id i c c' Hsock Hc Hc' Hid).
    + intros Hu. exists c. split; [done|]. by apply list_elem_of_filter.
  - intros d Hd. apply list_elem_of_fmap in Hd as (c & -> & _). done.
Qed.

(** Two sockets of [alice] and one of [bob] are connected to [srv1]. *)
Definition srv1_online : Server :=
  mkServer (tasks srv1) (next_oid srv1)
           (Some (connect 2 (inl alice) (connect 1 (inl bob) (connect 0 (inl alice) [])))).

Lemma C4_fanout_scoping_witness :
  Reachable srv1_online
  ∧ success (response_of (router mark_done 20 srv1_online)) = true
  ∧ fst <$> deliveries_of (router mark_done 20 srv1_online) = [0; 2]%nat.
Proof.
  assert (Hreach : Reachable srv1_online).
  { eapply reach_step.
    2:{ apply (step_connect 2 (inl alice)
                 (connect 1 (inl bob) (connect 0 (inl alice) []))
                 (mkServer (tasks srv1) (next_oid srv1)
                    (Some (connect 1 (inl bob) (connect 0 (inl alice) []))))
                 eq_refl).
        refine (bool_decide_unpack _ _). by vm_compute. }
    eapply reach_step.
    2:{ apply (step_connect 1 (inl bob) (connect 0 (inl alice) [])
                 (mkServer (tasks srv1) (next_oid srv1)
                    (Some (connect 0 (inl alice) [])))
                 eq_refl).
        refine (bool_decide_unpack _ _). by vm_compute. }
    eapply reach_step.
    2:{ apply (step_connect 0 (inl alice) [] srv1 eq_refl).
        refine (bool_decide_unpack _ _). by vm_compute. }
    eapply reach_step; [apply reach_initial|apply step_request]. }
  split; [exact Hreach|]. split; [reflexivity|].
  destruct (C4_fanout_scoping srv1_online _ mark_done 20%Z alice Hreach
              eq_refl eq_refl ltac:(discriminate) eq_refl)
    as (ev & _ & Hdel & _).
  rewrite Hdel. reflexivity.
Defined.

End FanOut.

(** ** Page size of the task list *)

Module Pagination.
Import TaskModel Middleware Socket Api StoreFacts ControllerFacts Invariants Scenario.

(** A list request of [u] that asks for pages of [z] tasks. *)
Definition list_request (u : User) (z : Z) : Request :=
  request GET_tasks u no_body (mkQuery None None (Some (IntLit z)) []).

(** The clamping the specification describes: a page size above 100 is
    still served. *)
Definition serves_large_pages : Prop :=
  forall (srv : Server) (u : User) (z : Z) (now : Time),
    (100 < z)%Z ->
    statusCode (response_of (router (list_request u z) now srv)) = 200%nat.

(** C8, as stated, fails: a list request with [limit=101] is not served with
    a clamped page, [validateTaskQuery] refuses it and the answer is 400. *)
Lemma C8_large_limit_rejected : ¬ serves_large_pages.
Proof.
  intros H. specialize (H srv1 alice 101%Z 20%Z ltac:(lia)).
  vm_compute in H. discriminate.
Qed.

Lemma validateTaskQuery_limit q :
  validateTaskQuery q = [] ->
  exists l, parseInt (default (IntLit 50) (q_limit q)) = Some l ∧ (1 <= l <= 100)%Z.
Proof.
  unfold validateTaskQuery. intros H.
  apply app_eq_nil in H as [_ H]. apply app_eq_nil in H as [_ H].
  apply optional_nil in H.
  destruct (q_limit q) as [[z|raw]|]; simpl in *; [|done|exists 50%Z; split; [done|lia]].
  exists z. split; [done|]. apply andb_true_iff in H as [H1 H2]. lia.
Qed.

Lemma limit_docs_length l (ts : list Task) :
  (1 <= l)%Z -> (Z.of_nat (length (limit_docs l ts)) <= l)%Z.
Proof.
  intros Hl. unfold limit_docs.
  destruct (Z.eqb_spec l 0); [lia|]. rewrite length_take. lia.
Qed.

(** C8, amended.  A list request changes nothing on the server.  When it is
    answered with a page, the page size in force is between 1 and 100 (the
    [limit] parameter, 50 without one) and the page holds at most that many
    tasks, so never more than 100.  A request whose [limit] is an integer
    above 100 is not served: it fails, with 400 [VALIDATION_ERROR] once it is
    past the router's guards and authenticated. *)
Theorem C8_page_size (srv : Server) (req : Request) (now : Time) :
  route req = GET_tasks ->
  let h := router req now srv in
  server_of h = srv
  ∧ (forall ts p l total pages,
       data (response_of h) = ListData ts p l total pages ->
       parseInt (default (IntLit 50) (q_limit (query req))) = Some l
       ∧ (1 <= l <= 100)%Z
       ∧ (Z.of_nat (length ts) <= l)%Z
       ∧ (length ts <= 100)%nat)
  ∧ (forall z, q_limit (query req) = Some (IntLit z) -> (100 < z)%Z ->
       success (response_of h) = false
       ∧ (forall u, passes_guards req -> credential req = inl u ->
            response_of h = error_response 400 "VALIDATION_ERROR")).
Proof.
  intros Hroute h. subst h.
  unfold router, chain, validateRequestSize, validateNoSqlInjection, authenticate,
    passes_guards.
  rewrite Hroute.
  destruct (Z.ltb_spec maxSize (contentLength req)) as [Hbig|Hsmall]; simpl.
  { repeat split; try done. intros u (Hlen & _). lia. }
  destruct (checkForInjection (body_keys (body req))) eqn:Hb; simpl.
  { repeat split; try done. by intros u (_ & ? & _). }
  destruct (checkForInjection (query_keys (query req))) eqn:Hq; simpl.
  { repeat split; try done. by intros u (_ & _ & ?). }
  destruct (credential req) as [u|code] eqn:Hcred; simpl; [|by repeat split].
  destruct (validateTaskQuery (query req)) as [|msg msgs] eqn:Hv; simpl.
  - destruct (validateTaskQuery_limit _ Hv) as (l & Hl & Hrange).
    split; [done|]. split.
    + unfold getTasks. rewrite Hl.
      destruct (parseInt (default (IntLit 1) (q_page (query req)))) as [p|];
        [|done].
      destruct (_ <? 0)%Z; [done|]. unfold response_of. simpl.
      intros ts p' l' total pages [= <- <- <- <- <-].
      pose proof (limit_docs_length l
                    (drop (Z.to_nat ((p - 1) * l))
                       (sort_by list_order
                          (filter (matches_query (user_id u)
                                     (q_status (query req) ≫= parse_status))
                                  (tasks srv))))
                    ltac:(lia)).
      repeat split; try done; lia.
    + intros z Hz Hlarge. rewrite Hz in Hl. simpl in Hl. injection Hl as <-. lia.
  - split; [done|]. split; [done|]. by repeat split.
Qed.

Lemma C8_page_size_witness :
  route (list_request alice 1) = GET_tasks
  ∧ (exists p total pages,
       data (response_of (router (list_request alice 1) 30 srv2))
       = ListData [mkTask 0 1 "Write spec" "" todo 0 None 10 10] p 1 total pages)
  ∧ (length [mkTask 0 1 "Write spec" "" todo 0 None 10 10] <= 100)%nat.
Proof.
  split; [reflexivity|]. split; [by eexists _, _, _|].
  apply (proj1 (proj2 (C8_page_size srv2 (list_request alice 1) 30%Z eq_refl))
               _ 1%Z 1%Z 2%Z 2%Z eq_refl).
Defined.

End Pagination.

(** ** Optimistic rollback *)

Module Rollback.
Import TaskModel Middleware.

Lemma service_step_next e s s' :
  TaskService.step e s = Some s' ->
  (TaskService.next_timeout s <= TaskService.next_timeout s')%nat.
Proof.
  destruct e as [taskId taskData|taskId st| |now|id|id o]; simpl.
  - intros [= <-]. simpl. lia.
  - intros [= <-]. simpl. lia.
  - intros [= <-]. simpl. lia.
  - unfold TaskService.tick. destruct (_ <=? _)%Z; [|done]. intros [= <-]. simpl. lia.
  - unfold TaskService.run_timeout. destruct (List.find _ _); [|done].
    destruct (_ <=? _)%Z; [|done]. intros [= <-]. simpl. lia.
  - unfold TaskService.complete. destruct (List.find _ _) as [[? key]|]; [|done].
    intros [= <-]. simpl. lia.
Qed.

(** The activation [p] of [handleTaskDrop] is suspended with the snapshot
    [orig], and [p] is an id the service has already handed out. *)
Definition holds (p : nat) (orig : list Task) (s : Dashboard.State) : Prop :=
  Dashboard.suspended s !! p = Some orig
  ∧ (p < TaskService.next_timeout (Dashboard.service s))%nat.

Lemma handleTaskDrop_holds p orig taskId newStatus s :
  holds p orig s -> holds p orig (Dashboard.handleTaskDrop taskId newStatus s).
Proof.
  intros [Hs Hp]. unfold Dashboard.handleTaskDrop.
  destruct (List.find _ _) as [taskToMove|]; [|done].
  destruct (decide _); [done|]. split; simpl; [|lia].
  rewrite lookup_insert_ne; [done|lia].
Qed.

Lemma step_service e s :
  (forall id o, e ≠ TaskService.Complete id o) ->
  Dashboard.step (Dashboard.Service e) s
  = svc ← TaskService.step e (Dashboard.service s);
    Some (Dashboard.mkState (Dashboard.tasks s) (Dashboard.alerts s) svc
                            (Dashboard.suspended s)).
Proof. intros He. destruct e; try reflexivity. by destruct (He id o). Qed.

Lemma step_holds p orig e s s' :
  (forall o, e ≠ Dashboard.Service (TaskService.Complete p o)) ->
  Dashboard.step e s = Some s' ->
  holds p orig s -> holds p orig s'.
Proof.
  intros Hne Hstep Hh. destruct e as [taskId newStatus|update|e].
  { injection Hstep as <-. by apply handleTaskDrop_holds. }
  { injection Hstep as <-. exact Hh. }
  destruct Hh as [Hs Hp].
  assert (Hcases : (forall id o, e ≠ TaskService.Complete id o)
                   ∨ exists id o, e = TaskService.Complete id o).
  { destruct e; try (left; intros; discriminate). right. eauto. }
  destruct Hcases as [Hother|(id & o & ->)].
  - rewrite (step_service e s Hother) in Hstep.
    destruct (TaskService.step e (Dashboard.service s)) as [svc|] eqn:Hsvc; [|done].
    injection Hstep as <-. split; simpl; [done|].
    apply service_step_next in Hsvc. lia.
  - simpl in Hstep.
    destruct (TaskService.complete id o (Dashboard.service s)) as [svc|] eqn:Hsvc;
      [|done].
    simpl in Hstep. injection Hstep as <-.
    assert (id ≠ p) by (intros ->; by apply (Hne o)).
    apply (service_step_next (TaskService.Complete id o)) in Hsvc.
    unfold Dashboard.resume. simpl.
    destruct (Dashboard.suspended s !! id) as [orig'|]; [destruct o|];
      (split; simpl; [by rewrite lookup_delete_ne|lia]).
Qed.

Lemma run_holds p orig es s s' :
  Forall (fun e => forall o, e ≠ Dashboard.Service (TaskService.Complete p o)) es ->
  Dashboard.run es s = Some s' ->
  holds p orig s -> holds p orig s'.
Proof.
  intros Hes. revert s. induction Hes as [|e es He _ IH]; intros s; simpl.
  - by intros [= <-].
  - destruct (Dashboard.step e s) as [s1|] eqn:Hstep; [|done]. simpl.
    intros Hrun Hh. eapply IH; [exact Hrun|]. by eapply step_holds.
Qed.

(** The drop is a move: the task is in the list, in another lane. *)
Definition is_move (taskId : ObjectId) (newStatus : Status) (s : Dashboard.State)
    : Prop :=
  exists taskToMove,
    List.find (fun task => bool_decide (_id task = taskId)) (Dashboard.tasks s)
    = Some taskToMove
    ∧ status taskToMove ≠ newStatus.

(** C5.  Let a drop move a task, so that the list is updated optimistically
    and a status update is handed to the task service, whose promise is [p].
    Whatever follows (further drops, updates of the list by the other
    handlers, time passing, timeouts running, answers arriving), short of
    settling [p], when the call of [p] then fails the list is again exactly
    the list before the drop, exactly one message is added to the alerts,
    and nothing is sent or scheduled: no request goes out, no timeout is
    set, and the activation is over. *)
Theorem C5_optimistic_rollback (s : Dashboard.State) (taskId : ObjectId)
    (newStatus : Status) (es : list Dashboard.Event) (e : TaskService.ApiError)
    (s2 s3 : Dashboard.State) :
  is_move taskId newStatus s ->
  let p := TaskService.next_timeout (Dashboard.service s) in
  let s1 := Dashboard.handleTaskDrop taskId newStatus s in
  Forall (fun ev => forall o, ev ≠ Dashboard.Service (TaskService.Complete p o)) es ->
  Dashboard.run es s1 = Some s2 ->
  Dashboard.step (Dashboard.Service (TaskService.Complete p (TaskService.Failed e))) s2
  = Some s3 ->
  Dashboard.tasks s3 = Dashboard.tasks s
  ∧ Dashboard.alerts s3 = Dashboard.alerts s2 ++ [Dashboard.errorMessage e]
  ∧ TaskService.requests (Dashboard.service s3)
    = TaskService.requests (Dashboard.service s2)
  ∧ TaskService.timeouts (Dashboard.service s3)
    = TaskService.timeouts (Dashboard.service s2)
  ∧ Dashboard.suspended s3 !! p = None.
Proof.
  intros (taskToMove & Hfind & Hstatus) p s1 Hes Hrun Hfail.
  assert (H1 : holds p (Dashboard.tasks s) s1).
  { subst s1 p. unfold Dashboard.handleTaskDrop. rewrite Hfind.
    rewrite decide_False by done. split; simpl; [|lia].
    by rewrite lookup_insert_eq. }
  pose proof (run_holds p _ es s1 s2 Hes Hrun H1) as [Hs2 _].
  simpl in Hfail.
  destruct (TaskService.complete p _ (Dashboard.service s2)) as [svc|] eqn:Hsvc;
    [|done].
  simpl in Hfail. injection Hfail as <-.
  unfold Dashboard.resume. simpl. rewrite Hs2. simpl.
  revert Hsvc. unfold TaskService.complete.
  destruct (List.find _ (TaskService.awaiting _)) as [[? key]|]; [|done].
  intros [= <-]. simpl.
  repeat split. by rewrite lookup_delete_eq.
Qed.

(** A board with one task in [todo]; it is dragged to [done], the timeout
    runs at 200 ms and the request fails with the server's message. *)
Definition board : Dashboard.State :=
  Dashboard.mkState [mkTask 0 1 "Write spec" "" todo 0 None 10 10] []
                    TaskService.initial ∅.

Definition after_drop : list Dashboard.Event :=
  [Dashboard.Service (TaskService.Tick 200); Dashboard.Service (TaskService.Run 0)].

Definition refused : TaskService.ApiError :=
  TaskService.mkApiError (Some "Task not found or access denied") None.

Lemma C5_optimistic_rollback_witness :
  is_move 0 done board
  ∧ exists s2 s3,
      Dashboard.run after_drop (Dashboard.handleTaskDrop 0 done board) = Some s2
      ∧ Dashboard.step
          (Dashboard.Service (TaskService.Complete 0 (TaskService.Failed refused)))
          s2 = Some s3
      ∧ Dashboard.tasks s3 = Dashboard.tasks board
      ∧ Dashboard.alerts s3 = ["Task not found or access denied"]
      ∧ length (TaskService.requests (Dashboard.service s3)) = 1%nat.
Proof.
  assert (Hmove : is_move 0 done board).
  { eexists. split; [reflexivity|discriminate]. }
  assert (Hrun : exists s2 s3,
             Dashboard.run after_drop (Dashboard.handleTaskDrop 0 done board)
             = Some s2
             ∧ Dashboard.step
                 (Dashboard.Service
                    (TaskService.Complete 0 (TaskService.Failed refused)))
                 s2 = Some s3
             ∧ Dashboard.alerts s2 = []
             ∧ length (TaskService.requests (Dashboard.service s2)) = 1%nat).
  { eexists _, _. split; [vm_compute; reflexivity|].
    split; [vm_compute; reflexivity|]. split; reflexivity. }
  destruct Hrun as (s2 & s3 & Hrun & Hfail & Halerts & Hsent).
  split; [exact Hmove|]. exists s2, s3.
  split; [exact Hrun|]. split; [exact Hfail|].
  destruct (C5_optimistic_rollback board 0 done after_drop refused s2 s3 Hmove)
    as (Htasks & Ha & Hreq & _).
  - repeat constructor; intros o; discriminate.
  - exact Hrun.
  - exact Hfail.
  - split; [exact Htasks|]. split; [by rewrite Ha, Halerts|]. by rewrite Hreq.
Defined.

End Rollback.

(** ** Debounced calls *)

Module Debounce.
Import TaskModel Middleware TaskService.

(** The promise [id] was handed out, its timeout is not scheduled any more
    and its callback is not waiting for an answer. *)
Definition dropped (id : nat) (s : State) : Prop :=
  (id < next_timeout s)%nat
  ∧ (id ∉ timeout_id <$> timeouts s)
  ∧ (id ∉ (awaiting s).*1).

Lemma clearTimeout_ids id ts x :
  x ∈ timeout_id <$> clearTimeout id ts -> x ∈ timeout_id <$> ts.
Proof.
  unfold clearTimeout. rewrite !list_elem_of_fmap.
  intros (t & -> & Ht). apply list_elem_of_filter in Ht as [_ Ht]. eauto.
Qed.

Lemma debounce_dropped id key f delay s :
  dropped id s -> dropped id (debounce key f delay s).2.
Proof.
  intros (Hlt & Ht & Ha). unfold dropped, debounce. simpl.
  repeat split; [lia| |done].
  rewrite fmap_app, elem_of_app. simpl. rewrite list_elem_of_singleton.
  intros [Hin| -> ]; [|lia]. apply Ht.
  destruct (debounceMap s !! key); [by eapply clearTimeout_ids|done].
Qed.

Lemma cancel_ids (m : gmap string nat) ts x :
  x ∈ timeout_id <$> map_fold (fun _ id ts => clearTimeout id ts) ts m ->
  x ∈ timeout_id <$> ts.
Proof.
  revert m. apply (map_fold_weak_ind
           (fun r _ => x ∈ timeout_id <$> r -> x ∈ timeout_id <$> ts)); [done|].
  intros k id m' r _ IH Hin. apply IH. by eapply clearTimeout_ids.
Qed.

Lemma step_dropped id e s s' :
  step e s = Some s' -> dropped id s -> ¬ is_settled id s ->
  dropped id s' ∧ ¬ is_settled id s'.
Proof.
  unfold is_settled. rewrite !bool_decide_spec.
  intros Hstep (Hlt & Ht & Ha) Hns.
  destruct e as [taskId taskData|taskId st| |now|id'|id' o]; simpl in Hstep.
  - injection Hstep as <-. split; [by apply debounce_dropped|done].
  - injection Hstep as <-. split; [by apply debounce_dropped|done].
  - injection Hstep as <-. split; [|done]. repeat split; simpl; [done| |done].
    intros Hin. by apply Ht, (cancel_ids (debounceMap s)).
  - unfold tick in Hstep. destruct (_ <=? _)%Z; [|done]. by injection Hstep as <-.
  - unfold run_timeout in Hstep.
    destruct (List.find _ (timeouts s)) as [t|] eqn:Hfind; [|done].
    destruct (_ <=? _)%Z; [|done]. injection Hstep as <-.
    apply find_some in Hfind as [Hin Hid]. apply bool_decide_eq_true in Hid.
    split; [|done]. repeat split; simpl; [done| |].
    + intros Hx. by apply Ht, (clearTimeout_ids id').
    + rewrite fmap_app, elem_of_app. simpl. rewrite list_elem_of_singleton.
      intros [?| ->]; [done|]. apply Ht. rewrite <- Hid.
      apply list_elem_of_fmap_2. by apply list_elem_of_In.
  - unfold complete in Hstep.
    destruct (List.find _ (awaiting s)) as [[i key]|] eqn:Hfind; [|done].
    injection Hstep as <-.
    apply find_some in Hfind as [Hin Hid]. apply bool_decide_eq_true in Hid.
    simpl in Hid. subst i. split.
    + repeat split; simpl; [done|done|].
      rewrite list_elem_of_fmap. intros ([i k] & -> & Hf).
      apply list_elem_of_filter in Hf as [_ Hf]. apply Ha.
      by apply (list_elem_of_fmap_2 fst) in Hf.
    + simpl. rewrite fmap_app, elem_of_app. simpl. rewrite list_elem_of_singleton.
      intros [?| ->]; [done|]. apply Ha.
      apply list_elem_of_In in Hin. by apply (list_elem_of_fmap_2 fst) in Hin.
Qed.

(** A promise whose timeout was cleared before it ran is never settled,
    whatever happens afterwards. *)
Lemma dropped_never_settles id es s s' :
  run es s = Some s' -> dropped id s -> ¬ is_settled id s -> ¬ is_settled id s'.
Proof.
  revert s. induction es as [|e es IH]; intros s; simpl.
  - by intros [= <-].
  - destruct (step e s) as [s1|] eqn:Hstep; [|done]. simpl.
    intros Hrun Hd Hns. destruct (step_dropped id e s s1 Hstep Hd Hns).
    by eapply IH.
Qed.

(** When the later call finds the earlier timeout registered under the key
    and still scheduled, it clears it: the earlier promise is dropped. *)
Lemma debounce_supersedes id key f delay s :
  debounceMap s !! key = Some id ->
  (id < next_timeout s)%nat ->
  id ∉ (awaiting s).*1 ->
  dropped id (debounce key f delay s).2.
Proof.
  intros Hmap Hlt Ha. unfold dropped, debounce. rewrite Hmap. simpl.
  repeat split; [lia| |done].
  rewrite fmap_app, elem_of_app. simpl. rewrite list_elem_of_singleton.
  intros [Hin| ->]; [|lia].
  unfold clearTimeout in Hin. apply list_elem_of_fmap in Hin as (t & -> & Ht).
  by apply list_elem_of_filter in Ht as [Hne _].
Qed.

Definition patch_status (taskId : ObjectId) (st : string) : ApiRequest :=
  mkApiRequest (PATCH_task_status (ValidId taskId)) (status_body st).

(** *** A burst that starts with nothing registered under the key

    Moves of one task at [calls] = (time, lane), each less than 200 ms after
    the one before. *)

Fixpoint burst (taskId : ObjectId) (calls : list (Time * string)) : list Event :=
  match calls with
  | [] => []
  | (t, st) :: calls' => Tick t :: UpdateTaskStatus taskId st :: burst taskId calls'
  end.

Fixpoint rapid (prev : Time) (calls : list (Time * string)) : Prop :=
  match calls with
  | [] => True
  | (t, _) :: calls' => (prev <= t < prev + 200)%Z ∧ rapid t calls'
  end.

Definition status_key (taskId : ObjectId) : string := "status-" +:+ toString taskId.

Lemma last_cons {A} (l : list A) x d : List.last (x :: l) d = List.last l x.
Proof.
  revert x d. induction l as [|y l IH]; intros x d; [done|].
  change (List.last (y :: l) d = List.last (y :: l) x). by rewrite !IH.
Qed.

Lemma clearTimeout_last base id key d f :
  Forall (fun t => (timeout_id t < id)%nat) base ->
  clearTimeout id (base ++ [mkTimeout id key d f]) = base.
Proof.
  intros Hbase. unfold clearTimeout. rewrite filter_app.
  rewrite filter_cons, decide_False by (intros H; by apply H).
  rewrite filter_nil, app_nil_r.
  induction Hbase as [|t base Ht _ IH]; [done|].
  rewrite filter_cons, decide_True by lia. by rewrite IH.
Qed.

(** After a call of the burst: its timeout is the last one scheduled and the
    one registered under the key. *)
Record armed (taskId : ObjectId) (base : list Timeout) (sent : list ApiRequest)
    (t : Time) (st : string) (s : State) : Prop := mkArmed {
  armed_timeouts :
    timeouts s = base ++ [mkTimeout (pred (next_timeout s)) (status_key taskId)
                                    (t + 200)%Z (patch_status taskId st)];
  armed_base : Forall (fun tm => (timeout_id tm < pred (next_timeout s))%nat) base;
  armed_map : debounceMap s !! status_key taskId = Some (pred (next_timeout s));
  armed_next : (0 < next_timeout s)%nat;
  armed_clock : clock s = t;
  armed_requests : requests s = sent
}.

Lemma burst_rearms taskId base sent calls :
  forall t st s,
    armed taskId base sent t st s ->
    rapid t calls ->
    exists s',
      run (burst taskId calls) s = Some s'
      ∧ armed taskId base sent (List.last (calls.*1) t)
              (List.last (calls.*2) st) s'
      ∧ awaiting s' = awaiting s
      ∧ next_timeout s' = (next_timeout s + length calls)%nat.
Proof.
  induction calls as [|[t' st'] calls IH]; intros t st s Harmed Hrapid.
  { exists s. simpl. split; [done|]. split; [done|]. split; [done|lia]. }
  destruct Hrapid as [Ht Hrapid].
  destruct Harmed as [Hts Hbase Hmap Hnext Hclock Hsent].
  set (s1 := (updateTaskStatus taskId st'
                (mkState t' (debounceMap s) (timeouts s) (awaiting s) (requests s)
                         (settled s) (next_timeout s))).2).
  assert (H1 : armed taskId base sent t' st' s1).
  { subst s1. unfold updateTaskStatus, debounce. simpl.
    fold (status_key taskId). rewrite Hmap, Hts.
    rewrite clearTimeout_last by done.
    split; simpl; try done.
    - eapply Forall_impl; [exact Hbase|]. simpl. lia.
    - by rewrite lookup_insert_eq.
    - lia. }
  destruct (IH t' st' s1 H1 Hrapid) as (s' & Hrun & Harmed' & Haw & Hnt).
  exists s'. rewrite !fmap_cons, !last_cons.
  split; [|split; [exact Harmed'|]].
  - simpl. unfold tick. rewrite Hclock.
    destruct (Z.leb_spec t t'); [|lia]. exact Hrun.
  - split; [by rewrite Haw|]. rewrite Hnt. subst s1. simpl. lia.
Qed.

(** From a state with nothing registered under the key, a burst schedules
    one timeout in all, for the last lane requested, and sends nothing; when
    that timeout runs, one request goes out. *)
Lemma burst_collapses taskId s t1 st1 calls T :
  debounceMap s !! status_key taskId = None ->
  Forall (fun tm => (timeout_id tm < next_timeout s)%nat) (timeouts s) ->
  (clock s <= t1)%Z ->
  rapid t1 calls ->
  let t_last := List.last (calls.*1) t1 in
  let st_last := List.last (calls.*2) st1 in
  let id_last := (next_timeout s + length calls)%nat in
  (t_last + 200 <= T)%Z ->
  exists s1 s2,
    run (burst taskId ((t1, st1) :: calls)) s = Some s1
    ∧ timeouts s1 = timeouts s
                    ++ [mkTimeout id_last (status_key taskId) (t_last + 200)%Z
                                  (patch_status taskId st_last)]
    ∧ requests s1 = requests s
    ∧ run [Tick T; Run id_last] s1 = Some s2
    ∧ timeouts s2 = timeouts s
    ∧ requests s2 = requests s ++ [patch_status taskId st_last].
Proof.
  intros Hmap Hids Hclock Hrapid t_last st_last id_last HT.
  set (s0 := (updateTaskStatus taskId st1
                (mkState t1 (debounceMap s) (timeouts s) (awaiting s) (requests s)
                         (settled s) (next_timeout s))).2).
  assert (H0 : armed taskId (timeouts s) (requests s) t1 st1 s0).
  { subst s0. unfold updateTaskStatus, debounce. simpl.
    fold (status_key taskId). rewrite Hmap.
    split; simpl; try done; [by rewrite lookup_insert_eq|lia]. }
  destruct (burst_rearms taskId _ _ calls t1 st1 s0 H0 Hrapid)
    as (s1 & Hrun & [Hts Hbase Hm Hn Hc Hsent] & _ & Hnt).
  assert (Hid : pred (next_timeout s1) = id_last).
  { rewrite Hnt. subst s0 id_last. simpl. lia. }
  rewrite Hid in *.
  assert (Hclear : clearTimeout id_last (timeouts s1) = timeouts s).
  { rewrite Hts.
    by apply clearTimeout_last. }
  assert (Hfind : List.find (fun tm => bool_decide (timeout_id tm = id_last))
                            (timeouts s1)
                  = Some (mkTimeout id_last (status_key taskId) (t_last + 200)%Z
                                    (patch_status taskId st_last))).
  { rewrite Hts. clear -Hbase. induction Hbase as [|tm base Htm _ IH]; simpl.
    - by rewrite bool_decide_eq_true_2.
    - rewrite bool_decide_eq_false_2 by lia. exact IH. }
  eexists s1, _. simpl. unfold tick at 1. destruct (Z.leb_spec (clock s) t1); [|lia].
  simpl. fold s0. split; [exact Hrun|]. split; [exact Hts|]. split; [exact Hsent|].
  unfold tick. rewrite Hc. fold t_last.
  destruct (Z.leb_spec t_last T); [|lia]. simpl.
  unfold run_timeout. simpl. rewrite Hfind. simpl.
  destruct (Z.leb_spec (t_last + 200) T); [|lia]. simpl.
  split; [reflexivity|]. split; [exact Hclear|]. by rewrite Hsent.
Qed.

(** The status changes of a task in a run of events, each with the clock
    reading at which it is made. *)
Fixpoint calls_for (taskId : ObjectId) (now : Time) (es : list Event)
    : list (Time * string) :=
  match es with
  | [] => []
  | Tick t :: es' => calls_for taskId t es'
  | UpdateTaskStatus id st :: es' =>
      if decide (id = taskId) then (now, st) :: calls_for taskId now es'
      else calls_for taskId now es'
  | _ :: es' => calls_for taskId now es'
  end.

(** *** The failing schedule

    Task 7 is moved to [inprogress] at 0 ms; the timeout runs at 200 ms and
    the request is in flight ([in_flight]).  Then ([racing]) the task is
    moved to [done] at 450 ms, the answer to the first request arrives at
    500 ms, the task is moved to [todo] at 550 ms, 100 ms after the previous
    move, and the two timeouts still scheduled run at 650 ms and 750 ms. *)
Definition answer : Outcome :=
  Fulfilled (mkTask 7 1 "Write spec" "" inprogress 0 None 10 210).

Definition in_flight : list Event :=
  [ UpdateTaskStatus 7 "inprogress"; Tick 200; Run 0 ].

Definition racing : list Event :=
  [ Tick 450; UpdateTaskStatus 7 "done";
    Tick 500; Complete 0 answer;
    Tick 550; UpdateTaskStatus 7 "todo";
    Tick 650; Run 1;
    Tick 750; Run 2 ].

(** C6 at the failing schedule.  The status changes made while the first
    request is in flight are [done] at 450 ms and [todo] at 550 ms: a burst
    of two, 100 ms apart, inside the 200 ms window.  Both are sent: the
    server receives [done] and then [todo] for them, and no timeout is left.
    The [finally] block of the first callback deleted the key at 500 ms, so
    the call at 550 ms found no timeout to clear. *)
Theorem C6_burst_sends_two_requests :
  exists s0 s,
    run in_flight initial = Some s0
    ∧ run racing s0 = Some s
    ∧ calls_for 7 (clock s0) racing = [(450%Z, "done"); (550%Z, "todo")]
    ∧ rapid 450 [(550%Z, "todo")]
    ∧ requests s0 = [patch_status 7 "inprogress"]
    ∧ requests s = requests s0 ++ [patch_status 7 "done"; patch_status 7 "todo"]
    ∧ timeouts s = [].
Proof.
  eexists _, _. split; [vm_compute; reflexivity|].
  split; [vm_compute; reflexivity|].
  split; [reflexivity|]. split; [simpl; lia|]. repeat split.
Qed.

(** C10 at the failing schedule.  The call made at 450 ms returns promise 1
    and is followed 100 ms later by a call for the same task, which returns
    promise 2.  The timeout of promise 1 still runs, its request is sent,
    and when the answer arrives promise 1 is resolved. *)
Theorem C10_superseded_promise_settles :
  exists s0 s,
    run in_flight initial = Some s0
    ∧ run (racing ++ [Tick 900; Complete 1 answer]) s0 = Some s
    ∧ calls_for 7 (clock s0) racing = [(450%Z, "done"); (550%Z, "todo")]
    ∧ (updateTaskStatus 7 "done" s0).1 = 1%nat
    ∧ is_settled 1 s = true
    ∧ settled s = [(0%nat, answer); (1%nat, answer)].
Proof.
  eexists _, _. split; [vm_compute; reflexivity|].
  split; [vm_compute; reflexivity|]. repeat split.
Qed.

End Debounce.

(** ** The concrete scenarios of the specification, evaluated *)

Module Examples.
Import TaskModel Middleware Socket Api Scenario.

(** [{title: "Write spec"}] with no lane gives lane [todo], rank 0 and no
    completion time. *)
Example create_write_spec :
  tasks srv1 = [mkTask 0 1 "Write spec" "" todo 0 None 10 10].
Proof. reflexivity. Qed.

(** [PATCH /tasks/0/status {status: "done"}] stamps [completedAt] and keeps
    the rank. *)
Example patch_done :
  response_of (router mark_done 20 srv1)
  = mkResponse 200 true (TaskData (mkTask 0 1 "Write spec" "" done 0 (Some 20%Z) 10 20)).
Proof. reflexivity. Qed.

(** Moving it back clears [completedAt]; saving [done] again keeps the
    first stamp. *)
Example patch_back_and_again :
  let done1 := server_of (router mark_done 20 srv1) in
  completedAt <$> tasks (server_of (router start_first 30 done1)) = [None]
  ∧ completedAt <$> tasks (server_of (router mark_done 30 done1)) = [Some 20%Z].
Proof. split; reflexivity. Qed.

(** The event of that status change reaches the two sockets of [alice] and
    not the socket of [bob]. *)
Example patch_done_fanout :
  let online := mkServer (tasks srv1) (next_oid srv1)
                  (Some (connect 2 (inl alice)
                           (connect 1 (inl bob) (connect 0 (inl alice) [])))) in
  (fun d => (d.1, ev_name d.2)) <$> deliveries_of (router mark_done 20 online)
  = [(0%nat, "task-status-updated"); (2%nat, "task-status-updated")].
Proof. reflexivity. Qed.

(** A handshake without a valid token joins nothing. *)
Example refused_handshake : connect 5 (inr "No token provided") [] = [].
Proof. reflexivity. Qed.

(** The list is ordered by lane name, then rank: [inprogress] sorts before
    [todo]. *)
Example list_order_by_lane :
  match data (response_of (router (request GET_tasks alice no_body no_query) 40
                                  (server_of (router start_first 20 srv2)))) with
  | ListData ts _ _ _ _ => (fun t => (_id t, status t)) <$> ts
  | _ => []
  end = [(0%nat, inprogress); (1%nat, todo)].
Proof. reflexivity. Qed.

(** Five moves of one task within 200 ms of each other, from a fresh
    service: one request, for the last lane. *)
Example five_rapid_moves :
  TaskService.requests
  <$> TaskService.run
        (Debounce.burst 7 [(0%Z, "inprogress"); (50%Z, "done"); (120%Z, "todo");
                           (180%Z, "inprogress"); (300%Z, "done")]
         ++ [TaskService.Tick 500; TaskService.Run 4])
        TaskService.initial
  = Some [Debounce.patch_status 7 "done"].
Proof. vm_compute. reflexivity. Qed.

(** Each of the superseded timeouts is gone: running one is not possible. *)
Example superseded_timeout_cannot_run :
  TaskService.run
    (Debounce.burst 7 [(0%Z, "inprogress"); (50%Z, "done")]
     ++ [TaskService.Tick 500; TaskService.Run 0])
    TaskService.initial
  = None.
Proof. vm_compute. reflexivity. Qed.

End Examples.

(** ** The order and the pages of [getTasks] *)

Module Listing.
Import TaskModel Middleware Socket Api ControllerFacts.

(** [a] is listed before [b], or ties with it. *)
Definition comes_before (a b : Task) : Prop := list_order a b = true.

(** What the caller asked to see: its own tasks, in the lane the [status]
    parameter names when there is one. *)
Definition listed (u : User) (q : Query) (t : Task) : Prop :=
  userId t = user_id u
  ∧ from_option (fun s => status_name (status t) = s) True (q_status q).

#[global] Instance listed_dec u q t : Decision (listed u q t).
Proof. unfold listed. destruct (q_status q); simpl; apply _. Defined.



Lemma list_order_spec a b :
  list_order a b = true
  ↔ (status_order (status a) < status_order (status b)
     ∨ status_order (status a) = status_order (status b)
       ∧ (position a < position b
          ∨ position a = position b ∧ createdAt b <= createdAt a))%Z.
Proof.
  unfold list_order.
  repeat match goal with
         | |- context [(?x <? ?y)%Z] => destruct (Z.ltb_spec x y)
         end;
    rewrite ?Z.leb_le; split; intros; try done; lia.
Qed.

Lemma list_order_total a b : list_order a b = false -> list_order b a = true.
Proof.
  intros H. apply not_true_iff_false in H.
  rewrite list_order_spec in *. lia.
Qed.

Lemma list_order_trans a b c :
  list_order a b = true -> list_order b c = true -> list_order a c = true.
Proof. rewrite !list_order_spec. lia. Qed.

Section InsertionSort.
Variable le : Task -> Task -> bool.
Hypothesis le_total : forall a b, le a b = false -> le b a = true.
Hypothesis le_trans : forall a b c, le a b = true -> le b c = true -> le a c = true.

Lemma insert_by_perm x l : insert_by le x l ≡ₚ x :: l.
Proof.
  induction l as [|y l IH]; simpl; [done|].
  destruct (le x y); [done|]. rewrite IH. apply Permutation_swap.
Qed.

Lemma sort_by_perm l : sort_by le l ≡ₚ l.
Proof.
  induction l as [|x l IH]; simpl; [done|].
  by rewrite insert_by_perm, IH.
Qed.

Lemma insert_by_sorted x l :
  StronglySorted (fun a b => le a b = true) l ->
  StronglySorted (fun a b => le a b = true) (insert_by le x l).
Proof.
  induction 1 as [|y l Hs IH Hy]; simpl; [repeat constructor|].
  destruct (le x y) eqn:Hxy.
  - constructor; [by constructor|]. constructor; [done|].
    eapply Forall_impl; [exact Hy|]. intros z Hz. simpl in Hz. eauto.
  - constructor; [done|].
    rewrite insert_by_perm. constructor; [auto|done].
Qed.

Lemma sort_by_sorted l : StronglySorted (fun a b => le a b = true) (sort_by le l).
Proof.
  induction l as [|x l IH]; simpl; [constructor|]. by apply insert_by_sorted.
Qed.
End InsertionSort.

Lemma parse_status_name s st : parse_status s = Some st -> status_name st = s.
Proof.
  unfold parse_status.
  destruct (String.eqb_spec s "todo") as [->|_]; [by intros [= <-]|].
  destruct (String.eqb_spec s "inprogress") as [->|_]; [by intros [= <-]|].
  destruct (String.eqb_spec s "done") as [->|_]; [by intros [= <-]|done].
Qed.

Lemma parse_status_of_name st : parse_status (status_name st) = Some st.
Proof. by destruct st. Qed.

Lemma validateTaskQuery_nil q :
  validateTaskQuery q = [] ->
  from_option (fun s => is_Some (parse_status s)) True (q_status q)
  ∧ (exists p, parseInt (default (IntLit 1) (q_page q)) = Some p ∧ (1 <= p)%Z)
  ∧ (exists l, parseInt (default (IntLit 50) (q_limit q)) = Some l
               ∧ (1 <= l <= 100)%Z).
Proof.
  unfold validateTaskQuery. intros H.
  apply app_eq_nil in H as [Hs H]. apply app_eq_nil in H as [Hp Hl].
  apply optional_nil in Hs, Hp, Hl. repeat split.
  - destruct (q_status q); simpl in *; [|done].
    by apply bool_decide_eq_true in Hs.
  - destruct (q_page q) as [[z|raw]|]; simpl in *; [|done|exists 1%Z; split; [done|lia]].
    exists z. split; [done|]. apply andb_true_iff in Hp as [Hp _]. lia.
  - destruct (q_limit q) as [[z|raw]|]; simpl in *; [|done|exists 50%Z; split; [done|lia]].
    exists z. split; [done|]. apply andb_true_iff in Hl as [H1 H2]. lia.
Qed.

Lemma matches_query_listed u q t :
  from_option (fun s => is_Some (parse_status s)) True (q_status q) ->
  matches_query (user_id u) (q_status q ≫= parse_status) t ↔ listed u q t.
Proof.
  unfold matches_query, listed. destruct (q_status q) as [s|]; simpl; [|done].
  intros [st Hst]. rewrite Hst. simpl. apply parse_status_name in Hst as <-.
  split; intros [? H]; split; try done; [by rewrite H|].
  destruct (status t), st; done.
Qed.

Lemma limit_docs_take l (ts : list Task) :
  (1 <= l)%Z -> limit_docs l ts = take (Z.to_nat l) ts.
Proof.
  intros Hl. unfold limit_docs. destruct (Z.eqb_spec l 0); [lia|].
  by rewrite Z.abs_eq by lia.
Qed.

Lemma sorted_take_drop {A} (R : A -> A -> Prop) n m (l : list A) :
  StronglySorted R l -> StronglySorted R (take n (drop m l)).
Proof.
  intros H. rewrite <- (take_drop m l) in H.
  apply StronglySorted_app in H as (_ & _ & H).
  rewrite <- (take_drop n (drop m l)) in H.
  by apply StronglySorted_app in H as (_ & H & _).
Qed.

(** X1.  A list request that passed [validateTaskQuery] is answered with a
    page in which every task is a stored task of the caller, in the lane
    asked for when the request names one; the page is in the order lane
    name, rank, newest first; and [total] counts all the caller's tasks the
    request selects, whatever the page. *)
Theorem getTasks_scoped_and_ordered (u : User) (q : Query) (srv : Server) :
  validateTaskQuery q = [] ->
  exists ts p l pages,
    getTasks u q srv
    = mkResponse 200 true
        (ListData ts p l (Z.of_nat (length (filter (listed u q) (tasks srv)))) pages)
    ∧ (forall t, t ∈ ts -> t ∈ tasks srv ∧ listed u q t)
    ∧ StronglySorted comes_before ts.
Proof.
  intros Hv.
  apply validateTaskQuery_nil in Hv as (Hs & (p & Hp & Hp1) & (l & Hl & Hl1)).
  unfold getTasks. rewrite Hp, Hl.
  destruct (Z.ltb_spec ((p - 1) * l) 0) as [Hneg|_]; [nia|].
  rewrite (list_filter_iff _ (listed u q)) by (intros t; by apply matches_query_listed).
  eexists _, p, l, _. split; [reflexivity|].
  rewrite limit_docs_take by lia. split.
  - intros t Ht. apply subseteq_take, subseteq_drop in Ht.
    rewrite (sort_by_perm list_order) in Ht.
    apply list_elem_of_filter in Ht. tauto.
  - apply sorted_take_drop, sort_by_sorted.
    + apply list_order_total.
    + apply list_order_trans.
Qed.

Lemma getTasks_scoped_and_ordered_witness :
  validateTaskQuery (mkQuery (Some "todo") None (Some (IntLit 1)) []) = []
  ∧ exists ts p l pages,
      getTasks Scenario.alice (mkQuery (Some "todo") None (Some (IntLit 1)) [])
               Scenario.srv2
      = mkResponse 200 true
          (ListData ts p l
             (Z.of_nat (length (filter (listed Scenario.alice
                                          (mkQuery (Some "todo") None (Some (IntLit 1)) []))
                                       (tasks Scenario.srv2))))
             pages)
      ∧ (forall t, t ∈ ts ->
           t ∈ tasks Scenario.srv2
           ∧ listed Scenario.alice (mkQuery (Some "todo") None (Some (IntLit 1)) []) t)
      ∧ StronglySorted comes_before ts.
Proof.
  split; [reflexivity|].
  apply (getTasks_scoped_and_ordered Scenario.alice
           (mkQuery (Some "todo") None (Some (IntLit 1)) []) Scenario.srv2).
  reflexivity.
Defined.






End Listing.

(** ** What a write stores *)

Module Writes.
Import TaskModel Middleware Socket Api StoreFacts ControllerFacts Invariants.

Lemma task_ext (a b : Task) :
  _id a = _id b -> userId a = userId b -> title a = title b ->
  description a = description b -> status a = status b ->
  position a = position b -> completedAt a = completedAt b ->
  createdAt a = createdAt b -> updatedAt a = updatedAt b -> a = b.
Proof. destruct a, b; simpl; congruence. Qed.

(** The paths an assignment marks: none when the key is absent or carries
    the stored value. *)
Definition changed {A} `{EqDecision A} (p : Path) (cur : A) (v : option A)
    : list Path :=
  match v with
  | Some a => if decide (cur = a) then [] else [p]
  | None => []
  end.

(** The request asks for the values the task already has. *)
Definition unchanged (task : Task) (ttl descr : option string)
    (st : option Status) (pos : option Z) : Prop :=
  default (title task) ttl = title task
  ∧ default (description task) descr = description task
  ∧ default (status task) st = status task
  ∧ default (position task) pos = position task.

#[global] Instance unchanged_dec task ttl descr st pos :
  Decision (unchanged task ttl descr st pos).
Proof. unfold unchanged. apply _. Defined.

(** The record a successful write of [task] leaves. *)
Definition saved (now : Time) (task : Task) (ttl descr : option string)
    (st : option Status) (pos : option Z) : Task :=
  mkTask (_id task) (userId task) (default (title task) ttl)
         (default (description task) descr) (default (status task) st)
         (default (position task) pos)
         (completedAt_after now task (default (status task) st))
         (createdAt task)
         (if decide (unchanged task ttl descr st pos) then updatedAt task else now).

(** The schema's constraints on one stored task. *)
Definition schema_ok (t : Task) : Prop :=
  (1 <= Js.length (title t) <= 200)%nat
  ∧ (Js.length (description t) <= 1000)%nat
  ∧ (0 <= position t)%Z.

Lemma edited_modifiedPaths task ttl descr st pos :
  modifiedPaths (edited task ttl descr st pos)
  = changed p_position (position task) pos
    ++ changed p_status (status task) st
    ++ changed p_description (description task) descr
    ++ changed p_title (title task) ttl.
Proof.
  unfold edited, set_title, set_description, set_status, set_position.
  destruct ttl, descr, st, pos; simpl;
    rewrite ?assign_modifiedPaths,
            ?(assign_fields _ _ _ with_status_id),
            ?(assign_fields _ _ _ with_description_id),
            ?(assign_fields _ _ _ with_title_id);
    simpl;
    repeat match goal with
           | |- context [decide ?P] => destruct (decide P); simpl
           end;
    done.
Qed.

Lemma edited_unmodified task ttl descr st pos :
  modifiedPaths (edited task ttl descr st pos) = [] ↔ unchanged task ttl descr st pos.
Proof.
  rewrite edited_modifiedPaths. unfold unchanged, changed.
  destruct ttl, descr, st, pos; simpl;
    repeat match goal with
           | |- context [decide ?P] => destruct (decide P); simpl
           end;
    split; intros; try done; intuition congruence.
Qed.

Lemma pre_save_unmodified now d :
  modifiedPaths (pre_save now d) = [] ↔ modifiedPaths d = [].
Proof.
  unfold pre_save, isModified.
  destruct (bool_decide_reflect (p_status ∈ modifiedPaths d)) as [Hin|_]; [|done].
  assert (modifiedPaths d ≠ []) by (intros E; rewrite E in Hin; by apply elem_of_nil in Hin).
  destruct (_ && _); simpl; [done|].
  by destruct (bool_decide _).
Qed.

Lemma edited_text task ttl descr st pos :
  title (fields (edited task ttl descr st pos)) = default (title task) ttl
  ∧ description (fields (edited task ttl descr st pos))
    = default (description task) descr.
Proof. rewrite edited_fields. by destruct ttl, descr, st, pos. Qed.

Lemma save_edited_saved now task ttl descr st pos c t c' :
  save now (edited task ttl descr st pos) c = Some (t, c') ->
  t = saved now task ttl descr st pos ∧ c' = replace_doc t c.
Proof.
  intros H.
  pose proof (save_edited _ _ _ _ _ _ _ _ _ H)
    as (Hc & Hid & Hu & Hcr & Hs & Hp & Hca & _).
  split; [|done]. revert H. unfold save.
  destruct (validateSync _); [|done].
  rewrite pre_save_isNew, edited_isNew.
  destruct (edited_text task ttl descr st pos) as (Ht & Hd).
  pose proof (pre_save_unmodified now (edited task ttl descr st pos)) as Hnil.
  rewrite edited_unmodified in Hnil.
  intros [= E _].
  apply task_ext; simpl; try done.
  - rewrite <- E, <- Ht.
    destruct (modifiedPaths (pre_save now (edited task ttl descr st pos)));
      simpl; by rewrite pre_save_fields.
  - rewrite <- E, <- Hd.
    destruct (modifiedPaths (pre_save now (edited task ttl descr st pos)));
      simpl; by rewrite pre_save_fields.
  - rewrite <- E.
    destruct (modifiedPaths (pre_save now (edited task ttl descr st pos))) eqn:Hm.
    + rewrite decide_True by (by apply Hnil).
      rewrite pre_save_fields. simpl. rewrite edited_fields.
      by destruct ttl, descr, st, pos.
    + rewrite decide_False; [done|]. intros Hun. by apply Hnil in Hun.
Qed.

Lemma edited_schema_ok task ttl descr st pos :
  schema_ok task ->
  validateSync (edited task ttl descr st pos) = true ->
  forall now, schema_ok (saved now task ttl descr st pos).
Proof.
  intros (Ht & Hd & Hp) H now. revert H. unfold validateSync.
  rewrite edited_isNew, edited_modifiedPaths, !forallb_app.
  destruct (edited_text task ttl descr st pos) as (Et & Ed).
  destruct (edited_frame task ttl descr st pos) as (_ & _ & _ & _ & _ & Ep).
  unfold path_valid, changed. rewrite Et, Ed, Ep. unfold schema_ok. simpl.
  intros H.
  apply andb_true_iff in H as [H1 H]. apply andb_true_iff in H as [_ H].
  apply andb_true_iff in H as [H2 H3].
  repeat split.
  - destruct ttl as [v|]; simpl in *; [|lia].
    destruct (decide (title task = v)) as [<-|]; [lia|].
    simpl in H3. rewrite andb_true_r in H3. apply bool_decide_eq_true in H3. lia.
  - destruct ttl as [v|]; simpl in *; [|lia].
    destruct (decide (title task = v)) as [<-|]; [lia|].
    simpl in H3. rewrite andb_true_r in H3. apply bool_decide_eq_true in H3. lia.
  - destruct descr as [v|]; simpl in *; [|lia].
    destruct (decide (description task = v)) as [<-|]; [lia|].
    simpl in H2. rewrite andb_true_r in H2. by apply bool_decide_eq_true in H2.
  - destruct pos as [v|]; simpl in *; [|lia].
    destruct (decide (position task = v)) as [<-|]; [lia|].
    simpl in H1. rewrite andb_true_r in H1. by apply bool_decide_eq_true in H1.
Qed.

Lemma save_valid now d c : validateSync d = true -> is_Some (save now d c).
Proof.
  unfold save. intros ->. destruct (isNew (pre_save now d)); by eexists.
Qed.

Lemma save_Some_valid now d c x : save now d c = Some x -> validateSync d = true.
Proof. unfold save. by destruct (validateSync d). Qed.

Lemma save_edited_eq now task ttl descr st pos c :
  validateSync (edited task ttl descr st pos) = true ->
  save now (edited task ttl descr st pos) c
  = Some (saved now task ttl descr st pos,
          replace_doc (saved now task ttl descr st pos) c).
Proof.
  intros Hv. destruct (save_valid now _ c Hv) as [[t c'] H].
  rewrite H. by apply save_edited_saved in H as [<- ->].
Qed.

Lemma updateTask_eq u task b now srv st pos :
  optional_status (b_status b) = Some st ->
  optional_number (b_position b) = Some pos ->
  validateSync (edited task (b_title b) (b_description b) st pos) = true ->
  let t := saved now task (b_title b) (b_description b) st pos in
  updateTask u task b now srv
  = (mkResponse 200 true (TaskData t), with_tasks (replace_doc t (tasks srv)) srv,
     emit srv (user_id u) "task-updated" t now).
Proof.
  intros Hst Hpos Hv. unfold updateTask. rewrite Hst, Hpos.
  fold (edited task (b_title b) (b_description b) st pos).
  by rewrite save_edited_eq.
Qed.

Lemma updateTask_saved u task b now srv :
  updateTask u task b now srv = (mongoose_error, srv, [])
  ∨ exists st pos,
      let t := saved now task (b_title b) (b_description b) st pos in
      optional_status (b_status b) = Some st
      ∧ optional_number (b_position b) = Some pos
      ∧ validateSync (edited task (b_title b) (b_description b) st pos) = true
      ∧ updateTask u task b now srv
        = (mkResponse 200 true (TaskData t),
           with_tasks (replace_doc t (tasks srv)) srv,
           emit srv (user_id u) "task-updated" t now).
Proof.
  destruct (optional_status (b_status b)) as [st|] eqn:Hst;
    [|left; unfold updateTask; by rewrite Hst].
  destruct (optional_number (b_position b)) as [pos|] eqn:Hpos;
    [|left; unfold updateTask; by rewrite Hst, Hpos].
  destruct (validateSync (edited task (b_title b) (b_description b) st pos)) eqn:Hv.
  - right. exists st, pos. repeat split; try done. by apply updateTask_eq.
  - left. unfold updateTask. rewrite Hst, Hpos.
    fold (edited task (b_title b) (b_description b) st pos).
    unfold save. by rewrite Hv.
Qed.

Lemma updateTaskStatus_eq u task b now srv lane pos :
  b_status b ≫= parse_status = Some lane ->
  optional_number (b_position b) = Some pos ->
  validateSync (edited task None None (Some lane) pos) = true ->
  let t := saved now task None None (Some lane) pos in
  updateTaskStatus u task b now srv
  = (mkResponse 200 true (TaskData t), with_tasks (replace_doc t (tasks srv)) srv,
     emit srv (user_id u) "task-status-updated" t now).
Proof.
  intros Hst Hpos Hv. unfold updateTaskStatus. rewrite Hst, Hpos.
  change (assign_opt set_position pos (set_status lane (hydrate task)))
    with (edited task None None (Some lane) pos).
  by rewrite save_edited_eq.
Qed.

Lemma updateTaskStatus_saved u task b now srv :
  updateTaskStatus u task b now srv = (mongoose_error, srv, [])
  ∨ exists lane pos,
      let t := saved now task None None (Some lane) pos in
      b_status b ≫= parse_status = Some lane
      ∧ optional_number (b_position b) = Some pos
      ∧ validateSync (edited task None None (Some lane) pos) = true
      ∧ updateTaskStatus u task b now srv
        = (mkResponse 200 true (TaskData t),
           with_tasks (replace_doc t (tasks srv)) srv,
           emit srv (user_id u) "task-status-updated" t now).
Proof.
  destruct (b_status b ≫= parse_status) as [lane|] eqn:Hst;
    [|left; unfold updateTaskStatus; by rewrite Hst].
  destruct (optional_number (b_position b)) as [pos|] eqn:Hpos;
    [|left; unfold updateTaskStatus; by rewrite Hst, Hpos].
  destruct (validateSync (edited task None None (Some lane) pos)) eqn:Hv.
  - right. exists lane, pos. repeat split; try done. by apply updateTaskStatus_eq.
  - left. unfold updateTaskStatus. rewrite Hst, Hpos.
    change (assign_opt set_position pos (set_status lane (hydrate task)))
      with (edited task None None (Some lane) pos).
    unfold save. by rewrite Hv.
Qed.

(** The route handlers behind the guards and [authenticate]. *)
Definition dispatch (u : User) (req : Request) (now : Time) (srv : Server)
    : Flow Response Handled :=
  match route req with
  | GET_tasks =>
      _ ← handleValidationErrors (validateTaskQuery (query req));
      Next (getTasks u (query req) srv, srv, [])
  | POST_tasks =>
      _ ← handleValidationErrors (validateCreateTask (body req));
      Next (createTask u (body req) now srv)
  | PUT_task id =>
      task ← validateTaskOwnership id u (tasks srv);
      _ ← handleValidationErrors
            (validateObjectId id ++ validateUpdateTask (body req));
      Next (updateTask u task (body req) now srv)
  | DELETE_task id =>
      task ← validateTaskOwnership id u (tasks srv);
      Next (deleteTask u task now srv)
  | PATCH_task_status id =>
      task ← validateTaskOwnership id u (tasks srv);
      _ ← handleValidationErrors
            (validateObjectId id ++ validateUpdateTaskStatus (body req));
      Next (updateTaskStatus u task (body req) now srv)
  end.

Lemma chain_dispatch req now srv u :
  passes_guards req -> credential req = inl u ->
  chain req now srv = dispatch u req now srv.
Proof.
  intros (Hlen & Hb & Hq) Hcred.
  unfold chain, validateRequestSize, validateNoSqlInjection, authenticate.
  destruct (Z.ltb_spec maxSize (contentLength req)); [lia|].
  by rewrite Hb, Hq, Hcred.
Qed.

Lemma findOne_found c t :
  NoDup (_id <$> c) -> t ∈ c -> findOne_by_id_user (_id t) (userId t) c = Some t.
Proof.
  intros Hnd Hin. unfold findOne_by_id_user.
  induction c as [|x c IH]; [by apply elem_of_nil in Hin|].
  simpl.
  destruct (bool_decide_reflect (_id x = _id t)) as [Hid|Hid]; simpl.
  - assert (x = t) as ->.
    { eapply unique_by_id; [exact Hnd|left|exact Hin|exact Hid]. }
    by rewrite bool_decide_eq_true_2.
  - apply elem_of_cons in Hin as [ -> |Hin]; [done|].
    apply IH; [|done]. rewrite fmap_cons in Hnd. by apply NoDup_cons in Hnd as [_ ?].
Qed.

Lemma findOne_missing c oid uid :
  oid ∉ _id <$> c -> findOne_by_id_user oid uid c = None.
Proof.
  intros Hnot. destruct (findOne_by_id_user oid uid c) as [t|] eqn:H; [|done].
  apply findOne_by_id_user_Some in H as (Hin & <- & _).
  exfalso. apply Hnot. by apply list_elem_of_fmap_2.
Qed.

Lemma replace_doc_self c t :
  NoDup (_id <$> c) -> t ∈ c -> replace_doc t c = c.
Proof.
  intros Hnd Hin. unfold replace_doc.
  rewrite <- (list_fmap_id c) at 2. apply list_fmap_ext.
  intros i x Hx. simpl. destruct (decide _) as [Hid|]; [|done].
  apply list_elem_of_lookup_2 in Hx. symmetry. by eapply unique_by_id.
Qed.

Lemma filter_replace_doc (P : Task -> Prop) `{forall x, Decision (P x)} t c :
  (forall x, x ∈ c -> _id x = _id t -> ¬ P x) -> ¬ P t ->
  filter P (replace_doc t c) = filter P c.
Proof.
  intros Hc Ht. unfold replace_doc.
  induction c as [|x c IH]; [done|].
  rewrite fmap_cons, !filter_cons, IH by (intros y Hy; apply Hc; by right).
  destruct (decide (_id x = _id t)) as [Hid|]; [|done].
  rewrite decide_False by done.
  rewrite decide_False; [done|]. apply Hc; [by left|done].
Qed.

Lemma filter_delete (P : Task -> Prop) `{forall x, Decision (P x)} oid c :
  (forall x, x ∈ c -> _id x = oid -> ¬ P x) ->
  filter P (findByIdAndDelete oid c) = filter P c.
Proof.
  intros Hc. unfold findByIdAndDelete.
  induction c as [|x c IH]; [done|].
  rewrite !filter_cons, <- IH by (intros y Hy; apply Hc; by right).
  destruct (decide (_id x ≠ oid)) as [|Hid]; [by rewrite filter_cons|].
  rewrite decide_False; [done|]. apply Hc; [by left|].
  by destruct (decide (_id x = oid)).
Qed.

(** The servers of the scenario can be reached. *)
Lemma reachable_srv1 : Reachable Scenario.srv1.
Proof. eapply reach_step; [apply reach_initial|apply step_request]. Qed.

Lemma reachable_srv2 : Reachable Scenario.srv2.
Proof. eapply reach_step; [apply reachable_srv1|apply step_request]. Qed.

(** X3.  A request that is answered with a failure has changed nothing and
    sent nothing: the server is the one before the request, and no socket
    receives an event.  This holds for every route and every cause of the
    failure, also a validation error of the model raised in the middle of a
    controller. *)
Theorem failed_request_changes_nothing (req : Request) (now : Time) (srv : Server) :
  success (response_of (router req now srv)) = false ->
  server_of (router req now srv) = srv
  ∧ deliveries_of (router req now srv) = [].
Proof.
  destruct (router_cases req now srv)
    as [(r & -> & _)|[(u & _ & _ & _ & ->)|[(u & _ & _ & _ & ->)
       |(u & oid & task & _ & _ & Hroute)]]]; try done.
  - destruct (createTask_cases u (body req) now srv)
      as [->|(ttl & st & pos & _ & _ & _ & _ & ->)]; done.
  - destruct Hroute as [(_ & _ & ->)|[(_ & ->)|(_ & _ & ->)]].
    + destruct (updateTask_cases u task (body req) now srv)
        as [->|(st & pos & t & _ & _ & _ & ->)]; done.
    + done.
    + destruct (updateTaskStatus_cases u task (body req) now srv)
        as [->|(lane & pos & t & _ & _ & _ & ->)]; done.
Qed.

Lemma failed_request_changes_nothing_witness :
  success (response_of
             (router (Scenario.request (DELETE_task (ValidId 0)) Scenario.bob
                        Scenario.no_body Scenario.no_query) 20 Scenario.srv1))
  = false
  ∧ server_of
      (router (Scenario.request (DELETE_task (ValidId 0)) Scenario.bob
                 Scenario.no_body Scenario.no_query) 20 Scenario.srv1)
    = Scenario.srv1.
Proof.
  split; [reflexivity|].
  apply (failed_request_changes_nothing
           (Scenario.request (DELETE_task (ValidId 0)) Scenario.bob
              Scenario.no_body Scenario.no_query) 20%Z Scenario.srv1).
  reflexivity.
Defined.

(** X4.  Every task a reachable server stores satisfies the schema: its
    title has a [.length] of 1 to 200, its description of at most 1000, and
    its rank is not negative; no two stored tasks share an id, and every id
    was handed out by the generator. *)
Theorem stored_tasks_satisfy_schema (srv : Server) :
  Reachable srv ->
  Forall schema_ok (tasks srv)
  ∧ NoDup (_id <$> tasks srv)
  ∧ Forall (fun t => (_id t < next_oid srv)%nat) (tasks srv).
Proof.
  intros Hreach. split; [|by destruct (Reachable_Inv srv Hreach)].
  induction Hreach as [|srv srv' Hreach IH Hstep]; [constructor|].
  destruct Hstep as [req now srv|sid cred i srv Hio Hsid|sid i srv Hio];
    try done.
  destruct (router_cases req now srv)
    as [(r & -> & _)|[(u & _ & _ & _ & ->)|[(u & _ & _ & Hval & ->)
       |(u & oid & task & _ & Hfind & Hroute)]]]; try done.
  - destruct (createTask_cases u (body req) now srv)
      as [->|(ttl & st & pos & Httl & _ & Hpos & _ & Hc)]; [done|].
    destruct (createTask_texts _ _ _ _ _ _ _ Hc) as (Ht & Hd & _).
    rewrite Hc. unfold server_of. simpl. apply Forall_app. split; [done|].
    constructor; [|constructor]. split; [exact Ht|split; [exact Hd|exact Hpos]].
  - apply findOne_by_id_user_Some in Hfind as (Hin & _ & _).
    assert (Htask : schema_ok task).
    { revert Hin. generalize task. by apply Forall_forall. }
    destruct Hroute as [(_ & _ & ->)|[(_ & ->)|(_ & _ & ->)]].
    + destruct (updateTask_saved u task (body req) now srv)
        as [->|(st & pos & _ & _ & Hv & ->)]; [done|].
      unfold server_of. simpl. apply replace_doc_Forall; [|done].
      by apply edited_schema_ok.
    + unfold server_of. simpl. by apply Forall_filter.
    + destruct (updateTaskStatus_saved u task (body req) now srv)
        as [->|(lane & pos & _ & _ & Hv & ->)]; [done|].
      unfold server_of. simpl. apply replace_doc_Forall; [|done].
      by apply edited_schema_ok.
Qed.

Lemma stored_tasks_satisfy_schema_witness :
  Reachable Scenario.srv2
  ∧ Forall schema_ok (tasks Scenario.srv2)
  ∧ NoDup (_id <$> tasks Scenario.srv2)
  ∧ Forall (fun t => (_id t < next_oid Scenario.srv2)%nat) (tasks Scenario.srv2).
Proof.
  split; [apply reachable_srv2|].
  apply (stored_tasks_satisfy_schema Scenario.srv2), reachable_srv2.
Defined.

Lemma elem_of_replace_doc t' t c :
  t' ∈ replace_doc t c ->
  (t' = t ∧ exists x, x ∈ c ∧ _id x = _id t) ∨ t' ∈ c.
Proof.
  unfold replace_doc. intros H. apply list_elem_of_fmap in H as (x & -> & Hx).
  destruct (decide _); [left|right]; eauto.
Qed.

(** What the guards and [authenticate] do depends on the request alone. *)
Lemma guards_cases req :
  (exists r, success r = false ∧ forall now srv, chain req now srv = Reply r)
  ∨ (exists u, credential req = inl u ∧ passes_guards req).
Proof.
  unfold passes_guards, chain, validateRequestSize, validateNoSqlInjection,
    authenticate.
  destruct (Z.ltb_spec maxSize (contentLength req));
    [left; eexists; (split; [|intros; reflexivity]); reflexivity|].
  destruct (checkForInjection (body_keys (body req)));
    [left; eexists; (split; [|intros; reflexivity]); reflexivity|].
  destruct (checkForInjection (query_keys (query req)));
    [left; eexists; (split; [|intros; reflexivity]); reflexivity|].
  destruct (credential req) as [u|code];
    [|left; eexists; (split; [|intros; reflexivity]); reflexivity].
  right. exists u. repeat split; try done.
Qed.

Lemma saved_unchanged now task ttl descr st pos :
  unchanged task ttl descr st pos -> saved now task ttl descr st pos = task.
Proof.
  intros Hun. pose proof Hun as (Ht & Hd & Hs & Hp).
  unfold saved, completedAt_after. rewrite Ht, Hd, Hs, Hp.
  rewrite !decide_True by done. by destruct task.
Qed.

Lemma saved_again now task ttl descr st pos :
  unchanged (saved now task ttl descr st pos) ttl descr st pos.
Proof. unfold unchanged, saved. simpl. by destruct ttl, descr, st, pos. Qed.

Lemma unchanged_valid task ttl descr st pos :
  unchanged task ttl descr st pos ->
  validateSync (edited task ttl descr st pos) = true.
Proof.
  intros Hun. apply edited_unmodified in Hun.
  unfold validateSync. by rewrite edited_isNew, Hun.
Qed.

(** X5.  A request never touches the tasks of an account other than the
    caller's: on a reachable server, the tasks of [owner], with all their
    fields and in their order, are the same after any request that was not
    made with the credentials of [owner], whatever its route, id and body. *)
Theorem other_owners_tasks_untouched (owner : ObjectId) (req : Request) (now : Time)
    (srv : Server) :
  Reachable srv ->
  (forall u, credential req = inl u -> user_id u ≠ owner) ->
  filter (fun t => userId t = owner) (tasks (server_of (router req now srv)))
  = filter (fun t => userId t = owner) (tasks srv).
Proof.
  intros Hreach Hcaller. destruct (Reachable_Inv srv Hreach) as [Hids _ _ _ _ _].
  destruct (router_cases req now srv)
    as [(r & -> & _)|[(u & _ & _ & _ & ->)|[(u & Hu & _ & _ & ->)
       |(u & oid & task & Hu & Hfind & Hroute)]]]; try done.
  - destruct (createTask_cases u (body req) now srv)
      as [->|(ttl & st & pos & _ & _ & _ & _ & ->)]; [done|].
    unfold server_of. simpl. rewrite filter_app, filter_cons, filter_nil. simpl.
    rewrite decide_False by (by apply Hcaller). apply app_nil_r.
  - apply findOne_by_id_user_Some in Hfind as (Hin & Hoid & Huid).
    assert (Hsame : forall x, x ∈ tasks srv -> _id x = _id task -> userId x ≠ owner).
    { intros x Hx Hid. rewrite (unique_by_id _ _ _ Hids Hx Hin Hid), Huid.
      by apply Hcaller. }
    assert (Hwrite : forall now' t st pos,
               updated_from now' task t st pos ->
               filter (fun t => userId t = owner) (replace_doc t (tasks srv))
               = filter (fun t => userId t = owner) (tasks srv)).
    { intros now' t st pos (Hid & Hown & _).
      apply filter_replace_doc.
      - intros x Hx Hxid. apply Hsame; [done|]. by rewrite Hxid.
      - rewrite Hown, Huid. by apply Hcaller. }
    destruct Hroute as [(_ & _ & ->)|[(_ & ->)|(_ & _ & ->)]].
    + destruct (updateTask_cases u task (body req) now srv)
        as [->|(st & pos & t & _ & _ & Hup & ->)]; [done|].
      unfold server_of. simpl. by eapply Hwrite.
    + unfold server_of. simpl. by apply filter_delete.
    + destruct (updateTaskStatus_cases u task (body req) now srv)
        as [->|(lane & pos & t & _ & _ & Hup & ->)]; [done|].
      unfold server_of. simpl. by eapply Hwrite.
Qed.

Lemma other_owners_tasks_untouched_witness :
  Reachable Scenario.srv2
  ∧ (forall u, credential (Scenario.request (DELETE_task (ValidId 0)) Scenario.bob
                             Scenario.no_body Scenario.no_query) = inl u ->
               user_id u ≠ 1)
  ∧ filter (fun t => userId t = 1)
           (tasks (server_of
                     (router (Scenario.request (DELETE_task (ValidId 0)) Scenario.bob
                                Scenario.no_body Scenario.no_query) 30 Scenario.srv2)))
    = filter (fun t => userId t = 1) (tasks Scenario.srv2).
Proof.
  assert (H : forall u, credential (Scenario.request (DELETE_task (ValidId 0))
                                      Scenario.bob Scenario.no_body
                                      Scenario.no_query) = inl u ->
                        user_id u ≠ 1).
  { simpl. by intros u [= <-]. }
  split; [apply reachable_srv2|]. split; [exact H|].
  apply (other_owners_tasks_untouched 1 _ 30%Z Scenario.srv2 reachable_srv2 H).
Defined.

(** X6.  No request changes who owns a task, its id or its creation time:
    every task stored after a request either was
    stored before with the same [_id], [userId] and [createdAt], or is the
    task the request created, which carries the id the generator hands out
    next, the caller as owner and the time of the request. *)
Theorem identity_fields_never_change (req : Request) (now : Time) (srv : Server)
    (t' : Task) :
  t' ∈ tasks (server_of (router req now srv)) ->
  (exists t, t ∈ tasks srv ∧ _id t = _id t' ∧ userId t = userId t'
             ∧ createdAt t = createdAt t')
  ∨ (route req = POST_tasks ∧ _id t' = next_oid srv ∧ createdAt t' = now
     ∧ exists u, credential req = inl u ∧ userId t' = user_id u).
Proof.
  destruct (router_cases req now srv)
    as [(r & -> & _)|[(u & _ & _ & _ & ->)|[(u & Hu & Hr & _ & ->)
       |(u & oid & task & Hu & Hfind & Hroute)]]]; try (left; by exists t').
  - destruct (createTask_cases u (body req) now srv)
      as [->|(ttl & st & pos & _ & _ & _ & _ & ->)]; [left; by exists t'|].
    unfold server_of. simpl. rewrite elem_of_app, list_elem_of_singleton.
    intros [Hin| -> ]; [left; by exists t'|].
    right. simpl. repeat split; try done. by exists u.
  - apply findOne_by_id_user_Some in Hfind as (Hin & Hoid & Huid).
    assert (Hwrite : forall now' t st pos,
               updated_from now' task t st pos ->
               t' ∈ replace_doc t (tasks srv) ->
               exists t0, t0 ∈ tasks srv ∧ _id t0 = _id t' ∧ userId t0 = userId t'
                          ∧ createdAt t0 = createdAt t').
    { intros now' t st pos (Hid & Hown & Hcr & _) Ht'.
      apply elem_of_replace_doc in Ht' as [( -> & _)|Ht']; [|by exists t'].
      by exists task. }
    destruct Hroute as [(_ & _ & ->)|[(_ & ->)|(_ & _ & ->)]].
    + destruct (updateTask_cases u task (body req) now srv)
        as [->|(st & pos & t & _ & _ & Hup & ->)]; [left; by exists t'|].
      unfold server_of. simpl. intros Ht'. left. by eapply Hwrite.
    + unfold server_of, findByIdAndDelete. simpl. intros Ht'.
      apply list_elem_of_filter in Ht' as [_ Ht']. left. by exists t'.
    + destruct (updateTaskStatus_cases u task (body req) now srv)
        as [->|(lane & pos & t & _ & _ & Hup & ->)]; [left; by exists t'|].
      unfold server_of. simpl. intros Ht'. left. by eapply Hwrite.
Qed.

Lemma identity_fields_never_change_witness :
  mkTask 0 1 "Write spec" "" done 0 (Some 20%Z) 10 20
      ∈ tasks (server_of (router Scenario.mark_done 20 Scenario.srv1))
  ∧ ((exists t, t ∈ tasks Scenario.srv1 ∧ _id t = 0 ∧ userId t = 1
                ∧ createdAt t = 10%Z)
     ∨ (route Scenario.mark_done = POST_tasks ∧ 0 = next_oid Scenario.srv1
        ∧ 10%Z = 20%Z
        ∧ exists u, credential Scenario.mark_done = inl u ∧ 1 = user_id u)).
Proof.
  assert (H : mkTask 0 1 "Write spec" "" done 0 (Some 20%Z) 10 20
              ∈ tasks (server_of (router Scenario.mark_done 20 Scenario.srv1))).
  { vm_compute. left. }
  split; [exact H|].
  apply (identity_fields_never_change Scenario.mark_done 20%Z Scenario.srv1 _ H).
Defined.

Lemma router_dispatch req now srv u :
  passes_guards req -> credential req = inl u ->
  router req now srv
  = match dispatch u req now srv with
    | Next h => h
    | Reply r => (r, srv, [])
    end.
Proof. intros Hg Hu. unfold router. by rewrite (chain_dispatch _ _ _ u). Qed.

(** X7.  Deleting works once.  On a reachable server, the owner's [DELETE]
    of a stored task is answered 200 with the deleted record, and removes
    that task and no other; the same request sent again is answered 404
    [TASK_NOT_FOUND] and changes nothing. *)
Theorem delete_removes_the_task (srv : Server) (req : Request) (now : Time)
    (u : User) (task : Task) :
  Reachable srv ->
  passes_guards req ->
  credential req = inl u ->
  route req = DELETE_task (ValidId (_id task)) ->
  task ∈ tasks srv ->
  userId task = user_id u ->
  let h := router req now srv in
  response_of h = mkResponse 200 true (DeletedData "Task deleted successfully" task)
  ∧ (forall t, t ∈ tasks (server_of h) ↔ t ∈ tasks srv ∧ t ≠ task)
  ∧ (forall now',
       router req now' (server_of h)
       = (error_response 404 "TASK_NOT_FOUND", server_of h, [])).
Proof.
  intros Hreach Hg Hu Hroute Hin Hown h. subst h.
  destruct (Reachable_Inv srv Hreach) as [Hids _ _ _ _ _].
  rewrite (router_dispatch _ _ _ u) by done.
  unfold dispatch. rewrite Hroute. simpl.
  rewrite <- Hown, findOne_found by done. simpl.
  unfold response_of, server_of. simpl. split; [done|]. split.
  - intros t. unfold findByIdAndDelete. rewrite list_elem_of_filter. split.
    + intros [Hid Ht]. split; [done|]. by intros ->.
    + intros [Ht Hne]. split; [|done]. intros Hid. apply Hne.
      by eapply unique_by_id.
  - intros now'. rewrite (router_dispatch _ _ _ u) by done.
    unfold dispatch. rewrite Hroute. simpl.
    rewrite findOne_missing; [done|]. unfold findByIdAndDelete.
    intros Hx. apply list_elem_of_fmap in Hx as (x & Hid & Hx).
    apply list_elem_of_filter in Hx as [Hne _]. by apply Hne.
Qed.

Lemma delete_removes_the_task_witness :
  Reachable Scenario.srv2
  ∧ router (Scenario.request (DELETE_task (ValidId 0)) Scenario.alice
              Scenario.no_body Scenario.no_query) 41
           (server_of
              (router (Scenario.request (DELETE_task (ValidId 0)) Scenario.alice
                         Scenario.no_body Scenario.no_query) 40 Scenario.srv2))
    = (error_response 404 "TASK_NOT_FOUND",
       server_of
         (router (Scenario.request (DELETE_task (ValidId 0)) Scenario.alice
                    Scenario.no_body Scenario.no_query) 40 Scenario.srv2),
       []).
Proof.
  split; [apply reachable_srv2|].
  refine (proj2 (proj2 (delete_removes_the_task Scenario.srv2
                          (Scenario.request (DELETE_task (ValidId 0)) Scenario.alice
                             Scenario.no_body Scenario.no_query)
                          40%Z Scenario.alice
                          (mkTask 0 1 "Write spec" "" todo 0 None 10 10)
                          reachable_srv2 _ eq_refl eq_refl _ eq_refl)) 41%Z).
  - repeat split. vm_compute. discriminate.
  - vm_compute. left.
Defined.

(** X8.  The record a creation answers with can be addressed by its owner
    and by nobody else.  When a request on a reachable server is answered
    201 with task [t], then [t] belongs to the caller, its id was used by no
    stored task, it is appended to the collection, the ownership lookup of
    the caller finds it under its id, and the lookup of every other account
    finds nothing under that id. *)
Theorem created_task_is_addressable (srv : Server) (req : Request) (now : Time)
    (t : Task) :
  Reachable srv ->
  response_of (router req now srv) = mkResponse 201 true (TaskData t) ->
  exists u,
    credential req = inl u
    ∧ userId t = user_id u
    ∧ (_id t ∉ _id <$> tasks srv)
    ∧ tasks (server_of (router req now srv)) = tasks srv ++ [t]
    ∧ findOne_by_id_user (_id t) (user_id u) (tasks (server_of (router req now srv)))
      = Some t
    ∧ forall other, other ≠ user_id u ->
        findOne_by_id_user (_id t) other (tasks (server_of (router req now srv)))
        = None.
Proof.
  intros Hreach.
  assert (Hreach' : Reachable (server_of (router req now srv))).
  { eapply reach_step; [exact Hreach|apply step_request]. }
  destruct (Reachable_Inv _ Hreach') as [Hids' _ _ _ _ _].
  destruct (Reachable_Inv _ Hreach) as [_ Hfresh _ _ _ _].
  revert Hids'.
  destruct (router_cases req now srv)
    as [(r & -> & Hr)|[(u & _ & _ & _ & ->)|[(u & Hu & _ & _ & ->)
       |(u & oid & task & _ & _ & Hroute)]]].
  - intros _ Hresp. unfold response_of in Hresp. simpl in Hresp.
    rewrite Hresp in Hr. done.
  - intros _. unfold response_of, getTasks. simpl.
    destruct (parseInt _); [|done]. destruct (parseInt _); [|done].
    by destruct (_ <? _)%Z.
  - destruct (createTask_cases u (body req) now srv)
      as [->|(ttl & st & pos & _ & _ & _ & _ & ->)]; [done|].
    unfold response_of, server_of. simpl. intros Hids' [= <-].
    exists u. simpl. split; [done|]. split; [done|]. split.
    { intros Hx. apply list_elem_of_fmap in Hx as (x & Hid & Hx).
      rewrite Forall_forall in Hfresh. apply Hfresh in Hx. lia. }
    split; [done|].
    set (t := created srv u ttl (b_description (body req)) st pos now) in *.
    assert (Hin : t ∈ tasks srv ++ [t]).
    { apply elem_of_app. right. by apply list_elem_of_singleton. }
    split.
    + by apply (findOne_found _ t).
    + intros other Hother.
      destruct (findOne_by_id_user (next_oid srv) other (tasks srv ++ [t]))
        as [x|] eqn:Hx; [|done].
      apply findOne_by_id_user_Some in Hx as (Hxin & Hxid & Hxu).
      exfalso. apply Hother. rewrite <- Hxu.
      by rewrite (unique_by_id _ _ _ Hids' Hxin Hin Hxid).
  - intros _.
    destruct Hroute as [(_ & _ & ->)|[(_ & ->)|(_ & _ & ->)]].
    + destruct (updateTask_cases u task (body req) now srv)
        as [->|(st & pos & t0 & _ & _ & _ & ->)]; done.
    + done.
    + destruct (updateTaskStatus_cases u task (body req) now srv)
        as [->|(lane & pos & t0 & _ & _ & _ & ->)]; done.
Qed.

Lemma created_task_is_addressable_witness :
  Reachable Scenario.srv1
  ∧ exists u,
      credential (Scenario.request POST_tasks Scenario.alice Scenario.write_spec
                    Scenario.no_query) = inl u
      ∧ userId (mkTask 1 1 "Write spec" "" todo 1 None 11 11) = user_id u.
Proof.
  split; [apply reachable_srv1|].
  destruct (created_task_is_addressable Scenario.srv1
              (Scenario.request POST_tasks Scenario.alice Scenario.write_spec
                 Scenario.no_query)
              11%Z (mkTask 1 1 "Write spec" "" todo 1 None 11 11)
              reachable_srv1 eq_refl) as (u & Hu & Hown & _).
  by exists u.
Defined.

(** X9.  [PUT] merges the body into the stored task.  When the owner's
    update of task [task] is answered 200 with [t], each of title,
    description and lane is the value the body carries under that key, the
    rank is the Number that the body's rank is cast to (the double nearest
    to the integer it names), and each is the stored value when the key
    is absent; [_id], [userId] and [createdAt] are those of [task]; and [t]
    is [task] itself, with its old [updatedAt], when none of the four fields
    differs, while otherwise [updatedAt] is the time of the request. *)
Theorem put_merges_the_body (srv : Server) (req : Request) (now : Time) (u : User)
    (oid : ObjectId) (task t : Task) :
  credential req = inl u ->
  route req = PUT_task (ValidId oid) ->
  findOne_by_id_user oid (user_id u) (tasks srv) = Some task ->
  response_of (router req now srv) = mkResponse 200 true (TaskData t) ->
  _id t = _id task ∧ userId t = userId task ∧ createdAt t = createdAt task
  ∧ title t = default (title task) (b_title (body req))
  ∧ description t = default (description task) (b_description (body req))
  ∧ status_name (status t)
    = default (status_name (status task)) (b_status (body req))
  ∧ match b_position (body req) with
    | Some v => cast_number v = Some (position t)
    | None => position t = position task
    end
  ∧ (title t = title task ∧ description t = description task
     ∧ status t = status task ∧ position t = position task -> t = task)
  ∧ (¬ (title t = title task ∧ description t = description task
        ∧ status t = status task ∧ position t = position task) ->
     updatedAt t = now).
Proof.
  intros Hu Hroute Hfind.
  destruct (router_cases req now srv)
    as [(r & -> & Hr)|[(u' & _ & Hr & _)|[(u' & _ & Hr & _)
       |(u' & oid' & task' & Hu' & Hfind' & Hroute')]]]; try congruence.
  { intros Hresp. unfold response_of in Hresp. simpl in Hresp.
    rewrite Hresp in Hr. done. }
  rewrite Hu in Hu'. injection Hu' as <-.
  destruct Hroute' as [(Hr & _ & ->)|[(Hr & _)|(Hr & _)]]; try congruence.
  rewrite Hroute in Hr. injection Hr as <-.
  rewrite Hfind in Hfind'. injection Hfind' as <-.
  destruct (updateTask_saved u task (body req) now srv)
    as [->|(st & pos & Hst & Hpos & _ & ->)]; [done|].
  unfold response_of. simpl. intros [= <-].
  unfold saved. simpl. repeat split.
  - unfold optional_status in Hst.
    destruct (b_status (body req)) as [s|]; simpl in *; [|by injection Hst as <-].
    destruct (parse_status s) as [lane|] eqn:Hs; [|done].
    injection Hst as <-. simpl. by apply Listing.parse_status_name.
  - unfold optional_number in Hpos.
    destruct (b_position (body req)) as [v|]; simpl in *;
      [|by injection Hpos as <-].
    destruct (cast_number v) as [z|]; [|done]. by injection Hpos as <-.
  - intros Hun. fold (saved now task (b_title (body req)) (b_description (body req))
                            st pos).
    by apply saved_unchanged.
  - intros Hch. rewrite decide_False; [done|]. intros Hun. by apply Hch.
Qed.

Lemma put_merges_the_body_witness :
  title (mkTask 0 1 "Write the spec" "" todo (2 ^ 53) None 10 20) = "Write the spec"
  ∧ description (mkTask 0 1 "Write the spec" "" todo (2 ^ 53) None 10 20) = ""
  ∧ cast_number (IntLit 9007199254740993)
    = Some (position (mkTask 0 1 "Write the spec" "" todo (2 ^ 53) None 10 20)).
Proof.
  pose proof (put_merges_the_body Scenario.srv1
                (Scenario.request (PUT_task (ValidId 0)) Scenario.alice
                   (mkBody (Some "Write the spec") None None
                           (Some (IntLit 9007199254740993)) [])
                   Scenario.no_query)
                20%Z Scenario.alice 0
                (mkTask 0 1 "Write spec" "" todo 0 None 10 10)
                (mkTask 0 1 "Write the spec" "" todo (2 ^ 53) None 10 20)
                eq_refl eq_refl eq_refl eq_refl) as (_ & _ & _ & Ht & Hd & _ & Hp & _).
  split; [exact Ht|split; [exact Hd|exact Hp]].
Defined.

(** X10.  Updates can be retried.  On a reachable server, a [PUT] or a
    status [PATCH] that succeeded and is sent again, at any later time, is
    answered with the same record and leaves the collection as the first
    one left it: nothing is modified, so not even [updatedAt] moves. *)
Theorem repeated_update_changes_nothing (srv : Server) (req : Request)
    (now now' : Time) :
  Reachable srv ->
  (exists id, route req = PUT_task id ∨ route req = PATCH_task_status id) ->
  success (response_of (router req now srv)) = true ->
  let srv' := server_of (router req now srv) in
  response_of (router req now' srv') = response_of (router req now srv)
  ∧ server_of (router req now' srv') = srv'.
Proof.
  intros Hreach (id & Hroute) Hok srv'. subst srv'.
  destruct (Reachable_Inv srv Hreach) as [Hids _ _ _ _ _].
  revert Hok.
  destruct (guards_cases req) as [(r & Hr & Hchain)|(u & Hu & Hg)].
  { unfold router. rewrite Hchain. unfold response_of. simpl. congruence. }
  rewrite !(router_dispatch _ _ _ u) by done. unfold dispatch.
  assert (Hstored : forall t task, task ∈ tasks srv -> _id t = _id task ->
             t ∈ replace_doc t (tasks srv)).
  { intros t task Hin Hid. unfold replace_doc.
    apply list_elem_of_fmap. exists task. split; [|done].
    by rewrite decide_True. }
  destruct Hroute as [Hroute|Hroute]; rewrite Hroute; simpl;
    (destruct id as [oid|raw]; simpl; [|done]);
    (destruct (findOne_by_id_user oid (user_id u) (tasks srv)) as [task|] eqn:Hfind;
     simpl; [|done]);
    apply findOne_by_id_user_Some in Hfind as (Hin & Hoid & Hown).
  - destruct (validateUpdateTask (body req)) eqn:Hv; simpl; [|done].
    destruct (updateTask_saved u task (body req) now srv)
      as [->|(st & pos & Hst & Hpos & _ & ->)]; [done|].
    intros _. unfold response_of, server_of. simpl.
    set (t := saved now task (b_title (body req)) (b_description (body req)) st pos).
    assert (Hfind' : findOne_by_id_user oid (user_id u) (replace_doc t (tasks srv))
                     = Some t).
    { rewrite <- Hoid, <- Hown.
      apply (findOne_found (replace_doc t (tasks srv)) t).
      - by rewrite replace_doc_ids.
      - by apply (Hstored t task). }
    rewrite Hfind'. simpl.
    rewrite (updateTask_eq u t (body req) now' _ st pos Hst Hpos)
      by apply unchanged_valid, saved_again.
    simpl. rewrite (saved_unchanged now' t) by apply saved_again.
    split; [done|]. unfold with_tasks. simpl. f_equal.
    apply replace_doc_self; [by rewrite replace_doc_ids|by apply (Hstored t task)].
  - destruct (validateUpdateTaskStatus (body req)) eqn:Hv; simpl; [|done].
    destruct (updateTaskStatus_saved u task (body req) now srv)
      as [->|(lane & pos & Hst & Hpos & _ & ->)]; [done|].
    intros _. unfold response_of, server_of. simpl.
    set (t := saved now task None None (Some lane) pos).
    assert (Hfind' : findOne_by_id_user oid (user_id u) (replace_doc t (tasks srv))
                     = Some t).
    { rewrite <- Hoid, <- Hown.
      apply (findOne_found (replace_doc t (tasks srv)) t).
      - by rewrite replace_doc_ids.
      - by apply (Hstored t task). }
    rewrite Hfind'. simpl.
    rewrite (updateTaskStatus_eq u t (body req) now' _ lane pos Hst Hpos)
      by apply unchanged_valid, saved_again.
    simpl. rewrite (saved_unchanged now' t) by apply saved_again.
    split; [done|]. unfold with_tasks. simpl. f_equal.
    apply replace_doc_self; [by rewrite replace_doc_ids|by apply (Hstored t task)].
Qed.

Lemma repeated_update_changes_nothing_witness :
  Reachable Scenario.srv1
  ∧ server_of (router Scenario.mark_done 90
                 (server_of (router Scenario.mark_done 20 Scenario.srv1)))
    = server_of (router Scenario.mark_done 20 Scenario.srv1).
Proof.
  split; [apply reachable_srv1|].
  refine (proj2 (repeated_update_changes_nothing Scenario.srv1 Scenario.mark_done
                   20%Z 90%Z reachable_srv1 _ eq_refl)).
  exists (ValidId 0). by right.
Defined.

End Writes.

(** ** The board of a connected session follows the store *)

Module BoardSync.
Import TaskModel Middleware Socket Api StoreFacts ControllerFacts Invariants.
Import TaskBoard.

(** The tasks of an account, as the server stores them. *)
Definition own_tasks (uid : ObjectId) (srv : Server) : list Task :=
  filter (fun t => userId t = uid) (tasks srv).

(** The events one socket receives out of a list of deliveries. *)
Definition received (sid : nat) (ds : list Delivery) : list Event :=
  (filter (fun d => d.1 = sid) ds).*2.

Lemma received_sessions sid ev (l : list Conn) :
  NoDup (socket_id <$> l) ->
  received sid ((fun s => (socket_id s, ev)) <$> l)
  = if decide (sid ∈ socket_id <$> l) then [ev] else [].
Proof.
  unfold received. induction l as [|s l IH]; [done|].
  rewrite !fmap_cons, NoDup_cons. intros [Hs Hnd].
  rewrite filter_cons. simpl.
  destruct (decide (socket_id s = sid)) as [<-|Hne].
  - rewrite decide_True by left. rewrite fmap_cons. simpl. f_equal.
    specialize (IH Hnd). by rewrite decide_False in IH.
  - rewrite IH by done.
    destruct (decide (sid ∈ socket_id <$> l)) as [Hin|Hin].
    + rewrite decide_True; [done|]. by right.
    + rewrite decide_False; [done|]. rewrite elem_of_cons. intros [?|?]; auto.
Qed.

Lemma session_member (i : Io) c uid :
  NoDup (socket_id <$> i) -> c ∈ i ->
  socket_id c ∈ socket_id <$> FanOut.sessions_of uid i
  ↔ user_id (socket_user c) = uid.
Proof.
  intros Hnd Hc. unfold FanOut.sessions_of. split.
  - intros Hin. apply list_elem_of_fmap in Hin as (s & Hid & Hs).
    apply list_elem_of_filter in Hs as [Hu Hs].
    by rewrite (FanOut.socket_by_id i c s Hnd Hc Hs Hid).
  - intros Hu. apply list_elem_of_fmap_2. by apply list_elem_of_filter.
Qed.

(** The deliveries of one [emitTaskEvent], as one socket sees them. *)
Lemma received_emit srv i c uid kind ev_kind t now :
  Inv srv -> io srv = Some i -> c ∈ i ->
  emitTaskEvent i (toString uid) kind t now
  = to_room_emit i (user_room (toString uid)) (ev_kind t) ->
  received (socket_id c) (emit srv uid kind t now)
  = if decide (user_id (socket_user c) = uid) then [ev_kind t] else [].
Proof.
  intros HI Hio Hc Hemit.
  pose proof (inv_rooms _ HI i Hio) as Hrooms.
  pose proof (inv_sockets _ HI i Hio) as Hnd.
  rewrite (FanOut.emit_to_sessions srv i uid kind ev_kind t now Hrooms Hio Hemit).
  rewrite received_sessions.
  - destruct (decide (user_id (socket_user c) = uid)) as [Hu|Hu].
    + rewrite decide_True; [done|]. by apply session_member.
    + rewrite decide_False; [done|]. by rewrite session_member.
  - unfold FanOut.sessions_of.
    eapply sublist_NoDup; [exact Hnd|apply fmap_sublist, sublist_filter].
Qed.

Lemma filter_replace_doc_own (P : Task -> Prop) `{forall x, Decision (P x)} t c :
  (forall x, x ∈ c -> _id x = _id t -> P x) -> P t ->
  filter P (replace_doc t c) = replace_doc t (filter P c).
Proof.
  intros Hc Ht. unfold replace_doc.
  induction c as [|x c IH]; [done|].
  rewrite fmap_cons, !filter_cons, IH by (intros y Hy; apply Hc; by right).
  destruct (decide (_id x = _id t)) as [Hid|Hid].
  - rewrite !decide_True; [|apply Hc; [by left|done]|done].
    rewrite fmap_cons. by rewrite decide_True.
  - destruct (decide (P x)); [|done]. rewrite fmap_cons. by rewrite decide_False.
Qed.

Lemma handleTaskCreated_fresh ev (b : list Task) :
  _id (ev_task ev) ∉ _id <$> b -> handleTaskCreated ev b = b ++ [ev_task ev].
Proof.
  intros Hnew. unfold handleTaskCreated.
  destruct (existsb _ b) eqn:Hex; [|done].
  apply existsb_exists in Hex as (x & Hx & Hid).
  apply bool_decide_eq_true in Hid. exfalso. apply Hnew. rewrite <- Hid.
  apply list_elem_of_fmap_2. by apply list_elem_of_In.
Qed.

Lemma handleTaskDeleted_filter oid name t now (b : list Task) :
  handleTaskDeleted (mkEvent name (Some oid) t now) b = findByIdAndDelete oid b.
Proof.
  unfold handleTaskDeleted, findByIdAndDelete. simpl.
  apply list_filter_iff. intros x. split; intros H; congruence.
Qed.

(** The listeners run on the events of one request, from the account's tasks
    in the order of the store. *)
Lemma receive_all_own_tasks (srv : Server) (i : Io) (c : Conn) (req : Request)
    (now : Time) :
  Reachable srv ->
  io srv = Some i ->
  c ∈ i ->
  let uid := user_id (socket_user c) in
  let h := router req now srv in
  receive_all (received (socket_id c) (deliveries_of h)) (own_tasks uid srv)
  = own_tasks uid (server_of h).
Proof.
  intros Hreach Hio Hc uid h. subst h.
  pose proof (Reachable_Inv srv Hreach) as HI.
  destruct HI as [Hids Hfresh Hranks Hcompl Hrooms Hsock].
  pose proof (Reachable_Inv srv Hreach) as HI.
  unfold own_tasks.
  destruct (router_cases req now srv)
    as [(r & -> & _)|[(u & _ & _ & _ & ->)|[(u & Hu & _ & _ & ->)
       |(u & oid & task & Hu & Hfind & Hroute)]]]; try done.
  - destruct (createTask_cases u (body req) now srv)
      as [->|(ttl & st & pos & _ & _ & _ & _ & ->)]; [done|].
    unfold deliveries_of, server_of. simpl.
    set (t := created srv u ttl (b_description (body req)) st pos now).
    rewrite (received_emit srv i c (user_id u) "task-created"
               (fun t => mkEvent "task-created" None t now) t now HI Hio Hc eq_refl).
    rewrite filter_app, filter_cons, filter_nil.
    change (userId t) with (user_id u).
    destruct (decide (user_id (socket_user c) = user_id u)) as [He|He].
    + rewrite decide_True by done. unfold receive_all, receive. simpl.
      apply handleTaskCreated_fresh. simpl.
      intros Hin. apply list_elem_of_fmap in Hin as (x & Hid & Hx).
      apply list_elem_of_filter in Hx as [_ Hx].
      rewrite Forall_forall in Hfresh. apply Hfresh in Hx. lia.
    + rewrite decide_False by done. by rewrite app_nil_r.
  - apply findOne_by_id_user_Some in Hfind as (Hin & Hoid & Huid).
    assert (Hwrite : forall now' t st pos kind,
               kind = "task-updated" ∨ kind = "task-status-updated" ->
               updated_from now' task t st pos ->
               receive_all
                 (received (socket_id c) (emit srv (user_id u) kind t now))
                 (filter (fun t => userId t = uid) (tasks srv))
               = filter (fun t => userId t = uid) (replace_doc t (tasks srv))).
    { intros now' t st pos kind Hkind (Hid & Hown & _).
      assert (Hrec : received (socket_id c) (emit srv (user_id u) kind t now)
                     = if decide (user_id (socket_user c) = user_id u)
                       then [mkEvent kind None t now] else []).
      { destruct Hkind as [ -> | -> ].
        - by apply (received_emit srv i c (user_id u) "task-updated"
                      (fun t => mkEvent "task-updated" None t now)).
        - by apply (received_emit srv i c (user_id u) "task-status-updated"
                      (fun t => mkEvent "task-status-updated" None t now)). }
      rewrite Hrec.
      assert (Hsame : forall x, x ∈ tasks srv -> _id x = _id t -> x = task).
      { intros x Hx Hxid. eapply unique_by_id; eauto. congruence. }
      destruct (decide (user_id (socket_user c) = user_id u)) as [He|He].
      - rewrite filter_replace_doc_own.
        + unfold receive_all, receive. simpl.
          by destruct Hkind as [ -> | -> ].
        + intros x Hx Hxid. rewrite (Hsame x Hx Hxid). subst uid. congruence.
        + simpl. subst uid. congruence.
      - simpl. symmetry. apply Writes.filter_replace_doc.
        + intros x Hx Hxid. rewrite (Hsame x Hx Hxid). subst uid. congruence.
        + subst uid. congruence. }
    destruct Hroute as [(_ & _ & ->)|[(_ & ->)|(_ & _ & ->)]].
    + destruct (updateTask_cases u task (body req) now srv)
        as [->|(st & pos & t & _ & _ & Hup & ->)]; [done|].
      unfold deliveries_of, server_of. simpl. eapply Hwrite; [by left|exact Hup].
    + unfold deleteTask, deliveries_of, server_of. simpl.
      rewrite (received_emit srv i c (user_id u) "task-deleted"
                 (fun t => mkEvent "task-deleted" (Some (_id t)) t now)
                 task now HI Hio Hc eq_refl).
      destruct (decide (user_id (socket_user c) = user_id u)) as [He|He].
      * unfold receive_all, receive. simpl.
        rewrite handleTaskDeleted_filter. unfold findByIdAndDelete.
        rewrite !list_filter_filter. apply list_filter_iff. intros x. tauto.
      * simpl. symmetry. apply Writes.filter_delete.
        intros x Hx Hxid. rewrite (unique_by_id _ _ _ Hids Hx Hin Hxid).
        subst uid. congruence.
    + destruct (updateTaskStatus_cases u task (body req) now srv)
        as [->|(lane & pos & t & _ & _ & Hup & ->)]; [done|].
      unfold deliveries_of, server_of. simpl. eapply Hwrite; [by right|exact Hup].
Qed.

Lemma reachable_srv1_online : Reachable FanOut.srv1_online.
Proof.
  eapply reach_step.
  2:{ apply (step_connect 2 (inl Scenario.alice)
               (connect 1 (inl Scenario.bob) (connect 0 (inl Scenario.alice) []))
               (mkServer (tasks Scenario.srv1) (next_oid Scenario.srv1)
                  (Some (connect 1 (inl Scenario.bob)
                           (connect 0 (inl Scenario.alice) []))))
               eq_refl).
      refine (bool_decide_unpack _ _). by vm_compute. }
  eapply reach_step.
  2:{ apply (step_connect 1 (inl Scenario.bob) (connect 0 (inl Scenario.alice) [])
               (mkServer (tasks Scenario.srv1) (next_oid Scenario.srv1)
                  (Some (connect 0 (inl Scenario.alice) [])))
               eq_refl).
      refine (bool_decide_unpack _ _). by vm_compute. }
  eapply reach_step.
  2:{ apply (step_connect 0 (inl Scenario.alice) [] Scenario.srv1 eq_refl).
      refine (bool_decide_unpack _ _). by vm_compute. }
  apply Writes.reachable_srv1.
Qed.

Lemma existsb_perm {A} (f : A -> bool) (l l' : list A) :
  l ≡ₚ l' -> existsb f l = existsb f l'.
Proof.
  intros Hp. apply eq_true_iff_eq. rewrite !existsb_exists.
  split; intros (x & Hx & Hf); exists x; split; try done;
    apply list_elem_of_In; apply list_elem_of_In in Hx.
  - by rewrite <- Hp.
  - by rewrite Hp.
Qed.

Lemma receive_perm ev (b b' : list Task) : b ≡ₚ b' -> receive ev b ≡ₚ receive ev b'.
Proof.
  intros Hp. unfold receive, handleTaskCreated, handleTaskUpdated, handleTaskDeleted,
    handleTaskStatusUpdated.
  destruct (String.eqb (ev_name ev) "task-created").
  { rewrite <- (existsb_perm _ b b' Hp). destruct (existsb _ b); by rewrite Hp. }
  destruct (String.eqb (ev_name ev) "task-updated"); [by rewrite Hp|].
  destruct (String.eqb (ev_name ev) "task-deleted"); [by rewrite Hp|].
  destruct (String.eqb (ev_name ev) "task-status-updated"); by rewrite Hp.
Qed.

Lemma receive_all_perm evs (b b' : list Task) :
  b ≡ₚ b' -> receive_all evs b ≡ₚ receive_all evs b'.
Proof.
  unfold receive_all. revert b b'. induction evs as [|ev evs IH]; intros b b' Hp; [done|].
  simpl. by apply IH, receive_perm.
Qed.

(** X11.  The board of a connected session follows the store.  Take a
    reachable server, one of its connected sockets, and a board that holds
    the tasks of the socket's account as the server stores them, in any
    order.  After any request of any account, the board that results from
    running the listeners on the events this socket receives holds the tasks
    of the account as the server stores them now: the creation, update,
    delete or status change of another session of the account is applied,
    and the requests of other accounts, which send this socket nothing,
    change nothing it should show. *)
Theorem board_follows_the_store (srv : Server) (i : Io) (c : Conn) (req : Request)
    (now : Time) (board : list Task) :
  Reachable srv ->
  io srv = Some i ->
  c ∈ i ->
  let uid := user_id (socket_user c) in
  let h := router req now srv in
  board ≡ₚ own_tasks uid srv ->
  receive_all (received (socket_id c) (deliveries_of h)) board
    ≡ₚ own_tasks uid (server_of h).
Proof.
  intros Hreach Hio Hc uid h Hboard. subst uid h.
  rewrite (receive_all_perm _ _ _ Hboard).
  by rewrite (receive_all_own_tasks srv i c req now Hreach Hio Hc).
Qed.

Lemma board_follows_the_store_witness :
  Reachable FanOut.srv1_online
  ∧ receive_all
      (received 2 (deliveries_of (router Scenario.mark_done 20 FanOut.srv1_online)))
      (own_tasks 1 FanOut.srv1_online)
    ≡ₚ own_tasks 1 (server_of (router Scenario.mark_done 20 FanOut.srv1_online)).
Proof.
  split; [apply reachable_srv1_online|].
  refine (board_follows_the_store FanOut.srv1_online _
            (mkConn 2 Scenario.alice [user_room (toString 1)])
            Scenario.mark_done 20%Z (own_tasks 1 FanOut.srv1_online)
            reachable_srv1_online eq_refl _ _).
  - vm_compute. right. right. left.
  - reflexivity.
Defined.

(** X12.  Socket events can arrive twice.  Running a listener again on the
    event it has just handled changes nothing more, for each of the four
    events and for an event of any other name; and a board on which no two
    tasks share an id is still one after any event. *)
Theorem events_can_be_replayed (ev : Event) (b : list Task) :
  receive ev (receive ev b) = receive ev b
  ∧ (NoDup (_id <$> b) -> NoDup (_id <$> receive ev b)).
Proof.
  assert (Hupd : forall b : list Task,
             handleTaskUpdated ev (handleTaskUpdated ev b) = handleTaskUpdated ev b
             ∧ (NoDup (_id <$> b) -> NoDup (_id <$> handleTaskUpdated ev b))).
  { intros b0. split.
    - unfold handleTaskUpdated. rewrite <- list_fmap_compose.
      apply list_fmap_ext. intros _ x _. simpl.
      destruct (decide (_id x = _id (ev_task ev))) as [He|He].
      + by rewrite decide_True.
      + by rewrite decide_False.
    - change (handleTaskUpdated ev b0) with (replace_doc (ev_task ev) b0).
      by rewrite replace_doc_ids. }
  unfold receive.
  destruct (String.eqb (ev_name ev) "task-created").
  { unfold handleTaskCreated.
    destruct (existsb _ b) eqn:Hex; simpl.
    - by rewrite Hex.
    - rewrite existsb_app. simpl. rewrite bool_decide_eq_true_2 by done.
      rewrite orb_true_r. split; [done|].
      intros Hnd. rewrite fmap_app. apply NoDup_app. split; [done|].
      split; [|apply NoDup_singleton].
      intros x Hx Hx'. apply list_elem_of_singleton in Hx'. subst x.
      apply list_elem_of_fmap in Hx as (y & Hy & Hin).
      apply not_true_iff_false in Hex. apply Hex.
      apply existsb_exists. exists y. split; [by apply list_elem_of_In|].
      by apply bool_decide_eq_true. }
  destruct (String.eqb (ev_name ev) "task-updated"); [apply Hupd|].
  destruct (String.eqb (ev_name ev) "task-deleted").
  { unfold handleTaskDeleted. split.
    - rewrite list_filter_filter. apply list_filter_iff. intros x. tauto.
    - intros Hnd. eapply sublist_NoDup; [exact Hnd|apply fmap_sublist, sublist_filter]. }
  destruct (String.eqb (ev_name ev) "task-status-updated"); [apply Hupd|].
  done.
Qed.

Lemma events_can_be_replayed_witness :
  NoDup (_id <$> tasks Scenario.srv2)
  ∧ NoDup (_id <$> receive (mkEvent "task-deleted" (Some 0) 
                              (mkTask 0 1 "Write spec" "" todo 0 None 10 10) 50)
                           (tasks Scenario.srv2)).
Proof.
  assert (H : NoDup (_id <$> tasks Scenario.srv2)).
  { refine (bool_decide_unpack _ _). by vm_compute. }
  split; [exact H|].
  apply (proj2 (events_can_be_replayed
                  (mkEvent "task-deleted" (Some 0)
                     (mkTask 0 1 "Write spec" "" todo 0 None 10 10) 50)
                  (tasks Scenario.srv2)) H).
Defined.

(** X13.  The optimistic copy is the server's record.  When a session moves
    a stored task of its account to another lane, the request that
    [taskService.updateTaskStatus] sends is answered 200 with exactly the
    record [handleTaskDrop] put on the board in advance, computed at the
    server's clock: same lane, same rank, [completedAt] set when the lane is
    done and cleared otherwise, [updatedAt] renewed; the two differ only by
    the reading of the clock. *)
Theorem optimistic_copy_is_the_servers_record (srv : Server) (u : User)
    (task : Task) (newStatus : Status) (len : Z) (now : Time) :
  Reachable srv ->
  task ∈ tasks srv ->
  userId task = user_id u ->
  status task ≠ newStatus ->
  (len <= maxSize)%Z ->
  response_of
    (router (Frame.to_server
               (Debounce.patch_status (_id task) (status_name newStatus))
               (inl u) len) now srv)
  = mkResponse 200 true (TaskData (Dashboard.updatedTask task newStatus now)).
Proof.
  intros Hreach Hin Hown Hmove Hlen.
  destruct (Reachable_Inv srv Hreach) as [Hids _ _ Hcompl _ _].
  assert (Hc : completion_ok task).
  { revert Hin. generalize task. by apply Forall_forall. }
  rewrite (Writes.router_dispatch _ _ _ u); [|by repeat split|done].
  unfold Writes.dispatch. simpl.
  rewrite <- Hown, Writes.findOne_found by done. simpl.
  unfold validateUpdateTaskStatus, check, isIn_lanes. simpl.
  rewrite Listing.parse_status_of_name. simpl.
  assert (Hv : validateSync (edited task None None (Some newStatus) None) = true).
  { unfold validateSync. rewrite edited_isNew, Writes.edited_modifiedPaths. simpl.
    by destruct (decide (status task = newStatus)). }
  rewrite (Writes.updateTaskStatus_eq u task _ now srv newStatus None);
    [|simpl; by rewrite Listing.parse_status_of_name|done|done].
  unfold response_of. simpl. do 2 f_equal.
  unfold Writes.saved, Dashboard.updatedTask, completedAt_after. simpl.
  destruct (decide (newStatus = status task)) as [E|_]; [by symmetry in E|].
  destruct (decide (Writes.unchanged task None None (Some newStatus) None))
    as [Hun|_]; [exfalso; apply Hmove; symmetry; apply Hun|].
  f_equal. unfold completion_ok in Hc.
  destruct (decide (newStatus = done)) as [->|Hd].
  - destruct (completedAt task) eqn:E; [|done]. exfalso. apply Hmove, Hc. congruence.
  - by destruct (completedAt task).
Qed.

Lemma optimistic_copy_is_the_servers_record_witness :
  Reachable Scenario.srv1
  ∧ response_of
      (router (Frame.to_server (Debounce.patch_status 0 "done")
                 (inl Scenario.alice) 64) 20 Scenario.srv1)
    = mkResponse 200 true
        (TaskData (Dashboard.updatedTask
                     (mkTask 0 1 "Write spec" "" todo 0 None 10 10) done 20)).
Proof.
  split; [apply Writes.reachable_srv1|].
  refine (optimistic_copy_is_the_servers_record Scenario.srv1 Scenario.alice
            (mkTask 0 1 "Write spec" "" todo 0 None 10 10) done 64%Z 20%Z
            Writes.reachable_srv1 _ eq_refl _ _).
  - vm_compute. left.
  - discriminate.
  - vm_compute. discriminate.
Defined.

End BoardSync.

(** ** The debounced calls of the task service *)

Module ServiceFacts.
Import TaskModel Middleware TaskService.

(** What holds of the module state however it was reached: the ids in use
    were handed out; a timeout that is scheduled is neither waiting for an
    answer nor settled; and the timeout registered under a key was scheduled
    by a call with that key. *)
Record WF (s : State) : Prop := mkWF {
  wf_timeouts : forall x, x ∈ timeout_id <$> timeouts s ->
      (x < next_timeout s)%nat ∧ (x ∉ (awaiting s).*1) ∧ (x ∉ (settled s).*1);
  wf_awaiting : forall x, x ∈ (awaiting s).*1 -> (x < next_timeout s)%nat;
  wf_settled : forall x, x ∈ (settled s).*1 -> (x < next_timeout s)%nat;
  wf_map : forall k id, debounceMap s !! k = Some id -> (id < next_timeout s)%nat;
  wf_keys : forall k id t, debounceMap s !! k = Some id -> t ∈ timeouts s ->
      timeout_id t = id -> timeout_key t = k
}.

(** The key a call registers its timeout under. *)
Definition key_of (e : Event) : option string :=
  match e with
  | UpdateTask taskId _ => Some ("update-" +:+ toString taskId)
  | UpdateTaskStatus taskId _ => Some ("status-" +:+ toString taskId)
  | _ => None
  end.

(** Two calls of the same method for the same task. *)
Definition same_target (e e' : Event) : Prop :=
  match e, e' with
  | UpdateTask a _, UpdateTask b _ => a = b
  | UpdateTaskStatus a _, UpdateTaskStatus b _ => a = b
  | _, _ => False
  end.

Lemma key_of_inj e e' k : key_of e = Some k -> key_of e' = Some k -> same_target e e'.
Proof.
  destruct e as [a ?|a ?| | | |], e' as [b ?|b ?| | | |]; simpl; try done;
    intros [= <-] [= H]; try done.
  - apply (inj (String.app "")) in H. symmetry. by apply (inj pretty) in H.
  - apply (inj (String.app "")) in H. symmetry. by apply (inj pretty) in H.
Qed.

Lemma clearTimeout_elem id ts t :
  t ∈ clearTimeout id ts ↔ timeout_id t ≠ id ∧ t ∈ ts.
Proof. unfold clearTimeout. by rewrite list_elem_of_filter. Qed.

Lemma WF_initial : WF initial.
Proof.
  split; simpl.
  - intros x Hx. by apply elem_of_nil in Hx.
  - intros x Hx. by apply elem_of_nil in Hx.
  - intros x Hx. by apply elem_of_nil in Hx.
  - intros k id Hk. by rewrite lookup_empty in Hk.
  - intros k id t Hk. by rewrite lookup_empty in Hk.
Qed.

Lemma debounce_timeouts key f delay s t :
  t ∈ timeouts (debounce key f delay s).2 ->
  t ∈ timeouts s
  ∨ t = mkTimeout (next_timeout s) key (clock s + delay)%Z f.
Proof.
  unfold debounce. simpl. rewrite elem_of_app, list_elem_of_singleton.
  intros [Ht|Ht]; [left|by right].
  destruct (debounceMap s !! key); [|done].
  by apply clearTimeout_elem in Ht as [_ Ht].
Qed.

Lemma WF_debounce key f delay s : WF s -> WF (debounce key f delay s).2.
Proof.
  intros [Ht Ha Hs Hm Hk]. split.
  - intros x Hx. apply list_elem_of_fmap in Hx as (t & -> & Hin).
    apply debounce_timeouts in Hin as [Hin| -> ].
    + destruct (Ht (timeout_id t) (list_elem_of_fmap_2 _ _ _ Hin)) as (? & ? & ?).
      unfold debounce. simpl. repeat split; [lia|done|done].
    + unfold debounce. simpl. repeat split; [lia| |].
      * intros Hx. apply Ha in Hx. lia.
      * intros Hx. apply Hs in Hx. lia.
  - unfold debounce. simpl. intros x Hx. apply Ha in Hx. lia.
  - unfold debounce. simpl. intros x Hx. apply Hs in Hx. lia.
  - unfold debounce. simpl. intros k id.
    rewrite lookup_insert_Some. intros [[_ <-]|[_ Hid]]; [lia|].
    apply Hm in Hid. lia.
  - intros k id t. unfold debounce at 1. simpl.
    rewrite lookup_insert_Some. intros [[<- <-]|[Hne Hid]] Hin Htid.
    + apply debounce_timeouts in Hin as [Hin| -> ]; [|done].
      destruct (Ht (timeout_id t) (list_elem_of_fmap_2 _ _ _ Hin)) as (? & _). lia.
    + apply debounce_timeouts in Hin as [Hin| -> ]; [by eapply Hk|].
      simpl in Htid. apply Hm in Hid. lia.
Qed.

Lemma cancel_timeouts (m : gmap string nat) ts t :
  t ∈ map_fold (fun _ id ts => clearTimeout id ts) ts m -> t ∈ ts.
Proof.
  revert m. apply (map_fold_weak_ind (fun r _ => t ∈ r -> t ∈ ts)); [done|].
  intros k id m' r _ IH Hin. apply IH. by apply clearTimeout_elem in Hin as [_ ?].
Qed.

Lemma cancel_clears (m : gmap string nat) ts :
  forall k id, m !! k = Some id ->
    id ∉ timeout_id <$> map_fold (fun _ id ts => clearTimeout id ts) ts m.
Proof.
  revert m.
  apply (map_fold_weak_ind
           (fun r m => forall k id, m !! k = Some id -> id ∉ timeout_id <$> r)).
  { intros k id Hk. by rewrite lookup_empty in Hk. }
  intros i x m' r Hi IH k id. rewrite lookup_insert_Some.
  intros [[_ <-]|[_ Hk]] Hin; apply list_elem_of_fmap in Hin as (t & Hid & Ht);
    apply clearTimeout_elem in Ht as [Hne Ht].
  - by apply Hne.
  - apply (IH k id Hk). rewrite Hid. by apply list_elem_of_fmap_2.
Qed.

Lemma WF_cancel s : WF s -> WF (cancelPendingRequests s).
Proof.
  intros [Ht Ha Hs Hm Hk]. split; simpl; try done.
  intros x Hx. apply Ht. by eapply Debounce.cancel_ids.
Qed.

Lemma WF_step e s s' : step e s = Some s' -> WF s -> WF s'.
Proof.
  intros Hstep HW.
  destruct e as [taskId taskData|taskId st| |now|id|id o]; simpl in Hstep.
  - injection Hstep as <-. by apply WF_debounce.
  - injection Hstep as <-. by apply WF_debounce.
  - injection Hstep as <-. by apply WF_cancel.
  - unfold tick in Hstep. destruct (_ <=? _)%Z; [|done]. injection Hstep as <-.
    by destruct HW.
  - unfold run_timeout in Hstep.
    destruct (List.find _ (timeouts s)) as [t|] eqn:Hfind; [|done].
    destruct (_ <=? _)%Z; [|done]. injection Hstep as <-.
    apply find_some in Hfind as [Hin Hid]. apply bool_decide_eq_true in Hid.
    apply list_elem_of_In in Hin.
    destruct HW as [Ht Ha Hs Hm Hk].
    destruct (Ht id) as (Hlt & Hna & Hns).
    { rewrite <- Hid. by apply list_elem_of_fmap_2. }
    split; simpl; try done.
    + intros x Hx. apply list_elem_of_fmap in Hx as (t' & -> & Hin').
      apply clearTimeout_elem in Hin' as [Hne Hin'].
      destruct (Ht (timeout_id t') (list_elem_of_fmap_2 _ _ _ Hin')) as (? & ? & ?).
      repeat split; try done.
      rewrite fmap_app, elem_of_app. simpl. rewrite list_elem_of_singleton.
      intros [?|?]; done.
    + intros x. rewrite fmap_app, elem_of_app. simpl. rewrite list_elem_of_singleton.
      intros [Hx| -> ]; [by apply Ha|done].
    + intros k id' t' Hk' Hin'. apply clearTimeout_elem in Hin' as [_ Hin'].
      by apply Hk.
  - unfold complete in Hstep.
    destruct (List.find _ (awaiting s)) as [[i key]|] eqn:Hfind; [|done].
    injection Hstep as <-.
    apply find_some in Hfind as [Hin Hid]. apply bool_decide_eq_true in Hid.
    simpl in Hid. subst i. apply list_elem_of_In in Hin.
    apply (list_elem_of_fmap_2 fst) in Hin. simpl in Hin.
    destruct HW as [Ht Ha Hs Hm Hk].
    split; simpl.
    + intros x Hx. destruct (Ht x Hx) as (? & Hna & ?).
      repeat split; try done.
      * rewrite list_elem_of_fmap. intros ([i k] & -> & Hf).
        apply list_elem_of_filter in Hf as [_ Hf]. apply Hna.
        by apply (list_elem_of_fmap_2 fst) in Hf.
      * rewrite fmap_app, elem_of_app. simpl. rewrite list_elem_of_singleton.
        intros [?| -> ]; done.
    + intros x. rewrite list_elem_of_fmap. intros ([i k] & -> & Hf).
      apply list_elem_of_filter in Hf as [_ Hf]. apply Ha.
      by apply (list_elem_of_fmap_2 fst) in Hf.
    + intros x. rewrite fmap_app, elem_of_app. simpl. rewrite list_elem_of_singleton.
      intros [Hx| -> ]; [by apply Hs|by apply Ha].
    + intros k id'. rewrite lookup_delete_Some. intros [_ Hk']. by eapply Hm.
    + intros k id' t. rewrite lookup_delete_Some. intros [_ Hk']. by eapply Hk.
Qed.

Lemma WF_run es s s' : run es s = Some s' -> WF s -> WF s'.
Proof.
  revert s. induction es as [|e es IH]; intros s; simpl.
  - by intros [= <-].
  - destruct (step e s) as [s1|] eqn:Hstep; [|done]. simpl.
    intros Hrun HW. eapply IH; [exact Hrun|]. by eapply WF_step.
Qed.

Lemma dropped_never_runs id es s s' :
  run es s = Some s' -> Debounce.dropped id s -> ¬ is_settled id s ->
  (Run id ∉ es) ∧ ¬ is_settled id s'.
Proof.
  revert s. induction es as [|e es IH]; intros s; simpl.
  - intros [= <-] _ Hns. split; [|done]. intros H. by apply elem_of_nil in H.
  - destruct (step e s) as [s1|] eqn:Hstep; [|done]. simpl.
    intros Hrun Hd Hns.
    destruct (Debounce.step_dropped id e s s1 Hstep Hd Hns) as [Hd1 Hns1].
    destruct (IH s1 Hrun Hd1 Hns1) as [Hnot Hfin]. split; [|done].
    rewrite elem_of_cons. intros [<-|Hin]; [|done].
    simpl in Hstep. unfold run_timeout in Hstep.
    destruct (List.find _ (timeouts s)) as [t|] eqn:Hfind; [|done].
    apply find_some in Hfind as [Hin Hid]. apply bool_decide_eq_true in Hid.
    destruct Hd as (_ & Hd & _). apply Hd. rewrite <- Hid.
    apply list_elem_of_fmap_2. by apply list_elem_of_In.
Qed.

(** X14.  What [cancelPendingRequests] cancels stays cancelled.  In any
    state the module can reach, take a call whose timeout is registered
    under its key and still scheduled.  After [cancelPendingRequests] no
    key is registered; whatever happens next, the timeout of that call never
    runs, so its request is never sent, and its promise is never resolved
    nor rejected. *)
Theorem cancelled_calls_never_complete (es0 es : list Event) (s s' : State)
    (key : string) (id : nat) :
  run es0 initial = Some s ->
  debounceMap s !! key = Some id ->
  id ∈ timeout_id <$> timeouts s ->
  run es (cancelPendingRequests s) = Some s' ->
  debounceMap (cancelPendingRequests s) = ∅
  ∧ (Run id ∉ es)
  ∧ ¬ is_settled id s'.
Proof.
  intros Hreach Hkey Hpending Hrun. split; [done|].
  pose proof (WF_run _ _ _ Hreach WF_initial) as [Ht Ha Hs Hm Hk].
  destruct (Ht id Hpending) as (Hlt & Hna & Hns).
  apply (dropped_never_runs id es (cancelPendingRequests s) s' Hrun).
  - repeat split; simpl; [done| |done]. by eapply cancel_clears.
  - unfold is_settled. simpl. by rewrite bool_decide_spec.
Qed.

Lemma cancelled_calls_never_complete_witness :
  run [UpdateTaskStatus 0 "done"] initial
  = Some (updateTaskStatus 0 "done" initial).2
  ∧ (Run 0 ∉ [Tick 500])
  ∧ ¬ is_settled 0 (mkState 500 ∅ [] [] [] [] 1).
Proof.
  split; [reflexivity|].
  refine (proj2 (cancelled_calls_never_complete [UpdateTaskStatus 0 "done"]
                   [Tick 500] (updateTaskStatus 0 "done" initial).2
                   (mkState 500 ∅ [] [] [] [] 1) "status-0" 0
                   eq_refl _ _ _)).
  - vm_compute. reflexivity.
  - vm_compute. left.
  - vm_compute. reflexivity.
Defined.

(** X15.  A call disturbs only the pending call of its own kind for its own
    task.  In any state the module can reach, a call of [updateTask] or
    [updateTaskStatus] leaves scheduled every timeout that was set by a call
    of the other method or for another task: moving one task never cancels
    the pending move of another task, nor a pending edit of the same
    task. *)
Theorem calls_cancel_only_their_own_kind (es : list Event) (s s1 : State)
    (e e' : Event) (t : Timeout) :
  run es initial = Some s ->
  is_Some (key_of e) ->
  key_of e' = Some (timeout_key t) ->
  ¬ same_target e e' ->
  t ∈ timeouts s ->
  step e s = Some s1 ->
  t ∈ timeouts s1.
Proof.
  intros Hreach [k Hk] Hk' Hdiff Hin Hstep.
  pose proof (WF_run _ _ _ Hreach WF_initial) as [_ _ _ _ Hkeys].
  assert (Hne : timeout_key t ≠ k).
  { intros <-. apply Hdiff. by eapply key_of_inj. }
  assert (Hdeb : forall f delay, t ∈ timeouts (debounce k f delay s).2).
  { intros f delay. unfold debounce. simpl. apply elem_of_app. left.
    destruct (debounceMap s !! k) as [id|] eqn:Hmap; [|done].
    apply clearTimeout_elem. split; [|done].
    intros Hid. apply Hne. by eapply Hkeys. }
  destruct e as [a d|a st| | | |]; simpl in Hk; try done;
    injection Hk as <-; simpl in Hstep; injection Hstep as <-; apply Hdeb.
Qed.

Lemma calls_cancel_only_their_own_kind_witness :
  run [UpdateTaskStatus 0 "done"] initial
  = Some (updateTaskStatus 0 "done" initial).2
  ∧ mkTimeout 0 "status-0" 200 (Debounce.patch_status 0 "done")
    ∈ timeouts (updateTaskStatus 1 "done" (updateTaskStatus 0 "done" initial).2).2.
Proof.
  split; [reflexivity|].
  refine (calls_cancel_only_their_own_kind [UpdateTaskStatus 0 "done"]
            (updateTaskStatus 0 "done" initial).2 _
            (UpdateTaskStatus 1 "done") (UpdateTaskStatus 0 "done")
            (mkTimeout 0 "status-0" 200 (Debounce.patch_status 0 "done"))
            eq_refl _ eq_refl _ _ eq_refl).
  - by eexists.
  - simpl. discriminate.
  - vm_compute. left.
Defined.

End ServiceFacts.

(** ** What the task form submits *)

Module FormFacts.
Import TaskModel Middleware Socket Api StoreFacts ControllerFacts Invariants.
Import TaskModal.

(** What a form without error looks like. *)
Lemma validateForm_nil f :
  validateForm f = [] ->
  (3 <= Js.length (Js.trim (f_title f)) <= 100)%nat
  ∧ (Js.length (f_description f) <= 500)%nat
  ∧ exists lane, parse_status (f_status f) = Some lane.
Proof.
  unfold validateForm. intros H.
  apply app_eq_nil in H as [Ht H]. apply app_eq_nil in H as [Hd Hs].
  repeat split.
  - destruct (Nat.eqb_spec (Js.length (Js.trim (f_title f))) 0); [done|].
    destruct (Nat.ltb_spec (Js.length (Js.trim (f_title f))) 3); [done|]. lia.
  - destruct (Nat.eqb_spec (Js.length (Js.trim (f_title f))) 0); [done|].
    destruct (Nat.ltb_spec (Js.length (Js.trim (f_title f))) 3); [done|].
    destruct (Nat.ltb_spec 100 (Js.length (Js.trim (f_title f)))); [done|]. lia.
  - destruct (Nat.ltb_spec 500 (Js.length (f_description f))); [done|]. lia.
  - destruct (bool_decide_reflect
                (f_status f ∈ ["todo"; "inprogress"; "done"])) as [Hin|_]; [|done].
    rewrite !elem_of_cons in Hin.
    destruct Hin as [ -> | [ -> | [ -> | Hin ] ] ];
      [by eexists|by eexists|by eexists|by apply elem_of_nil in Hin].
Qed.

Lemma taskData_valid f :
  validateForm f = [] ->
  (1 <= len (Js.trim (f_title f)))%nat ->
  validateCreateTask (taskData f) = []
  ∧ validateUpdateTask (taskData f) = []
  ∧ checkForInjection (body_keys (taskData f)) = false
  ∧ texts_fit (taskData f).
Proof.
  intros H Hmin. apply validateForm_nil in H as (Ht & Hd & lane & Hs).
  pose proof (JsFacts.trim_length (f_description f)) as Hd'.
  pose proof (JsFacts.len_length (Js.trim (f_title f))) as Ht'.
  pose proof (JsFacts.len_length (Js.trim (f_description f))) as Hd''.
  unfold validateCreateTask, validateUpdateTask, taskData, check, optional, check,
    isLength, isIn_lanes, texts_fit. simpl.
  rewrite Hs. rewrite !bool_decide_eq_true_2; try done; try lia; try by eexists.
  repeat split; try done; lia.
Qed.

(** X16.  What the task form submits, the server accepts.  Take a form
    that [validateForm] finds without error, whose texts [sanitizeInput]
    leaves as they are (they carry nothing that [DOMPurify] strips or
    escapes) and whose title has a character that is not a variation
    selector.  The body it submits passes [validateNoSqlInjection],
    [validateCreateTask] and [validateUpdateTask] and the schema.  Sent as a
    creation to a reachable server by an authenticated account it is
    answered 201 with a task that has the trimmed title and description, the
    chosen lane and the rank [next_rank] of that lane; sent as an update of
    a stored task of the account it is answered 200 with the task carrying
    the submitted title, description and lane. *)
Theorem form_submission_is_accepted (purify : string -> string) (f : FormData)
    (b : Body) (srv : Server) (u : User) (size : Z) (now : Time) :
  handleSubmit f = Some b ->
  sanitizeInput purify b = b ->
  (1 <= len (Js.trim (f_title f)))%nat ->
  Reachable srv ->
  (size <= maxSize)%Z ->
  (exists t,
     response_of (router (mkRequest POST_tasks (inl u) size (sanitizeInput purify b)
                            Scenario.no_query) now srv)
     = mkResponse 201 true (TaskData t)
     ∧ title t = Js.trim (f_title f)
     ∧ description t = Js.trim (f_description f)
     ∧ status_name (status t) = f_status f
     ∧ position t = next_rank (lane_ranks (user_id u) (status t) (tasks srv)))
  ∧ (forall task, task ∈ tasks srv -> userId task = user_id u ->
       exists t,
         response_of (router (mkRequest (PUT_task (ValidId (_id task))) (inl u) size
                                (sanitizeInput purify b) Scenario.no_query) now srv)
         = mkResponse 200 true (TaskData t)
         ∧ _id t = _id task
         ∧ title t = Js.trim (f_title f)
         ∧ description t = Js.trim (f_description f)
         ∧ status_name (status t) = f_status f
         ∧ position t = position task).
Proof.
  unfold handleSubmit. destruct (validateForm f) eqn:Hform; [|done].
  intros [= <-] -> Hmin Hreach Hlen.
  destruct (Reachable_Inv srv Hreach) as [Hids _ Hranks _ _ _].
  destruct (taskData_valid f Hform Hmin) as (Hcreate & Hupdate & Hinj & Hfit).
  destruct (validateForm_nil f Hform) as (Ht & Hd & lane & Hs).
  pose proof (JsFacts.trim_length (f_description f)) as Hd'.
  assert (Hg : forall r, passes_guards (mkRequest r (inl u) size (taskData f)
                                          Scenario.no_query)).
  { intros r. by repeat split. }
  split.
  - rewrite (Writes.router_dispatch _ _ _ u) by done.
    unfold Writes.dispatch. simpl. rewrite Hcreate. simpl.
    destruct (createTask_rankless u (taskData f) now srv lane Hcreate eq_refl Hs Hranks)
      as (ttl & [= <-] & Hc).
    rewrite decide_True in Hc by done.
    rewrite Hc. unfold response_of. simpl. eexists. split; [reflexivity|].
    simpl. repeat split. by apply Listing.parse_status_name.
  - intros task Hin Hown.
    rewrite (Writes.router_dispatch _ _ _ u) by done.
    unfold Writes.dispatch. simpl.
    rewrite <- Hown, Writes.findOne_found by done. simpl.
    rewrite Hupdate. simpl.
    assert (Hv : validateSync (edited task (Some (Js.trim (f_title f)))
                                 (Some (Js.trim (f_description f))) (Some lane) None)
                 = true).
    { unfold validateSync. rewrite edited_isNew, Writes.edited_modifiedPaths.
      rewrite !forallb_app. unfold Writes.changed, path_valid.
      destruct (Writes.edited_text task (Some (Js.trim (f_title f)))
                  (Some (Js.trim (f_description f))) (Some lane) None) as (-> & ->).
      simpl.
      destruct (decide (status task = lane)),
               (decide (description task = Js.trim (f_description f))),
               (decide (title task = Js.trim (f_title f))); simpl;
        rewrite ?bool_decide_eq_true_2 by lia; done. }
    rewrite (Writes.updateTask_eq u task (taskData f) now srv (Some lane) None);
      [|simpl; by rewrite Hs|done|done].
    unfold response_of. simpl. eexists. split; [reflexivity|].
    simpl. repeat split. by apply Listing.parse_status_name.
Qed.

Lemma form_submission_is_accepted_witness :
  handleSubmit (mkFormData "  Review spec " "" "inprogress")
  = Some (mkBody (Some "Review spec") (Some "") (Some "inprogress") None [])
  ∧ exists t,
      response_of
        (router (mkRequest POST_tasks (inl Scenario.alice) 64
                   (sanitizeInput id
                      (mkBody (Some "Review spec") (Some "") (Some "inprogress")
                              None []))
                   Scenario.no_query) 30 Scenario.srv1)
      = mkResponse 201 true (TaskData t)
      ∧ title t = Js.trim (f_title (mkFormData "  Review spec " "" "inprogress")).
Proof.
  split; [reflexivity|].
  destruct (form_submission_is_accepted id
              (mkFormData "  Review spec " "" "inprogress")
              (mkBody (Some "Review spec") (Some "") (Some "inprogress") None [])
              Scenario.srv1 Scenario.alice 64%Z 30%Z eq_refl eq_refl
              ltac:(vm_compute; lia) Writes.reachable_srv1
              ltac:(vm_compute; discriminate))
    as ((t & Hr & Ht & _) & _).
  by exists t.
Defined.

End FormFacts.

(** ** One credential for requests and sockets *)

Module AuthFacts.
Import TaskModel Middleware Auth.

(** The message of a refused handshake that corresponds to the code of a
    refused request. *)
Definition socket_message (code : string) : string :=
  if String.eqb code "NO_TOKEN" then "No token provided"
  else if String.eqb code "INVALID_TOKEN_TYPE" then "Invalid token type"
  else if String.eqb code "USER_NOT_FOUND" then "User not found"
  else if String.eqb code "TOKEN_EXPIRED" then "Token expired"
  else if String.eqb code "INVALID_TOKEN" then "Invalid token"
  else "Authentication failed".

Lemma prefix_app p t : String.prefix p (p +:+ t) = true.
Proof.
  induction p as [|c p IH]; [by destruct t|].
  change (String c p +:+ t) with (String c (p +:+ t)). simpl.
  by destruct (Ascii.ascii_dec c c).
Qed.

Lemma substring_from_app p t : substring_from (String.length p) (p +:+ t) = t.
Proof. induction p as [|c p IH]; [by destruct t|done]. Qed.

Lemma nonempty_Some s : s ≠ EmptyString -> nonempty (Some s) = Some s.
Proof. by destruct s. Qed.

Lemma bearer_header token :
  nonempty (Some ("Bearer " +:+ token)) = Some ("Bearer " +:+ token)
  ∧ String.prefix "Bearer " ("Bearer " +:+ token) = true
  ∧ substring_from 7 ("Bearer " +:+ token) = token.
Proof.
  split; [reflexivity|]. split.
  - apply (prefix_app "Bearer ").
  - apply (substring_from_app "Bearer ").
Qed.

(** X17.  A socket is let in with the credential that a request is.  For
    any token verifier and any set of accounts, the handshake of a socket
    that presents a non-empty token is accepted exactly when a request with
    the header [Bearer <token>] is authenticated, and for the same account;
    when it is refused, the reason is the one the request would be refused
    for.  In particular a refresh token opens neither. *)
Theorem socket_accepts_what_requests_accept
    (verifyToken : string -> Decoded + Thrown) (findById : option ObjectId -> Found)
    (token : string) (query_token : option string) :
  token ≠ EmptyString ->
  socketAuth verifyToken findById (Some token) query_token
  = match authenticate verifyToken findById (Some ("Bearer " +:+ token)) with
    | inl user => inl user
    | inr code => inr (socket_message code)
    end.
Proof.
  intros Hne. unfold socketAuth, authenticate.
  destruct (bearer_header token) as (-> & -> & ->).
  rewrite (nonempty_Some token Hne).
  destruct (verifyToken token) as [decoded|[ | | ]]; try by destruct (nonempty query_token).
  destruct (bool_decide (d_type decoded = Some "refresh"));
    [by destruct (nonempty query_token)|].
  destruct (findById (d_userId decoded)); by destruct (nonempty query_token).
Qed.

(** A verifier that knows one access and one refresh token of account 1. *)
Definition verify_demo (token : string) : Decoded + Thrown :=
  if String.eqb token "access-1" then inl (mkDecoded (Some 1) None)
  else if String.eqb token "refresh-1" then inl (mkDecoded (Some 1) (Some "refresh"))
  else inr JsonWebTokenError.

Definition accounts_demo (oid : option ObjectId) : Found :=
  if decide (oid = Some 1) then Account (mkUser 1 "alice") else NoAccount.

Lemma socket_accepts_what_requests_accept_witness :
  "access-1" ≠ EmptyString
  ∧ socketAuth verify_demo accounts_demo (Some "access-1") None
    = inl (mkUser 1 "alice").
Proof.
  split; [discriminate|].
  rewrite (socket_accepts_what_requests_accept verify_demo accounts_demo
             "access-1" None ltac:(discriminate)).
  reflexivity.
Defined.

(** X18.  [optionalAuth] attaches an account exactly when [authenticate]
    would let the request through, and then the same account: for any token
    verifier, any set of accounts and any [Authorization] header, present or
    not. *)
Theorem optionalAuth_agrees_with_authenticate
    (verifyToken : string -> Decoded + Thrown) (findById : option ObjectId -> Found)
    (authHeader : option string) (user : User) :
  optionalAuth verifyToken findById authHeader = Some user
  ↔ authenticate verifyToken findById authHeader = inl user.
Proof.
  unfold optionalAuth, authenticate.
  destruct (nonempty authHeader) as [h|]; [|done].
  destruct (String.prefix "Bearer " h); [|done].
  destruct (verifyToken (substring_from 7 h)) as [decoded|[ | | ]]; try done.
  destruct (decide (d_type decoded = Some "refresh")) as [Hr|Hr].
  - rewrite (bool_decide_eq_true_2 (d_type decoded = Some "refresh")) by done.
    rewrite (bool_decide_eq_false_2 (d_type decoded ≠ Some "refresh"))
      by (intros H; by apply H).
    done.
  - rewrite (bool_decide_eq_false_2 (d_type decoded = Some "refresh")) by done.
    rewrite (bool_decide_eq_true_2 (d_type decoded ≠ Some "refresh")) by done.
    destruct (findById (d_userId decoded)); split; intros H; try done;
      by injection H as ->.
Qed.

End AuthFacts.

(** ** The answers of the error handler *)

Module ErrorFacts.
Import TaskModel Middleware Api ErrorHandler.

(** The answer as the task routes are modelled: status and code. *)
Definition to_response (r : ErrorResponse) : Response :=
  error_response (res_status r)
                 (match res_code r with StrCode c => c | _ => EmptyString end).

(** The errors that [globalErrorHandler] rewrites by their class. *)
Definition known_class (err : JsError) : Prop :=
  err_name err ∈ ["ValidationError"; "CastError"; "JsonWebTokenError";
                  "TokenExpiredError"]
  ∨ err_code err = NumCode 11000.

(** The two steps of [globalErrorHandler] before the answer is sent. *)
Definition normalise (err : JsError) : JsError :=
  mkJsError (err_name err) (err_message err) (err_stack err)
            (Some (statusCode_or (err_statusCode err) 500))
            (code_or (err_code err) "SERVER_ERROR")
            (err_details err) (err_isOperational err) (err_keyValue err)
            (err_errors err) (err_path err) (err_value err).

Definition classify (stack : string) (err : JsError) : option JsError :=
  if String.eqb (err_name err) "ValidationError"
     || bool_decide (err_code err = NumCode 11000)
     || String.eqb (err_name err) "CastError"
  then handleMongoError stack err
  else if String.eqb (err_name err) "JsonWebTokenError"
          || String.eqb (err_name err) "TokenExpiredError"
  then Some (handleJWTError stack err)
  else Some err.

Lemma globalErrorHandler_eq development stack err :
  globalErrorHandler development stack err
  = (if development then sendErrorDev else sendErrorProd)
      <$> classify stack (normalise err).
Proof. reflexivity. Qed.

Lemma code_or_duplicate c fallback :
  code_or c fallback = NumCode 11000 ↔ c = NumCode 11000.
Proof.
  unfold code_or. destruct c as [|[|n|n]|[|a s]]; simpl; split; intros H; done.
Qed.

Lemma classify_plain stack err :
  ¬ known_class err -> classify stack (normalise err) = Some (normalise err).
Proof.
  unfold known_class, classify. simpl. intros Hk.
  rewrite !elem_of_cons in Hk.
  destruct (String.eqb_spec (err_name err) "ValidationError"); [tauto|].
  destruct (String.eqb_spec (err_name err) "CastError"); [tauto|].
  destruct (String.eqb_spec (err_name err) "JsonWebTokenError"); [tauto|].
  destruct (String.eqb_spec (err_name err) "TokenExpiredError"); [tauto|].
  rewrite bool_decide_eq_false_2; [done|].
  rewrite code_or_duplicate. tauto.
Qed.

(** X19.  Outside development the handler leaks nothing.  Whatever error
    reaches [globalErrorHandler] when [NODE_ENV] is not [development], the
    answer carries no stack; and an error that is neither operational nor of
    a known class (Mongoose, duplicate key, JWT) is answered 500 "Something
    went wrong" / [SERVER_ERROR] without details, whatever message, status
    or code it carries itself. *)
Theorem production_leaks_nothing (stack : string) (err : JsError) (r : ErrorResponse) :
  globalErrorHandler false stack err = Some r ->
  res_stack r = None
  ∧ (err_isOperational err = false -> ¬ known_class err ->
     r = mkErrorResponse 500 "Something went wrong" (StrCode "SERVER_ERROR")
                         NoDetails None).
Proof.
  rewrite globalErrorHandler_eq. intros H. split.
  - destruct (classify stack (normalise err)) as [x|]; [|done].
    injection H as <-. unfold sendErrorProd. by destruct (err_isOperational x).
  - intros Hop Hk. rewrite (classify_plain stack err Hk) in H.
    injection H as <-. unfold sendErrorProd. simpl. by rewrite Hop.
Qed.

Lemma production_leaks_nothing_witness :
  globalErrorHandler false "at handler"
    (mkJsError "TypeError" "Cannot read properties of undefined" "at taskController"
               None NoCode NoDetails false None [] "" "")
  = Some (mkErrorResponse 500 "Something went wrong" (StrCode "SERVER_ERROR")
                          NoDetails None)
  ∧ res_stack (mkErrorResponse 500 "Something went wrong" (StrCode "SERVER_ERROR")
                               NoDetails None) = None.
Proof.
  split; [reflexivity|].
  apply (production_leaks_nothing "at handler"
           (mkJsError "TypeError" "Cannot read properties of undefined"
                      "at taskController" None NoCode NoDetails false None [] "" "")
           _ eq_refl).
Defined.

(** X20.  The errors of the task routes are answered as the routes are
    modelled, in development and outside it: the [AppError] that
    [validateTaskOwnership] passes on for a task the caller does not own is
    answered 404 [TASK_NOT_FOUND], the one for a malformed id 400
    [INVALID_ID], and a Mongoose [ValidationError] thrown by [save] in a
    controller is answered 400 [MONGOOSE_VALIDATION_ERROR], with the
    offending paths as details and never as a 500. *)
Theorem task_route_errors_are_answered (development : bool) (stack : string) :
  (to_response <$> globalErrorHandler development stack
     (AppError stack "Task not found or access denied" 404
               (StrCode "TASK_NOT_FOUND") NoDetails))
  = Some (error_response 404 "TASK_NOT_FOUND")
  ∧ (to_response <$> globalErrorHandler development stack
       (AppError stack "Invalid task ID format" 400 (StrCode "INVALID_ID")
                 NoDetails))
    = Some (error_response 400 "INVALID_ID")
  ∧ forall err,
      err_name err = "ValidationError" ->
      err_code err ≠ NumCode 11000 ->
      exists r,
        globalErrorHandler development stack err = Some r
        ∧ to_response r = mongoose_error
        ∧ res_details r = ValidationDetails (err_errors err).
Proof.
  split; [by destruct development|]. split; [by destruct development|].
  intros err Hname Hcode. rewrite globalErrorHandler_eq.
  unfold classify, handleMongoError. simpl. rewrite Hname. simpl.
  rewrite decide_False by (by rewrite code_or_duplicate).
  destruct development; eexists; repeat split.
Qed.

Lemma task_route_errors_are_answered_witness :
  err_name (mkJsError "ValidationError" "Task validation failed" "at save" None
                      NoCode NoDetails false None
                      [("title", "Task title is required", "")] "" "")
  = "ValidationError"
  ∧ exists r,
      globalErrorHandler false "at handler"
        (mkJsError "ValidationError" "Task validation failed" "at save" None
                   NoCode NoDetails false None
                   [("title", "Task title is required", "")] "" "")
      = Some r
      ∧ to_response r = mongoose_error.
Proof.
  split; [reflexivity|].
  destruct (proj2 (proj2 (task_route_errors_are_answered false "at handler"))
              (mkJsError "ValidationError" "Task validation failed" "at save" None
                         NoCode NoDetails false None
                         [("title", "Task title is required", "")] "" "")
              eq_refl ltac:(discriminate)) as (r & Hr & Hresp & _).
  by exists r.
Defined.

End ErrorFacts.

(** ** Reconnection of the client socket *)

Module ReconnectFacts.
Import SocketService.

(** The delays of attempts [a + 1] to [a + n]. *)
Definition backoff (a n : nat) : list Z :=
  (fun k => (1000 * 2 ^ Z.of_nat k)%Z) <$> seq a n.

(** Events that reset the count of attempts. *)
Definition resets (e : Event) : bool :=
  match e with
  | OnConnect | Disconnect => true
  | _ => false
  end.

Lemma backoff_snoc a n : backoff a (S n) = backoff a n ++ [(1000 * 2 ^ Z.of_nat (a + n))%Z].
Proof. unfold backoff. by rewrite seq_S, fmap_app. Qed.

Lemma attemptReconnect_spec s :
  (reconnectAttempts s <= 5)%nat ->
  exists n,
    (reconnectAttempts (attemptReconnect s) = reconnectAttempts s + n)%nat
    ∧ (reconnectAttempts (attemptReconnect s) <= 5)%nat
    ∧ scheduled (attemptReconnect s)
      = scheduled s ++ backoff (reconnectAttempts s) n.
Proof.
  intros Hle. unfold attemptReconnect, maxReconnectAttempts, reconnectDelay.
  destruct (Nat.leb_spec 5 (reconnectAttempts s)).
  - exists 0. rewrite Nat.add_0_r, app_nil_r. done.
  - exists 1. simpl. repeat split; [lia|lia|].
    unfold backoff. simpl. by rewrite Nat.sub_0_r.
Qed.

(** One event that does not reset the count. *)
Lemma step_quiet e s s' :
  step e s = Some s' -> resets e = false -> (reconnectAttempts s <= 5)%nat ->
  exists n,
    (reconnectAttempts s' = reconnectAttempts s + n)%nat
    ∧ (reconnectAttempts s' <= 5)%nat
    ∧ scheduled s' = scheduled s ++ backoff (reconnectAttempts s) n.
Proof.
  intros Hstep Hq Hle.
  assert (Hsame : forall x, reconnectAttempts x = reconnectAttempts s ->
                            scheduled x = scheduled s ->
                            exists n,
                              (reconnectAttempts x = reconnectAttempts s + n)%nat
                              ∧ (reconnectAttempts x <= 5)%nat
                              ∧ scheduled x
                                = scheduled s ++ backoff (reconnectAttempts s) n).
  { intros x Ha Hs. exists 0. rewrite Ha, Hs, Nat.add_0_r, app_nil_r. done. }
  destruct e as [ | | |reason| | ]; simpl in *; try done.
  - injection Hstep as <-. apply Hsame; unfold connect; by destruct (_ && _).
  - destruct (listening s); [|done]. injection Hstep as <-.
    unfold on_disconnect. destruct (String.eqb reason _); [by apply Hsame|].
    by apply (attemptReconnect_spec
                (mkState (socket s) (listening s) false (reconnectAttempts s)
                         (scheduled s) (reconnects s))).
  - destruct (listening s); [|done]. injection Hstep as <-.
    by apply (attemptReconnect_spec
                (mkState (socket s) (listening s) false (reconnectAttempts s)
                         (scheduled s) (reconnects s))).
  - injection Hstep as <-. apply Hsame; unfold on_timeout; by destruct (_ && _).
Qed.

Lemma step_bound e s s' :
  step e s = Some s' -> (reconnectAttempts s <= 5)%nat ->
  (reconnectAttempts s' <= 5)%nat.
Proof.
  intros Hstep Hle. destruct (resets e) eqn:Hr.
  - destruct e; simpl in *; try done.
    + injection Hstep as <-. unfold disconnect. destruct (socket s); simpl; lia.
    + destruct (listening s); [|done]. injection Hstep as <-. simpl. lia.
  - by destruct (step_quiet e s s' Hstep Hr Hle) as (n & _ & ? & _).
Qed.

Lemma run_bound es s s' :
  run es s = Some s' -> (reconnectAttempts s <= 5)%nat ->
  (reconnectAttempts s' <= 5)%nat.
Proof.
  revert s. induction es as [|e es IH]; intros s; simpl.
  - by intros [= <-].
  - destruct (step e s) as [s1|] eqn:Hstep; [|done]. simpl.
    intros Hrun Hle. eapply IH; [exact Hrun|]. by eapply step_bound.
Qed.

Lemma backoff_app a n m : backoff a n ++ backoff (a + n) m = backoff a (n + m).
Proof. unfold backoff. by rewrite seq_app, fmap_app. Qed.

(** X21.  Reconnection backs off and gives up.  Start from any state the
    service object can reach and let any events happen that include no
    successful connection and no call of [disconnect()].  Then the delays
    of the reconnection timeouts set meanwhile are 1000 ms times 2 to the
    power [a], [a + 1], ... for the [a] attempts counted before, each delay
    twice the one before; the count of attempts never exceeds 5, so at most
    [5 - a] timeouts are set, none waits longer than 16 s, and once the
    count is 5 no disconnection or connection error sets another one. *)
Theorem reconnection_backs_off_and_gives_up (es0 es : list Event) (s s' : State) :
  run es0 initial = Some s ->
  run es s = Some s' ->
  forallb (fun e => negb (resets e)) es = true ->
  exists n,
    scheduled s' = scheduled s ++ backoff (reconnectAttempts s) n
    ∧ (reconnectAttempts s' = reconnectAttempts s + n)%nat
    ∧ (reconnectAttempts s' <= 5)%nat
    ∧ Forall (fun d => (1000 <= d <= 16000)%Z) (backoff (reconnectAttempts s) n).
Proof.
  intros Hreach.
  assert (Hle : (reconnectAttempts s <= 5)%nat).
  { apply (run_bound es0 initial s Hreach). simpl. lia. }
  clear Hreach. revert s Hle.
  assert (Hgen : forall es s, (reconnectAttempts s <= 5)%nat ->
             run es s = Some s' ->
             forallb (fun e => negb (resets e)) es = true ->
             exists n,
               scheduled s' = scheduled s ++ backoff (reconnectAttempts s) n
               ∧ (reconnectAttempts s' = reconnectAttempts s + n)%nat
               ∧ (reconnectAttempts s' <= 5)%nat).
  { clear es. intros es. induction es as [|e es IH]; intros s Hle; simpl.
    - intros [= <-] _. exists 0. rewrite app_nil_r, Nat.add_0_r. done.
    - destruct (step e s) as [s1|] eqn:Hstep; [|done]. simpl.
      intros Hrun Hq. apply andb_true_iff in Hq as [Hq1 Hq].
      apply negb_true_iff in Hq1.
      destruct (step_quiet e s s1 Hstep Hq1 Hle) as (n & Ha & Hle1 & Hs).
      destruct (IH s1 Hle1 Hrun Hq) as (m & Hs' & Ha' & Hle').
      exists (n + m). split; [|lia].
      by rewrite Hs', Hs, Ha, <- app_assoc, backoff_app. }
  intros s Hle Hrun Hq.
  destruct (Hgen es s Hle Hrun Hq) as (n & Hs & Ha & Hle').
  exists n. repeat split; try done.
  unfold backoff. apply Forall_fmap, Forall_forall. intros k Hk.
  apply elem_of_seq in Hk. simpl.
  assert (Hk4 : (k <= 4)%nat) by lia.
  assert (H1 : (1 <= 2 ^ Z.of_nat k)%Z).
  { apply (Z.pow_le_mono_r 2 0 (Z.of_nat k)); lia. }
  assert (H2 : (2 ^ Z.of_nat k <= 2 ^ 4)%Z).
  { apply Z.pow_le_mono_r; lia. }
  change (2 ^ 4)%Z with 16%Z in H2. lia.
Qed.

Lemma reconnection_backs_off_and_gives_up_witness :
  run [Connect; OnConnect] initial = Some (mkState true true true 0 [] 0)
  ∧ exists n,
      scheduled (mkState true true false 5 [1000; 2000; 4000; 8000; 16000]%Z 0)
      = [] ++ backoff 0 n.
Proof.
  split; [reflexivity|].
  destruct (reconnection_backs_off_and_gives_up [Connect; OnConnect]
              [OnDisconnect "transport close"; OnConnectError; OnConnectError;
               OnConnectError; OnConnectError; OnConnectError; OnConnectError]
              (mkState true true true 0 [] 0)
              (mkState true true false 5 [1000; 2000; 4000; 8000; 16000]%Z 0)
              eq_refl eq_refl eq_refl) as (n & Hs & _).
  by exists n.
Defined.

End ReconnectFacts.

(** ** The list of the dashboard *)

Module ListFacts.
Import TaskModel Middleware Socket Api StoreFacts ControllerFacts Invariants.
Import DashboardHandlers.

(** A failure is answered with an error and nothing else. *)
Lemma router_failure_data req now srv :
  success (response_of (router req now srv)) = false ->
  exists c, data (response_of (router req now srv)) = ErrorData c.
Proof.
  assert (Hget : forall u q,
             success (getTasks u q srv) = false ->
             exists c, data (getTasks u q srv) = ErrorData c).
  { intros u q. unfold getTasks.
    destruct (parseInt (default (IntLit 1) (q_page q))); [|by eexists].
    destruct (parseInt (default (IntLit 50) (q_limit q))); [|by eexists].
    destruct (_ <? _)%Z; [by eexists|done]. }
  unfold router, chain, validateRequestSize, validateNoSqlInjection,
    authenticate, validateTaskOwnership, response_of.
  destruct (maxSize <? contentLength req)%Z; [by eexists|].
  destruct (checkForInjection _ || _); [by eexists|].
  destruct (credential req) as [u|code]; [|by eexists]. simpl.
  destruct (route req) as [| |id|id|id]; simpl.
  - destruct (validateTaskQuery _); simpl; [|by eexists]. apply Hget.
  - destruct (validateCreateTask _); simpl; [|by eexists].
    destruct (createTask_cases u (body req) now srv)
      as [->|(ttl & st & pos & _ & _ & _ & _ & ->)]; [by eexists|done].
  - destruct id as [oid|raw]; simpl; [|by eexists].
    destruct (findOne_by_id_user _ _ _) as [task|]; simpl; [|by eexists].
    destruct (validateUpdateTask _); simpl; [|by eexists].
    destruct (updateTask_cases u task (body req) now srv)
      as [->|(st & pos & t & _ & _ & _ & ->)]; [by eexists|done].
  - destruct id as [oid|raw]; simpl; [|by eexists].
    destruct (findOne_by_id_user _ _ _) as [task|]; simpl; [|by eexists]. done.
  - destruct id as [oid|raw]; simpl; [|by eexists].
    destruct (findOne_by_id_user _ _ _) as [task|]; simpl; [|by eexists].
    destruct (validateUpdateTaskStatus _); simpl; [|by eexists].
    destruct (updateTaskStatus_cases u task (body req) now srv)
      as [->|(lane & pos & t & _ & _ & _ & ->)]; [by eexists|done].
Qed.

(** X22.  The list follows the session's own requests.  Take a reachable
    server and a dashboard whose list holds the tasks of its account as the
    server stores them, in any order.  When the account's creation, update
    or deletion is handled, the list that [handleModalSubmit] or
    [handleTaskDelete] computes from the answer holds the account's tasks as
    the server stores them now; when the request fails, both are as
    before. *)
Theorem list_follows_own_requests (srv : Server) (req : Request) (now : Time)
    (u : User) (tasks0 : list Task) :
  Reachable srv ->
  credential req = inl u ->
  (forall id, route req ≠ PATCH_task_status id) ->
  tasks0 ≡ₚ BoardSync.own_tasks (user_id u) srv ->
  let h := router req now srv in
  settle (route req) (response_of h) tasks0
    ≡ₚ BoardSync.own_tasks (user_id u) (server_of h).
Proof.
  intros Hreach Hu Hnopatch Hsync h. subst h.
  destruct (Reachable_Inv srv Hreach) as [Hids Hfresh _ _ _ _].
  unfold BoardSync.own_tasks in *.
  destruct (router_cases req now srv)
    as [(r & Hr & Hfl)|[(u' & _ & Hroute & _ & ->)|[(u' & Hu' & Hroute & _ & ->)
       |(u' & oid & task & Hu' & Hfind & Hroute)]]].
  - destruct (router_failure_data req now srv) as (c & Hd).
    { by rewrite Hr. }
    rewrite Hr in *. unfold response_of, server_of in *. simpl in *.
    unfold settle. rewrite Hd. by destruct (route req) as [| |[]|[]|[]].
  - rewrite Hroute. unfold response_of, server_of, settle. simpl.
    by destruct (data (getTasks u' (query req) srv)).
  - rewrite Hu in Hu'. injection Hu' as <-. rewrite Hroute.
    destruct (createTask_cases u (body req) now srv)
      as [->|(ttl & st & pos & _ & _ & _ & _ & ->)]; [done|].
    unfold response_of, server_of, settle, handleModalSubmit_create. simpl.
    rewrite filter_app, filter_cons, filter_nil. simpl.
    rewrite decide_True by done. by rewrite Hsync.
  - rewrite Hu in Hu'. injection Hu' as <-.
    apply findOne_by_id_user_Some in Hfind as (Hin & Hoid & Huid).
    assert (Hsame : forall x, x ∈ tasks srv -> _id x = _id task -> x = task).
    { intros x Hx Hxid. by eapply unique_by_id. }
    destruct Hroute as [(Hroute & _ & ->)|[(Hroute & ->)|(Hroute & _)]];
      [| |by destruct (Hnopatch (ValidId oid))]; rewrite Hroute.
    + destruct (updateTask_cases u task (body req) now srv)
        as [->|(st & pos & t & _ & _ & (Hid & Hown & _) & ->)]; [done|].
      unfold response_of, server_of, settle, handleModalSubmit_update. simpl.
      rewrite BoardSync.filter_replace_doc_own.
      * rewrite Hsync. unfold replace_doc. by rewrite Hid, Hoid.
      * intros x Hx Hxid. rewrite (Hsame x Hx); congruence.
      * simpl. congruence.
    + unfold deleteTask, response_of, server_of, settle, handleTaskDelete. simpl.
      rewrite Hsync. unfold findByIdAndDelete. rewrite Hoid.
      rewrite !list_filter_filter.
      rewrite (list_filter_iff _ (fun x => userId x = user_id u ∧ _id x ≠ oid));
        [done|]. intros x. tauto.
Qed.

Lemma list_follows_own_requests_witness :
  Reachable Scenario.srv1
  ∧ settle POST_tasks
      (response_of (router (Scenario.request POST_tasks Scenario.alice
                              Scenario.write_spec Scenario.no_query) 11 Scenario.srv1))
      (BoardSync.own_tasks 1 Scenario.srv1)
    ≡ₚ BoardSync.own_tasks 1 Scenario.srv2.
Proof.
  split; [apply Writes.reachable_srv1|].
  refine (list_follows_own_requests Scenario.srv1
            (Scenario.request POST_tasks Scenario.alice Scenario.write_spec
               Scenario.no_query)
            11%Z Scenario.alice (BoardSync.own_tasks 1 Scenario.srv1)
            Writes.reachable_srv1 eq_refl _ _).
  - intros id. discriminate.
  - reflexivity.
Defined.

(** X23.  The dashboard loads the first fifty.  [loadTasks] asks for the
    list without a page or a limit, so what it puts in the list is the
    first 50 of the account's tasks in listing order: all of them, each
    once, when the account has at most 50, and exactly 50 of them when it
    has more; the others are not shown. *)
Theorem loadTasks_shows_first_page (srv : Server) (req : Request) (now : Time)
    (u : User) (tasks0 : list Task) :
  passes_guards req ->
  credential req = inl u ->
  route req = GET_tasks ->
  query req = Scenario.no_query ->
  let own := BoardSync.own_tasks (user_id u) srv in
  let loaded := loadTasks (response_of (router req now srv)) tasks0 in
  loaded = take 50 (sort_by list_order own)
  ∧ (length own <= 50 -> loaded ≡ₚ own)
  ∧ (50 < length own -> length loaded = 50).
Proof.
  intros Hg Hu Hroute Hq own loaded. subst own loaded.
  rewrite (Writes.router_dispatch _ _ _ u) by done.
  unfold Writes.dispatch. rewrite Hroute, Hq. simpl.
  unfold response_of, loadTasks, tasks_of, getTasks, BoardSync.own_tasks. simpl.
  rewrite drop_0.
  rewrite (list_filter_iff _ (fun t => userId t = user_id u))
    by (intros t; unfold matches_query; simpl; tauto).
  unfold limit_docs. simpl.
  set (own := filter (fun t => userId t = user_id u) (tasks srv)).
  assert (Hlen : length (sort_by list_order own) = length own).
  { apply Permutation_length, Listing.sort_by_perm. }
  split; [done|]. split.
  - intros Hle. rewrite take_ge by lia. apply Listing.sort_by_perm.
  - intros Hgt. rewrite length_take. lia.
Qed.

Lemma loadTasks_shows_first_page_witness :
  passes_guards (Scenario.request GET_tasks Scenario.alice Scenario.no_body
                   Scenario.no_query)
  ∧ loadTasks
      (response_of (router (Scenario.request GET_tasks Scenario.alice
                              Scenario.no_body Scenario.no_query) 30 Scenario.srv2))
      []
    = take 50 (sort_by list_order (BoardSync.own_tasks 1 Scenario.srv2)).
Proof.
  assert (Hg : passes_guards (Scenario.request GET_tasks Scenario.alice
                                Scenario.no_body Scenario.no_query)).
  { repeat split. vm_compute. discriminate. }
  split; [exact Hg|].
  apply (loadTasks_shows_first_page Scenario.srv2
           (Scenario.request GET_tasks Scenario.alice Scenario.no_body
              Scenario.no_query)
           30%Z Scenario.alice [] Hg eq_refl eq_refl eq_refl).
Defined.

End ListFacts.

(** ** The migration runner *)

Module MigrateFacts.
Import Migrate.

Section Runner.
Context {DB : Type}.
Variables up1 up2 up3 : DB -> DB * bool.

(** The store after the first [k] migrations were completed. *)
Definition at_version (k : nat) (st : Store DB) : Prop :=
  completed st = take k [1; 2; 3]%Z
  ∧ getCurrentVersion st = Z.of_nat k
  ∧ (k <= 3)%nat.

Lemma runMigrations_at_version k (st : Store DB) :
  at_version k st ->
  exists k',
    at_version k' (runMigrations up1 up2 up3 st).1
    ∧ (k <= k')%nat
    ∧ ((runMigrations up1 up2 up3 st).2 = true -> k' = 3%nat)
    ∧ (k = 3%nat -> runMigrations up1 up2 up3 st = (st, true)).
Proof.
  intros (Hc & Hv & Hk). unfold runMigrations, migrations. rewrite Hv.
  destruct st as [d v c]. simpl in *. subst c.
  destruct k as [|[|[|[|k]]]]; [| | | |lia]; simpl.
  - destruct (up1 d) as [d1 [|]]; simpl; [|exists 0; by repeat split].
    destruct (up2 d1) as [d2 [|]]; simpl; [|exists 1; repeat split; try done; lia].
    destruct (up3 d2) as [d3 [|]]; simpl; [|exists 2; repeat split; try done; lia].
    exists 3. repeat split; try done; lia.
  - destruct (up2 d) as [d2 [|]]; simpl; [|exists 1; by repeat split].
    destruct (up3 d2) as [d3 [|]]; simpl; [|exists 2; repeat split; try done; lia].
    exists 3. repeat split; try done; lia.
  - destruct (up3 d) as [d3 [|]]; simpl; [|exists 2; by repeat split].
    exists 3. repeat split; try done; lia.
  - exists 3. by repeat split.
Qed.

Lemma Reachable_at_version (st : Store DB) :
  Reachable up1 up2 up3 st -> exists k, at_version k st.
Proof.
  induction 1 as [d|st _ (k & IH)].
  - exists 0. unfold at_version. simpl. split; [done|]. split; [done|lia].
  - destruct (runMigrations_at_version k st IH) as (k' & H & _). by exists k'.
Qed.

(** X24.  Migrations are applied once and in order.  Whatever the three
    registered migrations do and whenever they fail, after any number of
    runs of the script on a database that was never migrated: the
    migrations reported as completed are 1, 2, 3 or the first ones of them,
    each once and in this order, and the recorded version is the number of
    the last one (0 when there is none); a run never takes a completed
    migration back; a run that comes to its end leaves all three completed
    and version 3; and a run on a store at version 3 touches nothing. *)
Theorem migrations_apply_once_in_order (st : Store DB) :
  Reachable up1 up2 up3 st ->
  exists k,
    completed st = take k [1; 2; 3]%Z
    ∧ getCurrentVersion st = Z.of_nat k
    ∧ exists k',
        completed (runMigrations up1 up2 up3 st).1 = take k' [1; 2; 3]%Z
        ∧ getCurrentVersion (runMigrations up1 up2 up3 st).1 = Z.of_nat k'
        ∧ (k <= k' <= 3)%nat
        ∧ ((runMigrations up1 up2 up3 st).2 = true -> k' = 3%nat)
        ∧ (k = 3%nat -> runMigrations up1 up2 up3 st = (st, true)).
Proof.
  intros Hreach. destruct (Reachable_at_version st Hreach) as (k & Hk).
  destruct (runMigrations_at_version k st Hk) as (k' & (Hc' & Hv' & Hk') & Hle & Hok & Hid).
  destruct Hk as (Hc & Hv & _).
  exists k. split; [done|]. split; [done|].
  exists k'. repeat split; try done.
Qed.
End Runner.

(** A database that counts the indexes made; the second migration fails on
    its first run. *)
Definition up_ok (d : nat) : nat * bool := (S d, true).
Definition up_fails_once (d : nat) : nat * bool :=
  if (d <? 2)%nat then (d, false) else (S d, true).

Lemma migrations_apply_once_in_order_witness :
  Reachable up_ok up_fails_once up_ok
            (runMigrations up_ok up_fails_once up_ok (mkStore 0 None [])).1
  ∧ exists k,
      completed (runMigrations up_ok up_fails_once up_ok (mkStore 0 None [])).1
      = take k [1; 2; 3]%Z.
Proof.
  assert (H : Reachable up_ok up_fails_once up_ok
                (runMigrations up_ok up_fails_once up_ok (mkStore 0 None [])).1).
  { apply reach_run, reach_fresh. }
  split; [exact H|].
  destruct (migrations_apply_once_in_order up_ok up_fails_once up_ok _ H)
    as (k & Hc & _).
  by exists k.
Defined.

End MigrateFacts.

(** ** Identifiers over the life of the server *)

Module IdFacts.
Import TaskModel Middleware Socket Api StoreFacts ControllerFacts Invariants.

(** Any number of steps of the server. *)
Inductive Steps : Server -> Server -> Prop :=
  | steps_refl srv : Steps srv srv
  | steps_step srv1 srv2 srv3 : Steps srv1 srv2 -> Step srv2 srv3 -> Steps srv1 srv3.

Lemma Steps_Reachable srv srv' : Reachable srv -> Steps srv srv' -> Reachable srv'.
Proof.
  intros Hreach. induction 1 as [|srv1 srv2 srv3 _ IH Hstep]; [done|].
  eapply reach_step; [by apply IH|done].
Qed.

Lemma request_next_oid req now srv :
  (next_oid srv <= next_oid (server_of (router req now srv)))%nat.
Proof.
  destruct (router_cases req now srv)
    as [(r & -> & _)|[(u & _ & _ & _ & ->)|[(u & _ & _ & _ & ->)
       |(u & oid & task & _ & _ & Hroute)]]]; try done.
  - destruct (createTask_cases u (body req) now srv)
      as [->|(ttl & st & pos & _ & _ & _ & _ & ->)]; [done|].
    unfold server_of. simpl. lia.
  - destruct Hroute as [(_ & _ & ->)|[(_ & ->)|(_ & _ & ->)]].
    + destruct (updateTask_cases u task (body req) now srv)
        as [->|(st & pos & t & _ & _ & _ & ->)]; done.
    + done.
    + destruct (updateTaskStatus_cases u task (body req) now srv)
        as [->|(lane & pos & t & _ & _ & _ & ->)]; done.
Qed.

(** One request: a task stored afterwards continues a task stored before,
    or carries the id the generator hands out next. *)
Lemma request_descend req now srv t' :
  t' ∈ tasks (server_of (router req now srv)) ->
  (exists t, t ∈ tasks srv ∧ _id t = _id t' ∧ userId t = userId t'
             ∧ createdAt t = createdAt t')
  ∨ _id t' = next_oid srv.
Proof.
  assert (Hwrite : forall task now' t st pos,
             task ∈ tasks srv -> updated_from now' task t st pos ->
             t' ∈ replace_doc t (tasks srv) ->
             exists t0, t0 ∈ tasks srv ∧ _id t0 = _id t' ∧ userId t0 = userId t'
                        ∧ createdAt t0 = createdAt t').
  { intros task now' t st pos Hin (Hid & Hown & Hcr & _) Ht'.
    apply Writes.elem_of_replace_doc in Ht' as [( -> & _)|Ht']; [|by exists t'].
    by exists task. }
  destruct (router_cases req now srv)
    as [(r & -> & _)|[(u & _ & _ & _ & ->)|[(u & _ & _ & _ & ->)
       |(u & oid & task & _ & Hfind & Hroute)]]]; try (left; by exists t').
  - destruct (createTask_cases u (body req) now srv)
      as [->|(ttl & st & pos & _ & _ & _ & _ & ->)]; [left; by exists t'|].
    unfold server_of. simpl. rewrite elem_of_app, list_elem_of_singleton.
    intros [Hin| -> ]; [left; by exists t'|by right].
  - apply findOne_by_id_user_Some in Hfind as (Hin & _ & _).
    destruct Hroute as [(_ & _ & ->)|[(_ & ->)|(_ & _ & ->)]].
    + destruct (updateTask_cases u task (body req) now srv)
        as [->|(st & pos & t & _ & _ & Hup & ->)]; [left; by exists t'|].
      unfold server_of. simpl. intros Ht'. left. by eapply Hwrite.
    + unfold server_of, findByIdAndDelete. simpl. intros Ht'.
      apply list_elem_of_filter in Ht' as [_ Ht']. left. by exists t'.
    + destruct (updateTaskStatus_cases u task (body req) now srv)
        as [->|(lane & pos & t & _ & _ & Hup & ->)]; [left; by exists t'|].
      unfold server_of. simpl. intros Ht'. left. by eapply Hwrite.
Qed.

(** The tasks of a later server whose id the earlier server had handed out
    descend from tasks of the earlier server. *)
Lemma Steps_descend srv srv' :
  Reachable srv -> Steps srv srv' ->
  (next_oid srv <= next_oid srv')%nat
  ∧ forall t', t' ∈ tasks srv' -> (_id t' < next_oid srv)%nat ->
      exists t, t ∈ tasks srv ∧ _id t = _id t' ∧ userId t = userId t'
                ∧ createdAt t = createdAt t'.
Proof.
  intros Hreach Hsteps.
  induction Hsteps as [srv|srv1 srv2 srv3 Hsteps IH Hstep].
  - split; [done|]. intros t' Hin _. by exists t'.
  - destruct (IH Hreach) as [Hle Hdesc].
    pose proof (Steps_Reachable _ _ Hreach Hsteps) as Hreach2.
    destruct Hstep as [req now srv2|sid cred i srv2 Hio Hsid|sid i srv2 Hio];
      try (split; [done|]; by apply Hdesc).
    split.
    { pose proof (request_next_oid req now srv2). lia. }
    intros t' Hin Hold.
    destruct (request_descend req now srv2 t' Hin)
      as [(t2 & Hin2 & Hid & Hown & Hcr)|Hid]; [|lia].
    destruct (Hdesc t2 Hin2 ltac:(lia)) as (t & Ht & Hid' & Hown' & Hcr').
    exists t. repeat split; congruence.
Qed.

(** X25.  Ids are never recycled.  On a reachable server, the id of a
    stored task denotes that task for good: whatever requests, connections
    and disconnections follow, also when the task is deleted meanwhile, a
    task stored later under the same id has the same owner and the same
    creation time.  An id a client still holds can never come to address a
    task of somebody else. *)
Theorem ids_are_never_recycled (srv srv' : Server) (t t' : Task) :
  Reachable srv ->
  Steps srv srv' ->
  t ∈ tasks srv ->
  t' ∈ tasks srv' ->
  _id t' = _id t ->
  userId t' = userId t ∧ createdAt t' = createdAt t.
Proof.
  intros Hreach Hsteps Hin Hin' Hid.
  destruct (Reachable_Inv srv Hreach) as [Hids Hfresh _ _ _ _].
  assert (Hold : (_id t < next_oid srv)%nat).
  { revert Hin. generalize t. by apply Forall_forall. }
  destruct (Steps_descend srv srv' Hreach Hsteps) as [_ Hdesc].
  destruct (Hdesc t' Hin' ltac:(lia)) as (t0 & Hin0 & Hid0 & Hown0 & Hcr0).
  assert (t0 = t) as -> by (eapply unique_by_id; eauto; congruence).
  by split.
Qed.

Lemma ids_are_never_recycled_witness :
  Reachable Scenario.srv1
  ∧ userId (mkTask 0 1 "Write spec" "" done 0 (Some 20%Z) 10 20)
    = userId (mkTask 0 1 "Write spec" "" todo 0 None 10 10).
Proof.
  split; [apply Writes.reachable_srv1|].
  refine (proj1 (ids_are_never_recycled Scenario.srv1
                   (server_of (router Scenario.mark_done 20 Scenario.srv1))
                   (mkTask 0 1 "Write spec" "" todo 0 None 10 10)
                   (mkTask 0 1 "Write spec" "" done 0 (Some 20%Z) 10 20)
                   Writes.reachable_srv1 _ _ _ eq_refl)).
  - eapply steps_step; [apply steps_refl|apply step_request].
  - vm_compute. left.
  - vm_compute. left.
Defined.

End IdFacts.

(** ** The failures of the task routes *)

Module AnswerFacts.
Import TaskModel Middleware Socket Api StoreFacts ControllerFacts Invariants.
















End AnswerFacts.
